(** * fal-ideogram-v3 MCP server: a shallow embedding of [src/index.ts]

    The server is one TypeScript file: a start-up block that reads the
    credential, two helpers ([downloadImage], [generateImageFilename]) and
    four tool handlers.  The handlers are sequential code with side effects
    (standard error, calls to the fal.ai client, HTTP downloads, the local
    file system, the clock) and with JavaScript exceptions, so they are
    embedded in a small state-and-exception monad over an explicit [World];
    what the outside world answers is an [Env] of oracles.  The tool
    arguments have the types that the tools' input schemas declare.

    Strings are [string]: sequences of code units below 256, which is the
    Latin-1 part of JavaScript's UTF-16 strings.  Numbers that the code
    prints or tests for truthiness are [Js.number]; numbers that it only
    forwards to the backend are integers ([Z]), as the schemas declare. *)

From stdpp Require Import base option list strings gmap pretty.
From Stdlib Require Import ZArith Lia Ascii String.

Local Open Scope string_scope.
Local Open Scope Z_scope.

(** ** JavaScript primitives used by the file *)

Module Js.

Definition nl : string := String (ascii_of_nat 10) EmptyString.
Definition dq : string := String (ascii_of_nat 34) EmptyString.

(** Truthiness of the values the handlers test: strings, numbers, and
    optional (possibly [undefined]) values of either. *)
Definition truthy_string (s : string) : bool :=
  match s with EmptyString => false | String _ _ => true end.

Definition truthy_opt {A} (t : A -> bool) (o : option A) : bool :=
  match o with Some a => t a | None => false end.

(** [a || b] on an optional string. *)
Definition or_string (o : option string) (d : string) : string :=
  match o with
  | Some s => if truthy_string s then s else d
  | None => d
  end.

(** Template-literal rendering of array lengths and loop counters (integers
    from 0 to 2^32), of HTTP status codes, and of booleans. *)
Definition nat_to_string (n : nat) : string := pretty n.
Definition bool_to_string (b : bool) : string := if b then "true" else "false".

(** [Array.prototype.join]. *)
Fixpoint join (sep : string) (l : list string) : string :=
  match l with
  | [] => ""
  | [x] => x
  | x :: rest => x +:+ sep +:+ join sep rest
  end.

Definition code (c : ascii) : N := N_of_ascii c.

Definition in_range (lo hi : N) (c : ascii) : bool :=
  ((lo <=? code c) && (code c <=? hi))%N.

Definition is_lower (c : ascii) : bool := in_range 97 122 c.
Definition is_digit (c : ascii) : bool := in_range 48 57 c.
Definition is_underscore (c : ascii) : bool := (code c =? 95)%N.

(** The regular-expression class [\s], restricted to code units below 256:
    tab, line feed, vertical tab, form feed, carriage return, space and the
    no-break space. *)
Definition is_space (c : ascii) : bool :=
  in_range 9 13 c || (code c =? 32)%N || (code c =? 160)%N.

(** [String.prototype.toLowerCase] on one code unit: A-Z, and the Latin-1
    capitals U+00C0..U+00DE except the multiplication sign U+00D7. *)
Definition lower_char (c : ascii) : ascii :=
  if in_range 65 90 c then ascii_of_N (code c + 32)
  else if in_range 192 222 c && negb (code c =? 215)%N
       then ascii_of_N (code c + 32)
       else c.

Fixpoint map_string (f : ascii -> ascii) (s : string) : string :=
  match s with
  | EmptyString => EmptyString
  | String c s' => String (f c) (map_string f s')
  end.

Fixpoint filter_string (p : ascii -> bool) (s : string) : string :=
  match s with
  | EmptyString => EmptyString
  | String c s' => if p c then String c (filter_string p s') else filter_string p s'
  end.

Fixpoint forall_string (p : ascii -> bool) (s : string) : bool :=
  match s with
  | EmptyString => true
  | String c s' => p c && forall_string p s'
  end.

Definition toLowerCase (s : string) : string := map_string lower_char s.

(** The characters of what [Number.prototype.toString] returns: digits,
    '+', '-', '.', 'e', and the letters of "Infinity" and "NaN". *)
Definition number_char (c : ascii) : bool :=
  is_digit c || (code c =? 43)%N || (code c =? 45)%N || (code c =? 46)%N
  || (code c =? 101)%N || (code c =? 73)%N || (code c =? 110)%N
  || (code c =? 102)%N || (code c =? 105)%N || (code c =? 116)%N
  || (code c =? 121)%N || (code c =? 78)%N || (code c =? 97)%N.

(** A JavaScript number, as far as this file can tell numbers apart: it
    tests them for truthiness and prints them in template literals.
    [Int n] is a safe integer (below 2^53 in magnitude): a number that is
    that integer exactly, and that is printed in decimal with all its
    digits.  [Other text] is any other number but NaN (a number with a
    fraction, an integer from 2^53 on, an infinity) together with what
    [toString] returns for it ("1.5", "9007199254740992",
    "1152921504606847000", "1.5e+21", "Infinity"); such a number is not
    zero. *)
Inductive number :=
| Int (n : Z) (safe : (Z.abs n <? 2 ^ 53) = true)
| Other (text : string) (printed : forall_string number_char text = true)
| NaN.

Definition truthy_number (x : number) : bool :=
  match x with
  | Int n _ => negb (n =? 0)
  | Other _ _ => true
  | NaN => false
  end.

(** Template-literal rendering of a number. *)
Definition number_to_string (x : number) : string :=
  match x with
  | Int n _ => pretty n
  | Other text _ => text
  | NaN => "NaN"
  end.

(** [.replace(/[^a-z0-9\s]/g, '')]: every code unit outside the class is
    deleted. *)
Definition strip_unsafe (s : string) : string :=
  filter_string (fun c => is_lower c || is_digit c || is_space c) s.

(** [.replace(/\s+/g, '_')]: every maximal run of white space becomes one
    underscore.  [in_run] tells that the previous code unit was white space. *)
Fixpoint spaces_to_underscore (in_run : bool) (s : string) : string :=
  match s with
  | EmptyString => EmptyString
  | String c s' =>
      if is_space c
      then if in_run then spaces_to_underscore true s'
           else String "_" (spaces_to_underscore true s')
      else String c (spaces_to_underscore false s')
  end.

(** [.replace(/[:.]/g, '-')]. *)
Definition dash_colon_dot (s : string) : string :=
  map_string (fun c => if ((code c =? 58) || (code c =? 46))%N then "-"%char else c) s.

End Js.

(** ** [generateImageFilename] (index.ts, lines 104-114) *)

(** The first statement: the prompt made safe for a file name. *)
Definition safePrompt (prompt : string) : string :=
  String.substring 0 50
    (Js.spaces_to_underscore false (Js.strip_unsafe (Js.toLowerCase prompt))).

(** [seed ? `_${seed}` : ''] *)
Definition seedStr (seed : option Js.number) : string :=
  match seed with
  | Some n => if Js.truthy_number n then "_" +:+ Js.number_to_string n else ""
  | None => ""
  end.

(** The function at a given reading [iso] of [new Date().toISOString()]. *)
Definition generateImageFilename_at (iso : string) (prompt : string) (index : nat)
    (seed : option Js.number) : string :=
  let timestamp := Js.dash_colon_dot iso in
  "ideogram_v3_" +:+ safePrompt prompt +:+ seedStr seed +:+ "_" +:+
  Js.nat_to_string index +:+ "_" +:+ timestamp +:+ ".png".

(** ** Data (index.ts, lines 28-59 and the input schemas) *)

Inductive ImageSizePreset :=
  square_hd | square | portrait_4_3 | portrait_16_9 | landscape_4_3 | landscape_16_9.

Inductive ImageSize :=
| SizePreset (p : ImageSizePreset)
| SizeCustom (width height : Js.number).

Inductive RenderingSpeed := TURBO | BALANCED | QUALITY.

Inductive Style := AUTO | GENERAL | REALISTIC | DESIGN.

Inductive PaletteName :=
  EMBER | FRESH | JUNGLE | MAGIC | MELON | MOSAIC | PASTEL | ULTRAMARINE.

Record RGBColor := { r : Z; g : Z; b : Z }.

(** [color_weight] is a JSON number that the server only forwards; it is
    kept as the pair numerator/denominator. *)
Record ColorPaletteMember := { rgb : RGBColor; color_weight : option (Z * positive) }.

Record ColorPalette := {
  members : option (list ColorPaletteMember);
  name : option PaletteName }.

Definition ImageSizePreset_str (p : ImageSizePreset) : string :=
  match p with
  | square_hd => "square_hd" | square => "square"
  | portrait_4_3 => "portrait_4_3" | portrait_16_9 => "portrait_16_9"
  | landscape_4_3 => "landscape_4_3" | landscape_16_9 => "landscape_16_9"
  end.

Definition RenderingSpeed_str (s : RenderingSpeed) : string :=
  match s with TURBO => "TURBO" | BALANCED => "BALANCED" | QUALITY => "QUALITY" end.

Definition Style_str (s : Style) : string :=
  match s with
  | AUTO => "AUTO" | GENERAL => "GENERAL" | REALISTIC => "REALISTIC" | DESIGN => "DESIGN"
  end.

Definition PaletteName_str (n : PaletteName) : string :=
  match n with
  | EMBER => "EMBER" | FRESH => "FRESH" | JUNGLE => "JUNGLE" | MAGIC => "MAGIC"
  | MELON => "MELON" | MOSAIC => "MOSAIC" | PASTEL => "PASTEL"
  | ULTRAMARINE => "ULTRAMARINE"
  end.

(** The object sent to the backend as [input], and also the shape of the
    arguments of the two generation tools: [prompt] is required by the
    schema, every other key may be missing ([None] is [undefined]). *)
Module Input.
Record t := {
  prompt : string;
  negative_prompt : option string;
  image_size : option ImageSize;
  rendering_speed : option RenderingSpeed;
  style : option Style;
  style_codes : option (list string);
  color_palette : option ColorPalette;
  image_urls : option (list string);
  expand_prompt : option bool;
  num_images : option Z;
  seed : option Z;
  sync_mode : option bool }.
End Input.

(** Arguments of [ideogram_v3_generate_queue]: the destructuring
    [const { webhook_url, ...input } = args] splits them in two. *)
Module QueueArgs.
Record t := { webhook_url : option string; input : Input.t }.
End QueueArgs.

Module StatusArgs.
Record t := { request_id : string; logs : option bool }.
End StatusArgs.

Module ResultArgs.
Record t := { request_id : string }.
End ResultArgs.

(** One entry of [IdeogramImageResult.images]. *)
Module Image.
Record t := {
  url : string;
  content_type : option string;
  file_name : option string;
  file_size : option Js.number }.
End Image.

(** [result.data as IdeogramImageResult] is an unchecked cast: at run time
    [images] may be missing, which is what an unexpected response shape
    amounts to for this code. *)
Module IdeogramImageResult.
Record t := { images : option (list Image.t); seed : option Js.number }.
End IdeogramImageResult.

(** What [fal.subscribe] reports while it waits, and what it resolves to. *)
Module QueueUpdate.
Record t := { status : string; logs : list string }.
End QueueUpdate.

Module SubscribeResult.
Record t := { data : option IdeogramImageResult.t; requestId : string }.
End SubscribeResult.

Module Log.
Record t := { timestamp : string; message : string }.
End Log.

Module QueueStatus.
Record t := {
  status : string;
  response_url : option string;
  logs : option (list Log.t) }.
End QueueStatus.

(** A thrown JavaScript value: an [Error] with its message, or anything
    else ([error instanceof Error] is false). *)
Inductive Thrown :=
| ErrorObj (message : string)
| OtherValue.

Inductive Reply (A : Type) :=
| Resolves (a : A)
| Rejects (e : Thrown).
Arguments Resolves {A} a.
Arguments Rejects {A} e.

(** The tool result handed back to the host: [isError] is either absent or
    [true]. *)
Module Content.
Record t := { type : string; text : string }.
End Content.

Module ToolResult.
Record t := { content : list Content.t; isError : option bool }.
End ToolResult.

(** An element of [downloadedImages]. *)
Module Downloaded.
Record t := {
  url : string;
  localPath : option string;
  index : nat;
  content_type : string;
  file_name : string;
  file_size : option Js.number;
  filename : string }.
End Downloaded.

(** ** The outside world *)

(** What one call of [downloadImage] runs into.  The constructors are the
    ways the function body can go: the two synchronous failures before the
    write stream is created, a write stream that cannot open its file, and
    what happens once the file is open.  A request may stay without answer
    and a body may stop arriving: nothing in the function sets a timeout. *)
Inductive StreamEnd :=
| Finish                                    (* 'finish' on the write stream *)
| StreamError (written : nat) (message : string) (* 'error' after some bytes *)
| Stalls (written : nat).                   (* neither 'finish' nor 'error' *)

Inductive AfterOpen :=
| GetThrows (message : string)              (* client.get throws *)
| RequestError (message : string)           (* 'error' on the request *)
| NoResponse                                (* neither a response nor an 'error' *)
| Response (statusCode : nat) (body : string) (stream : StreamEnd).

Inductive Download :=
| UrlInvalid (message : string)             (* new URL(url) throws *)
| MkdirFails (message : string)             (* fs.mkdirSync throws *)
| OpenFails (message : string)              (* 'error' on the stream: open failed *)
| Opened (a : AfterOpen).

(** An argument of a call of [console.error]. *)
Inductive LogArg :=
| LogString (s : string)
| LogThrown (e : Thrown)
| LogNumber (n : nat)
| LogArray (l : list string).

(** A call made to the fal.ai client. *)
Inductive Call :=
| CallSubscribe (input : Input.t)
| CallQueueSubmit (input : Input.t) (webhookUrl : option string)
| CallQueueStatus (requestId : string) (logs : bool)
| CallQueueResult (requestId : string).

(** The oracles: the working directory, the clock, the outcome of the n-th
    download, and the backend's answers. *)
Record Env := {
  cwd : string;
  toISOString : nat -> string;
  download : nat -> Download;
  subscribe : Input.t -> list QueueUpdate.t * Reply SubscribeResult.t;
  queue_submit : Input.t -> option string -> Reply string;
  queue_status : string -> bool -> Reply QueueStatus.t;
  queue_result : string -> Reply (option IdeogramImageResult.t) }.

(** What the process has done so far. *)
Record World := {
  stderr : list (list LogArg);     (* the arguments of each console.error *)
  calls : list Call;               (* calls to the fal.ai client *)
  requests : list string;          (* URLs for which client.get returned *)
  files : gmap string string;      (* regular files and their contents *)
  dirs : gset string;              (* directories *)
  clock : nat;                     (* readings of the clock *)
  downloads : nat }.               (* calls of [downloadImage] *)

(** ** The monad: state and exceptions

    A computation returns, throws, or does not come back at all: an 'error'
    event that no listener takes is thrown by Node as an uncaught exception,
    which ends the process ([Uncaught]; the file installs no
    'uncaughtException' handler), and a promise that never settles leaves
    whoever awaits it suspended for good ([Pending]).  Neither is a
    JavaScript exception: [try]/[catch] does not see them. *)

Inductive Outcome (A : Type) :=
| Ok (a : A)
| Throw (e : Thrown)
| Uncaught (e : Thrown)
| Pending.
Arguments Ok {A} a.
Arguments Throw {A} e.
Arguments Uncaught {A} e.
Arguments Pending {A}.

Definition M (A : Type) : Type := World -> Outcome A * World.

Definition ret {A} (a : A) : M A := fun w => (Ok a, w).

Definition throw {A} (e : Thrown) : M A := fun w => (Throw e, w).

Definition uncaught {A} (e : Thrown) : M A := fun w => (Uncaught e, w).

Definition pending {A} : M A := fun w => (Pending, w).

Definition bind {A B} (m : M A) (k : A -> M B) : M B :=
  fun w => match m w with
           | (Ok a, w') => k a w'
           | (Throw e, w') => (Throw e, w')
           | (Uncaught e, w') => (Uncaught e, w')
           | (Pending, w') => (Pending, w')
           end.

(** [try { m } catch (e) { h e }] *)
Definition try_catch {A} (m : M A) (h : Thrown -> M A) : M A :=
  fun w => match m w with
           | (Ok a, w') => (Ok a, w')
           | (Throw e, w') => h e w'
           | (Uncaught e, w') => (Uncaught e, w')
           | (Pending, w') => (Pending, w')
           end.

Notation "x <- m ;; k" := (bind m (fun x => k))
  (at level 100, m at next level, right associativity).
Notation "m ;;; k" := (bind m (fun _ => k))
  (at level 100, right associativity).

(** [await p] for a promise that settles as [r]. *)
Definition await {A} (r : Reply A) : M A :=
  match r with Resolves a => ret a | Rejects e => throw e end.

Definition modify (f : World -> World) : M unit := fun w => (Ok tt, f w).

(** [console.error(...args)] *)
Definition console_error (args : list LogArg) : M unit :=
  modify (fun w => {| stderr := (stderr w ++ [args])%list; calls := calls w;
                      requests := requests w; files := files w; dirs := dirs w;
                      clock := clock w; downloads := downloads w |}).

Definition record_call (c : Call) : M unit :=
  modify (fun w => {| stderr := stderr w; calls := (calls w ++ [c])%list;
                      requests := requests w; files := files w; dirs := dirs w;
                      clock := clock w; downloads := downloads w |}).

Definition record_request (url : string) : M unit :=
  modify (fun w => {| stderr := stderr w; calls := calls w;
                      requests := (requests w ++ [url])%list; files := files w;
                      dirs := dirs w; clock := clock w; downloads := downloads w |}).

Definition set_files (f : gmap string string -> gmap string string) : M unit :=
  modify (fun w => {| stderr := stderr w; calls := calls w;
                      requests := requests w; files := f (files w);
                      dirs := dirs w; clock := clock w; downloads := downloads w |}).

(** [if (!fs.existsSync(d)) fs.mkdirSync(d, { recursive: true })] when
    [mkdirSync] does not throw. *)
Definition ensure_dir (d : string) : M unit :=
  modify (fun w => {| stderr := stderr w; calls := calls w;
                      requests := requests w; files := files w;
                      dirs := {[ d ]} ∪ dirs w; clock := clock w;
                      downloads := downloads w |}).

(** [path.join] of a directory and a name without separators. *)
Definition path_join (d n : string) : string := d +:+ "/" +:+ n.

Section Server.

Variable env : Env.

(** [new Date().toISOString()] *)
Definition now : M string :=
  fun w => (Ok (toISOString env (clock w)),
            {| stderr := stderr w; calls := calls w; requests := requests w;
               files := files w; dirs := dirs w; clock := S (clock w);
               downloads := downloads w |}).

Definition next_download : M Download :=
  fun w => (Ok (download env (downloads w)),
            {| stderr := stderr w; calls := calls w; requests := requests w;
               files := files w; dirs := dirs w; clock := clock w;
               downloads := S (downloads w) |}).

(** ** [downloadImage] (lines 62-101)

    The promise is awaited by its only callers, so resolution is [Ok] and
    rejection is [Throw].  [fs.createWriteStream] opens the path with flag
    'w': the file exists, empty, from then on, unless it cannot be opened.
    The only listener for the stream's 'error' event is attached inside the
    response callback, after the status check (line 90); it unlinks the
    file and rejects.  When the file cannot be opened the stream emits
    'error' before any response has arrived: [client.get] has been called
    by then, no listener is attached, and the process dies of the uncaught
    exception.  When no response and no request error ever arrives, or the
    body stops before the stream finishes, neither [resolve] nor [reject]
    is called. *)
Definition imagesDir : string := path_join (cwd env) "images".

Definition downloadImage (url filename : string) : M string :=
  d <- next_download ;;
  match d with
  | UrlInvalid msg => throw (ErrorObj msg)
  | MkdirFails msg => throw (ErrorObj msg)
  | OpenFails msg =>
      ensure_dir imagesDir ;;;
      record_request url ;;;
      uncaught (ErrorObj msg)
  | Opened after =>
      ensure_dir imagesDir ;;;
      let filePath := path_join imagesDir filename in
      set_files (insert filePath "") ;;;
      match after with
      | GetThrows msg => throw (ErrorObj msg)
      | RequestError msg => record_request url ;;; throw (ErrorObj msg)
      | NoResponse => record_request url ;;; pending
      | Response statusCode body stream =>
          record_request url ;;;
          if negb (statusCode =? 200)%nat
          then throw (ErrorObj ("Failed to download image: HTTP " +:+
                                Js.nat_to_string statusCode))
          else match stream with
               | Finish =>
                   set_files (insert filePath body) ;;;
                   ret filePath
               | StreamError written msg =>
                   set_files (insert filePath (String.substring 0 written body)) ;;;
                   set_files (delete filePath) ;;;
                   throw (ErrorObj msg)
               | Stalls written =>
                   set_files (insert filePath (String.substring 0 written body)) ;;;
                   pending
               end
      end
  end.

(** [generateImageFilename]: reads the clock once. *)
Definition generateImageFilename (prompt : string) (index : nat)
    (seed : option Js.number) : M string :=
  iso <- now ;;
  ret (generateImageFilename_at iso prompt index seed).

(** ** The download loop (lines 328-357 and 723-751)

    [label] is the first argument given to [generateImageFilename]; [i] is
    the loop counter and [downloadedImages] the array built so far. *)
Definition entry (image : Image.t) (filename : string) (i : nat)
    (localPath : option string) : Downloaded.t :=
  {| Downloaded.url := Image.url image;
     Downloaded.localPath := localPath;
     Downloaded.index := i + 1;
     Downloaded.content_type := Js.or_string (Image.content_type image) "image/png";
     Downloaded.file_name := Js.or_string (Image.file_name image) filename;
     Downloaded.file_size := Image.file_size image;
     Downloaded.filename := filename |}.

(** One turn of the loop: lines 329-356. *)
Definition loop_body (label : string) (seed : option Js.number) (image : Image.t)
    (i : nat) (downloadedImages : list Downloaded.t) : M (list Downloaded.t) :=
  filename <- generateImageFilename label (i + 1) seed ;;
  try_catch
    (localPath <- downloadImage (Image.url image) filename ;;
     console_error [LogString ("Downloaded: " +:+ filename)] ;;;
     ret (downloadedImages ++ [entry image filename i (Some localPath)])%list)
    (fun downloadError =>
     console_error [LogString ("Failed to download image " +:+ Js.nat_to_string (i + 1)
                               +:+ ":");
                    LogThrown downloadError] ;;;
     ret (downloadedImages ++ [entry image filename i None])%list).

Fixpoint download_loop (label : string) (seed : option Js.number) (images : list Image.t)
    (i : nat) (downloadedImages : list Downloaded.t) : M (list Downloaded.t) :=
  match images with
  | [] => ret downloadedImages
  | image :: rest =>
      pushed <- loop_body label seed image i downloadedImages ;;
      download_loop label seed rest (S i) pushed
  end.

(** ** Pieces shared by the handlers *)

Definition text_result (text : string) : ToolResult.t :=
  {| ToolResult.content := [ {| Content.type := "text"; Content.text := text |} ];
     ToolResult.isError := None |}.

Definition error_result (text : string) : ToolResult.t :=
  {| ToolResult.content := [ {| Content.type := "text"; Content.text := text |} ];
     ToolResult.isError := Some true |}.

(** The answer given when [falConfigured] is false. *)
Definition notConfigured : ToolResult.t :=
  error_result
    "Error: FAL_KEY environment variable is not set. Please configure your fal.ai API key.".

(** The answer given when [style] and [style_codes] are used together. *)
Definition conflictingParameters : ToolResult.t :=
  error_result
    "Error: Cannot use both 'style' and 'style_codes' parameters together. Please use only one.".

(** [x && x.length > 0] for an optional array. *)
Definition nonempty_array {A} (o : option (list A)) : bool :=
  match o with Some l => (0 <? List.length l)%nat | None => false end.

Definition truthy_style (o : option Style) : bool :=
  Js.truthy_opt (fun s => Js.truthy_string (Style_str s)) o.

(** [style && style_codes && style_codes.length > 0] *)
Definition style_conflict (style : option Style) (style_codes : option (list string))
    : bool :=
  truthy_style style && nonempty_array style_codes.

(** [errorMessage] of the catch blocks. *)
Definition errorMessage (prefix : string) (error : Thrown) : string :=
  match error with
  | ErrorObj message => prefix +:+ " Error: " +:+ message
  | OtherValue => prefix
  end.

(** Reading a property of [undefined]. *)
Definition TypeError_undefined (property : string) : Thrown :=
  ErrorObj ("Cannot read properties of undefined (reading '" +:+ property +:+ "')").

(** [output.images.length], the first use of [output]. *)
Definition output_images (output : option IdeogramImageResult.t)
    : M (IdeogramImageResult.t * list Image.t) :=
  match output with
  | None => throw (TypeError_undefined "images")
  | Some o =>
      match IdeogramImageResult.images o with
      | None => throw (TypeError_undefined "length")
      | Some images => ret (o, images)
      end
  end.

(** The [map] callback that renders one downloaded image. *)
Definition details (img : Downloaded.t) : string :=
  "Image " +:+ Js.nat_to_string (Downloaded.index img) +:+ ":" +:+
  (if Js.truthy_opt Js.truthy_string (Downloaded.localPath img)
   then Js.nl +:+ "  Local Path: " +:+ default "" (Downloaded.localPath img)
   else "") +:+
  Js.nl +:+ "  Original URL: " +:+ Downloaded.url img +:+
  Js.nl +:+ "  Filename: " +:+ Downloaded.filename img +:+
  Js.nl +:+ "  Content Type: " +:+ Downloaded.content_type img +:+
  match Downloaded.file_size img with
  | Some file_size =>
      if Js.truthy_number file_size
      then Js.nl +:+ "  File Size: " +:+ Js.number_to_string file_size +:+ " bytes"
      else ""
  | None => ""
  end.

Definition imageDetails (downloadedImages : list Downloaded.t) : string :=
  Js.join (Js.nl +:+ Js.nl) (map details downloadedImages).

(** [output.seed ? `Seed: ${output.seed}` : 'Seed: Auto-generated'] *)
Definition seed_line (seed : option Js.number) : string :=
  match seed with
  | Some n =>
      if Js.truthy_number n then "Seed: " +:+ Js.number_to_string n
      else "Seed: Auto-generated"
  | None => "Seed: Auto-generated"
  end.

(** The last line of the two summaries. *)
Definition download_note (downloadedImages : list Downloaded.t) : string :=
  if existsb (fun img => Js.truthy_opt Js.truthy_string (Downloaded.localPath img))
       downloadedImages
  then "Images have been downloaded to the local 'images' directory."
  else "Note: Local download failed, but original URLs are available.".

(** ** [ideogram_v3_generate] (lines 252-423) *)

(** The destructuring defaults of lines 264-277. *)
Definition negative_prompt_of (args : Input.t) : string :=
  default "" (Input.negative_prompt args).
Definition image_size_of (args : Input.t) : ImageSize :=
  default (SizePreset square_hd) (Input.image_size args).
Definition rendering_speed_of (args : Input.t) : RenderingSpeed :=
  default BALANCED (Input.rendering_speed args).
Definition expand_prompt_of (args : Input.t) : bool :=
  default true (Input.expand_prompt args).
Definition num_images_of (args : Input.t) : Z :=
  default 1 (Input.num_images args).
Definition sync_mode_of (args : Input.t) : bool :=
  default true (Input.sync_mode args).

(** The payload of lines 292-307: the seven keys always present, then the
    five optional ones under their guards. *)
Definition generate_input (args : Input.t) : Input.t :=
  {| Input.prompt := Input.prompt args;
     Input.negative_prompt := Some (negative_prompt_of args);
     Input.image_size := Some (image_size_of args);
     Input.rendering_speed := Some (rendering_speed_of args);
     Input.expand_prompt := Some (expand_prompt_of args);
     Input.num_images := Some (num_images_of args);
     Input.sync_mode := Some (sync_mode_of args);
     Input.style :=
       if truthy_style (Input.style args) then Input.style args else None;
     Input.style_codes :=
       if nonempty_array (Input.style_codes args) then Input.style_codes args else None;
     Input.color_palette :=
       match Input.color_palette args with Some p => Some p | None => None end;
     Input.image_urls :=
       if nonempty_array (Input.image_urls args) then Input.image_urls args else None;
     Input.seed :=
       match Input.seed args with Some n => Some n | None => None end |}.

(** [messages.forEach(console.error)]: [forEach] calls its callback with the
    element, its index and the array, and [console.error] takes them all.
    [rest] is what is left to visit, from position [index]. *)
Fixpoint forEach_console_error (rest : list string) (index : nat) (array : list string)
    : M unit :=
  match rest with
  | [] => ret tt
  | message :: rest' =>
      console_error [LogString message; LogNumber index; LogArray array] ;;;
      forEach_console_error rest' (S index) array
  end.

(** [onQueueUpdate] (lines 315-319); [QueueUpdate.logs] holds the messages
    [update.logs.map((log) => log.message)]. *)
Definition onQueueUpdate (update : QueueUpdate.t) : M unit :=
  if String.eqb (QueueUpdate.status update) "IN_PROGRESS"
  then forEach_console_error (QueueUpdate.logs update) 0 (QueueUpdate.logs update)
  else ret tt.

(** The updates that arrive while [fal.subscribe] waits. *)
Fixpoint onQueueUpdates (updates : list QueueUpdate.t) : M unit :=
  match updates with
  | [] => ret tt
  | update :: rest => onQueueUpdate update ;;; onQueueUpdates rest
  end.

(** [await fal.subscribe("fal-ai/ideogram/v3", { input, logs: true, onQueueUpdate })] *)
Definition fal_subscribe (input : Input.t) : M SubscribeResult.t :=
  record_call (CallSubscribe input) ;;;
  onQueueUpdates (fst (subscribe env input)) ;;;
  await (snd (subscribe env input)).

Definition imageSizeStr (image_size : ImageSize) : string :=
  match image_size with
  | SizePreset p => ImageSizePreset_str p
  | SizeCustom width height =>
      Js.number_to_string width +:+ "x" +:+ Js.number_to_string height
  end.

Definition generate_responseText (args : Input.t) (seed : option Js.number)
    (requestId : string) (downloadedImages : list Downloaded.t) : string :=
  Js.join Js.nl
    [ "Successfully generated " +:+ Js.nat_to_string (List.length downloadedImages)
        +:+ " image(s) using fal-ai/ideogram/v3:";
      "";
      "Prompt: " +:+ Js.dq +:+ Input.prompt args +:+ Js.dq;
      (if Js.truthy_string (negative_prompt_of args)
       then "Negative Prompt: " +:+ Js.dq +:+ negative_prompt_of args +:+ Js.dq
       else "");
      "Image Size: " +:+ imageSizeStr (image_size_of args);
      "Rendering Speed: " +:+ RenderingSpeed_str (rendering_speed_of args);
      (match Input.style args with
       | Some s => if Js.truthy_string (Style_str s) then "Style: " +:+ Style_str s else ""
       | None => ""
       end);
      (if nonempty_array (Input.style_codes args)
       then "Style Codes: " +:+ Js.join ", " (default [] (Input.style_codes args))
       else "");
      (match Input.color_palette args with
       | Some p => "Color Palette: " +:+
                   Js.or_string (PaletteName_str <$> name p) "Custom"
       | None => ""
       end);
      (if nonempty_array (Input.image_urls args)
       then "Style Reference Images: " +:+
            Js.nat_to_string (List.length (default [] (Input.image_urls args)))
       else "");
      "Expand Prompt: " +:+ Js.bool_to_string (expand_prompt_of args);
      seed_line seed;
      "Request ID: " +:+ requestId;
      "";
      "Generated Images:";
      imageDetails downloadedImages;
      "";
      download_note downloadedImages ].

Definition ideogram_v3_generate (falConfigured : bool) (args : Input.t)
    : M ToolResult.t :=
  if negb falConfigured then ret notConfigured
  else
    try_catch
      (if style_conflict (Input.style args) (Input.style_codes args)
       then ret conflictingParameters
       else
         let input := generate_input args in
         console_error [LogString ("Generating image with fal-ai/ideogram/v3 - prompt: "
                                   +:+ Js.dq +:+ Input.prompt args +:+ Js.dq)] ;;;
         result <- fal_subscribe input ;;
         let output := SubscribeResult.data result in
         console_error [LogString "Downloading images locally..."] ;;;
         oi <- output_images output ;;
         downloadedImages <-
           download_loop (Input.prompt args) (IdeogramImageResult.seed (fst oi))
             (snd oi) 0 [] ;;
         ret (text_result
                (generate_responseText args (IdeogramImageResult.seed (fst oi))
                   (SubscribeResult.requestId result) downloadedImages)))
      (fun error =>
         console_error [LogString "Error generating image:"; LogThrown error] ;;;
         ret (error_result
                (errorMessage "Failed to generate image with fal-ai/ideogram/v3." error))).

(** ** [ideogram_v3_generate_queue] (lines 527-592) *)

(** [await fal.queue.submit("fal-ai/ideogram/v3", { input, webhookUrl })];
    the value is [result.request_id]. *)
Definition fal_queue_submit (input : Input.t) (webhookUrl : option string) : M string :=
  record_call (CallQueueSubmit input webhookUrl) ;;;
  await (queue_submit env input webhookUrl).

Definition queue_responseText (request_id prompt : string) (webhook_url : option string)
    : string :=
  Js.join Js.nl
    [ "Successfully submitted image generation request to queue.";
      "";
      "Request ID: " +:+ request_id;
      "Prompt: " +:+ Js.dq +:+ prompt +:+ Js.dq;
      (if Js.truthy_opt Js.truthy_string webhook_url
       then "Webhook URL: " +:+ default "" webhook_url
       else "No webhook configured");
      "";
      "Use the request ID with ideogram_v3_queue_status to check progress or ideogram_v3_queue_result to get the final result." ].

Definition ideogram_v3_generate_queue (falConfigured : bool) (args : QueueArgs.t)
    : M ToolResult.t :=
  if negb falConfigured then ret notConfigured
  else
    let webhook_url := QueueArgs.webhook_url args in
    let input := QueueArgs.input args in
    try_catch
      (if style_conflict (Input.style input) (Input.style_codes input)
       then ret conflictingParameters
       else
         console_error
           [LogString ("Submitting queue request for fal-ai/ideogram/v3 - prompt: "
                       +:+ Js.dq +:+ Input.prompt input +:+ Js.dq)] ;;;
         request_id <- fal_queue_submit input webhook_url ;;
         ret (text_result (queue_responseText request_id (Input.prompt input) webhook_url)))
      (fun error =>
         console_error [LogString "Error submitting queue request:"; LogThrown error] ;;;
         ret (error_result
                (errorMessage "Failed to submit queue request for fal-ai/ideogram/v3." error))).

(** ** [ideogram_v3_queue_status] (lines 616-678) *)

Definition fal_queue_status (requestId : string) (logs : bool) : M QueueStatus.t :=
  record_call (CallQueueStatus requestId logs) ;;;
  await (queue_status env requestId logs).

Definition log_line (log : Log.t) : string :=
  "[" +:+ Log.timestamp log +:+ "] " +:+ Log.message log.

Definition status_responseText (request_id : string) (status : QueueStatus.t) : string :=
  "Queue Status for Request ID: " +:+ request_id +:+ Js.nl +:+ Js.nl +:+
  "Status: " +:+ QueueStatus.status status +:+
  (if Js.truthy_opt Js.truthy_string (QueueStatus.response_url status)
   then Js.nl +:+ "Response URL: " +:+ default "" (QueueStatus.response_url status)
   else "") +:+
  (if nonempty_array (QueueStatus.logs status)
   then Js.nl +:+ Js.nl +:+ "Logs:" +:+ Js.nl +:+
        Js.join Js.nl (map log_line (default [] (QueueStatus.logs status)))
   else "").

Definition ideogram_v3_queue_status (falConfigured : bool) (args : StatusArgs.t)
    : M ToolResult.t :=
  if negb falConfigured then ret notConfigured
  else
    let request_id := StatusArgs.request_id args in
    let logs := default true (StatusArgs.logs args) in
    try_catch
      (console_error [LogString ("Checking status for request: " +:+ request_id)] ;;;
       status <- fal_queue_status request_id logs ;;
       ret (text_result (status_responseText request_id status)))
      (fun error =>
         console_error [LogString "Error checking queue status:"; LogThrown error] ;;;
         ret (error_result (errorMessage "Failed to check queue status." error))).

(** ** [ideogram_v3_queue_result] (lines 697-805) *)

(** [await fal.queue.result("fal-ai/ideogram/v3", { requestId })]; the value
    is [result.data]. *)
Definition fal_queue_result (requestId : string) : M (option IdeogramImageResult.t) :=
  record_call (CallQueueResult requestId) ;;;
  await (queue_result env requestId).

Definition result_responseText (request_id : string) (seed : option Js.number)
    (downloadedImages : list Downloaded.t) : string :=
  Js.join Js.nl
    [ "Queue Result for Request ID: " +:+ request_id;
      "";
      "Successfully completed! Generated " +:+
        Js.nat_to_string (List.length downloadedImages) +:+ " image(s):";
      "";
      seed_line seed;
      "";
      "Generated Images:";
      imageDetails downloadedImages;
      "";
      download_note downloadedImages ].

Definition ideogram_v3_queue_result (falConfigured : bool) (args : ResultArgs.t)
    : M ToolResult.t :=
  if negb falConfigured then ret notConfigured
  else
    let request_id := ResultArgs.request_id args in
    try_catch
      (console_error [LogString ("Getting result for request: " +:+ request_id)] ;;;
       output <- fal_queue_result request_id ;;
       console_error [LogString "Downloading images locally..."] ;;;
       oi <- output_images output ;;
       downloadedImages <-
         download_loop ("queue_result_" +:+ request_id)
           (IdeogramImageResult.seed (fst oi)) (snd oi) 0 [] ;;
       ret (text_result
              (result_responseText request_id (IdeogramImageResult.seed (fst oi))
                 downloadedImages)))
      (fun error =>
         console_error [LogString "Error getting queue result:"; LogThrown error] ;;;
         ret (error_result (errorMessage "Failed to get queue result." error))).

End Server.

(** ** Start-up (lines 13-26)

    [exitCode] is [Some] when the block has called [process.exit]. *)
Module Process.
Record t := {
  falConfigured : bool;
  credentials : option string;
  stderr : list (list LogArg);
  exitCode : option Z }.
End Process.

Definition startup (FAL_KEY : option string) : Process.t :=
  if negb (Js.truthy_opt Js.truthy_string FAL_KEY)
  then {| Process.falConfigured := false;
          Process.credentials := None;
          Process.stderr :=
            [ [LogString "FAL_KEY environment variable is required"];
              [LogString
                 "Please set your fal.ai API key: export FAL_KEY=your_api_key_here"] ];
          Process.exitCode := None |}
  else {| Process.falConfigured := true;
          Process.credentials := FAL_KEY;
          Process.stderr := [];
          Process.exitCode := None |}.

(** A world in which nothing has happened yet. *)
Definition initial_world : World :=
  {| stderr := []; calls := []; requests := []; files := ∅; dirs := ∅;
     clock := 0; downloads := 0 |}.

(** * Vocabulary of the properties

    Predicates and concrete values used to state the properties; nothing
    here is part of the server. *)

(** The characters a sanitized prompt may contain. *)
Definition permitted (c : ascii) : bool :=
  Js.is_lower c || Js.is_digit c || Js.is_underscore c.

(** The instant used in the examples. *)
Definition iso0 : string := "2024-01-02T03:04:05.678Z".

(** The download is a complete one: status 200 and a stream that
    finishes. *)
Definition download_ok (d : Download) : bool :=
  match d with
  | Opened (Response statusCode _ Finish) => (statusCode =? 200)%nat
  | _ => false
  end.

(** The promise of the download settles: it is resolved or rejected. *)
Definition settles (d : Download) : bool :=
  match d with
  | OpenFails _ | Opened NoResponse => false
  | Opened (Response statusCode _ (Stalls _)) => negb (statusCode =? 200)%nat
  | _ => true
  end.

(** Each of the [n] downloads that start in world [w] settles. *)
Definition batch_settles (env : Env) (w : World) (n : nat) : bool :=
  forallb (fun k => settles (download env k)) (seq (downloads w) n).

(** The element pushed for the k-th image of a loop that starts with counter
    [i] in a world whose clock and download counter read [c] and [d]. *)
Definition pushed (env : Env) (label : string) (seed : option Js.number) (c d i : nat)
    (k : nat) (image : Image.t) : Downloaded.t :=
  let filename :=
    generateImageFilename_at (toISOString env (c + k)%nat) label (i + k + 1)%nat seed in
  entry image filename (i + k)%nat
    (if download_ok (download env (d + k)%nat)
     then Some (path_join (imagesDir env) filename) else None).

(** The second world differs from the first in what was logged at most. *)
Definition quiet (w w' : World) : Prop :=
  calls w' = calls w /\ requests w' = requests w /\ files w' = files w
  /\ dirs w' = dirs w /\ clock w' = clock w /\ downloads w' = downloads w.

(** What the backend's answer yields at [output.images.length]: the result
    object and its images, or nothing when the shape is unexpected. *)
Definition well_formed (output : option IdeogramImageResult.t)
    : option (IdeogramImageResult.t * list Image.t) :=
  match output with
  | Some o =>
      match IdeogramImageResult.images o with
      | Some images => Some (o, images)
      | None => None
      end
  | None => None
  end.

(** The first sentence of the answer built by each catch block. *)
Definition generate_failure : string :=
  "Failed to generate image with fal-ai/ideogram/v3.".
Definition submit_failure : string :=
  "Failed to submit queue request for fal-ai/ideogram/v3.".
Definition status_failure : string := "Failed to check queue status.".
Definition result_failure : string := "Failed to get queue result.".

(** How many elements of [l] satisfy [p]. *)
Definition count {A} (p : A -> bool) (l : list A) : nat := List.length (List.filter p l).

(** [localPath] is not null. *)
Definition has_local_path (a : Downloaded.t) : bool :=
  match Downloaded.localPath a with Some _ => true | None => false end.

(** The number of failing downloads among the [n] that start in world [w]. *)
Definition failures (env : Env) (w : World) (n : nat) : nat :=
  count (fun k => negb (download_ok (download env k))) (seq (downloads w) n).

(** [assets] is what materializing [images] from world [w] must produce:
    one entry for each image, in order, whose local path is the images
    directory joined with the entry's file name when the download of that
    image is complete, and null when it is not. *)
Definition materialized (env : Env) (w : World) (images : list Image.t)
    (assets : list Downloaded.t) : Prop :=
  List.length assets = List.length images
  /\ List.map Downloaded.url assets = List.map Image.url images
  /\ List.map Downloaded.index assets = seq 1 (List.length images)
  /\ (forall k a, assets !! k = Some a ->
        Downloaded.localPath a
        = if download_ok (download env (downloads w + k)%nat)
          then Some (path_join (imagesDir env) (Downloaded.filename a))
          else None)
  /\ count has_local_path assets
     = (List.length images - failures env w (List.length images))%nat
  /\ count (fun a => negb (has_local_path a)) assets
     = failures env w (List.length images).

(** An image entry with a URL and no metadata. *)
Definition image_at (url : string) : Image.t :=
  {| Image.url := url; Image.content_type := None; Image.file_name := None;
     Image.file_size := None |}.

(** Two images, with the seed echoed as 0. *)
Definition two_images : IdeogramImageResult.t :=
  {| IdeogramImageResult.images :=
       Some [ image_at "https://cdn.example/a.png"; image_at "https://cdn.example/b.png" ];
     IdeogramImageResult.seed := Some (Js.Int 0 eq_refl) |}.

(** The first download succeeds, every later one is answered with 404. *)
Definition demo_env : Env :=
  {| cwd := "/srv";
     toISOString := fun _ => iso0;
     download := fun n =>
       match n with
       | O => Opened (Response 200 "PNG" Finish)
       | S _ => Opened (Response 404 "" Finish)
       end;
     subscribe := fun _ =>
       ([], Resolves {| SubscribeResult.data := Some two_images;
                        SubscribeResult.requestId := "req-1" |});
     queue_submit := fun _ _ => Resolves "req-1";
     queue_status := fun _ _ =>
       Resolves {| QueueStatus.status := "COMPLETED";
                   QueueStatus.response_url := None;
                   QueueStatus.logs := None |};
     queue_result := fun _ => Resolves (Some two_images) |}.

(** The request of the specification's scenarios. *)
Definition red_circle : Input.t :=
  {| Input.prompt := "a red circle";
     Input.negative_prompt := None;
     Input.image_size := Some (SizePreset square);
     Input.rendering_speed := None;
     Input.style := None;
     Input.style_codes := None;
     Input.color_palette := None;
     Input.image_urls := None;
     Input.expand_prompt := None;
     Input.num_images := Some 1;
     Input.seed := None;
     Input.sync_mode := None |}.

(** The request of the scenario with both [style] and [style_codes]. *)
Definition both_set : Input.t :=
  {| Input.prompt := "x";
     Input.negative_prompt := None;
     Input.image_size := None;
     Input.rendering_speed := None;
     Input.style := Some REALISTIC;
     Input.style_codes := Some [ "A1B2C3D4" ];
     Input.color_palette := None;
     Input.image_urls := None;
     Input.expand_prompt := None;
     Input.num_images := None;
     Input.seed := None;
     Input.sync_mode := None |}.

(** The arguments of queue_result for the request id "req-1". *)
Definition req_1 : ResultArgs.t := {| ResultArgs.request_id := "req-1" |}.

(** The images directory cannot be written to: every write stream fails to
    open its file. *)
Definition unwritable_env : Env :=
  {| cwd := "/srv";
     toISOString := fun _ => iso0;
     download := fun _ => OpenFails "EACCES: permission denied";
     subscribe := subscribe demo_env;
     queue_submit := queue_submit demo_env;
     queue_status := queue_status demo_env;
     queue_result := queue_result demo_env |}.

(** The first image arrives, the request for the second one is never
    answered. *)
Definition silent_env : Env :=
  {| cwd := "/srv";
     toISOString := fun _ => iso0;
     download := fun n =>
       match n with
       | O => Opened (Response 200 "PNG" Finish)
       | S _ => Opened NoResponse
       end;
     subscribe := subscribe demo_env;
     queue_submit := queue_submit demo_env;
     queue_status := queue_status demo_env;
     queue_result := queue_result demo_env |}.

(** A download whose write stream fails after two bytes. *)
Definition broken_stream_env : Env :=
  {| cwd := "/srv";
     toISOString := fun _ => iso0;
     download := fun _ => Opened (Response 200 "PNG" (StreamError 2 "ENOSPC"));
     subscribe := subscribe demo_env;
     queue_submit := queue_submit demo_env;
     queue_status := queue_status demo_env;
     queue_result := queue_result demo_env |}.

(** Both parameters in use: [style] is set and [style_codes] is a non-empty
    list. *)
Definition both_styles (args : Input.t) : Prop :=
  is_Some (Input.style args)
  /\ exists codes, Input.style_codes args = Some codes /\ codes <> [].

(** The request already carries every key that generate fills in, and no
    empty list that generate leaves out. *)
Definition explicit (args : Input.t) : Prop :=
  is_Some (Input.negative_prompt args)
  /\ is_Some (Input.image_size args)
  /\ is_Some (Input.rendering_speed args)
  /\ is_Some (Input.expand_prompt args)
  /\ is_Some (Input.num_images args)
  /\ is_Some (Input.sync_mode args)
  /\ Input.style_codes args <> Some []
  /\ Input.image_urls args <> Some [].

(** Every download is answered with 404. *)
Definition not_found_env : Env :=
  {| cwd := "/srv";
     toISOString := fun _ => iso0;
     download := fun _ => Opened (Response 404 "Not Found" Finish);
     subscribe := subscribe demo_env;
     queue_submit := queue_submit demo_env;
     queue_status := queue_status demo_env;
     queue_result := queue_result demo_env |}.

(** The number of images in what the download loop is given. *)
Definition batch_size (output : option (IdeogramImageResult.t * list Image.t)) : nat :=
  match output with
  | Some (_, images) => List.length images
  | None => 0
  end.

(** What a backend reply gives the download loop to work on: nothing when
    the call is rejected or the result has no image list. *)
Definition backend_output {A} (data : A -> option IdeogramImageResult.t)
    (reply : Reply A) : option (IdeogramImageResult.t * list Image.t) :=
  match reply with
  | Resolves a => well_formed (data a)
  | Rejects _ => None
  end.

(** The backend call was not rejected. *)
Definition resolved {A} (reply : Reply A) : Prop :=
  match reply with Resolves _ => True | Rejects _ => False end.

(** The run ends with a text answer: without [isError] when [success]
    holds, with [isError: true] when it does not. *)
Definition answered (run : Outcome ToolResult.t * World) (success : Prop) : Prop :=
  exists text w',
    (success /\ run = (Ok (text_result text), w'))
    \/ (~ success /\ run = (Ok (error_result text), w')).

(** The [isError] field of the answer of a run, if the run returned. *)
Definition flag_of (run : Outcome ToolResult.t * World) : option (option bool) :=
  match fst run with
  | Ok r => Some (ToolResult.isError r)
  | _ => None
  end.

(** [with_seed seed env] is the backend [env], except that the result of
    [subscribe] and of [queue.result] carries the seed [seed]. *)
Definition reseed (seed : option Js.number) (o : IdeogramImageResult.t)
    : IdeogramImageResult.t :=
  {| IdeogramImageResult.images := IdeogramImageResult.images o;
     IdeogramImageResult.seed := seed |}.

Definition reseed_subscribe (seed : option Js.number) (r : SubscribeResult.t)
    : SubscribeResult.t :=
  {| SubscribeResult.data := reseed seed <$> SubscribeResult.data r;
     SubscribeResult.requestId := SubscribeResult.requestId r |}.

Definition reseed_reply {A} (f : A -> A) (reply : Reply A) : Reply A :=
  match reply with Resolves a => Resolves (f a) | Rejects e => Rejects e end.

Definition with_seed (seed : option Js.number) (env : Env) : Env :=
  {| cwd := cwd env;
     toISOString := toISOString env;
     download := download env;
     subscribe := fun input =>
       (fst (subscribe env input),
        reseed_reply (reseed_subscribe seed) (snd (subscribe env input)));
     queue_submit := queue_submit env;
     queue_status := queue_status env;
     queue_result := fun requestId =>
       reseed_reply (fmap (reseed seed)) (queue_result env requestId) |}.

(** [String.prototype.startsWith], [endsWith] and [includes], as
    propositions. *)
Definition starts_with (t s : string) : Prop := exists rest, t = s +:+ rest.
Definition ends_with (t s : string) : Prop := exists before, t = before +:+ s.
Definition includes (t s : string) : Prop := exists before rest, t = before +:+ s +:+ rest.

(** A result with an empty image list, and a backend that returns it. *)
Definition no_images : IdeogramImageResult.t :=
  {| IdeogramImageResult.images := Some [];
     IdeogramImageResult.seed := Some (Js.Int 5 eq_refl) |}.

Definition empty_env : Env :=
  {| cwd := "/srv";
     toISOString := fun _ => iso0;
     download := download demo_env;
     subscribe := fun _ =>
       ([], Resolves {| SubscribeResult.data := Some no_images;
                        SubscribeResult.requestId := "req-2" |});
     queue_submit := queue_submit demo_env;
     queue_status := queue_status demo_env;
     queue_result := fun _ => Resolves (Some no_images) |}.

(** ** Vocabulary of the further properties *)

(** The character [c] does not occur in [s]. *)
Definition lacks (c : ascii) (s : string) : bool :=
  Js.forall_string (fun x => negb (Ascii.eqb x c)) s.

(** No two underscores in a row. *)
Fixpoint no_double_underscore (s : string) : bool :=
  match s with
  | String a t =>
      match t with
      | String b _ => negb (Js.is_underscore a && Js.is_underscore b)
      | EmptyString => true
      end && no_double_underscore t
  | EmptyString => true
  end.

Definition starts_underscore (s : string) : bool :=
  match s with String c _ => Js.is_underscore c | EmptyString => false end.

(** The download gets as far as [client.get] returning a request. *)
Definition reaches_network (d : Download) : bool :=
  match d with
  | OpenFails _ | Opened (RequestError _) | Opened NoResponse
  | Opened (Response _ _ _) => true
  | _ => false
  end.

(** What is at the target path after a download that found [before] there. *)
Definition file_after (d : Download) (before : option string) : option string :=
  match d with
  | UrlInvalid _ | MkdirFails _ | OpenFails _ => before
  | Opened (GetThrows _) | Opened (RequestError _) | Opened NoResponse => Some ""
  | Opened (Response statusCode body stream) =>
      if (statusCode =? 200)%nat
      then match stream with
           | Finish => Some body
           | StreamError _ _ => None
           | Stalls written => Some (String.substring 0 written body)
           end
      else Some ""
  end.

(** The URLs requested by a loop over [images] whose first download is the
    [d]-th: the loop goes on to the next image only when the download of
    the present one settles. *)
Fixpoint network_urls (env : Env) (d : nat) (images : list Image.t) : list string :=
  match images with
  | [] => []
  | image :: rest =>
      ((if reaches_network (download env d) then [Image.url image] else [])
       ++ (if settles (download env d) then network_urls env (S d) rest else []))%list
  end.

(** The file name given to the image at position [k] (from 0) of a loop that
    starts in a world whose clock reads [c]. *)
Definition filename_at (env : Env) (label : string) (seed : option Js.number) (c k : nat)
    : string :=
  generateImageFilename_at (toISOString env (c + k)%nat) label (k + 1)%nat seed.


(** Everything but the log and the list of backend calls is the same. *)
Definition same_store (w w' : World) : Prop :=
  requests w' = requests w /\ files w' = files w /\ dirs w' = dirs w
  /\ clock w' = clock w /\ downloads w' = downloads w.

(** Every local path of [assets] is the images directory joined with the
    asset's file name, and in [w'] that file holds the body of the complete
    download of its image (the downloads being counted from [w]). *)
Definition on_disk (env : Env) (w w' : World) (assets : list Downloaded.t) : Prop :=
  forall k a path,
    assets !! k = Some a -> Downloaded.localPath a = Some path ->
    path = path_join (imagesDir env) (Downloaded.filename a)
    /\ exists body,
         download env (downloads w + k)%nat = Opened (Response 200 body Finish)
         /\ files w' !! path = Some body.

(** Every run of [m] takes a world to one related to it by [R]. *)
Definition keeps (R : World -> World -> Prop) {A} (m : M A) : Prop :=
  forall w, R w (snd (m w)).


(** The calls made between [w] and [w']: none or one. *)
Definition at_most_one_call (w w' : World) : Prop :=
  calls w' = calls w \/ exists c, calls w' = (calls w ++ [c])%list.

(** The two closing sentences of a summary. *)
Definition downloaded_note : string :=
  "Images have been downloaded to the local 'images' directory.".
Definition failed_note : string :=
  "Note: Local download failed, but original URLs are available.".

(** Two computations agree when, started in worlds that differ in the log
    at most, they end with the same outcome in worlds that differ in the log
    at most. *)
Definition agree {A} (m1 m2 : M A) : Prop :=
  forall w1 w2, quiet w1 w2 ->
    fst (m1 w1) = fst (m2 w2) /\ quiet (snd (m1 w1)) (snd (m2 w2)).

(** The backend [env], reporting the progress updates [updates] instead of
    its own during [subscribe]. *)
Definition with_updates (updates : Input.t -> list QueueUpdate.t) (env : Env) : Env :=
  {| cwd := cwd env;
     toISOString := toISOString env;
     download := download env;
     subscribe := fun input => (updates input, snd (subscribe env input));
     queue_submit := queue_submit env;
     queue_status := queue_status env;
     queue_result := queue_result env |}.

(** A world with something on the log already, and a backend that reports
    progress. *)
Definition logged_world : World :=
  {| stderr := [ [LogString "earlier output"] ]; calls := []; requests := [];
     files := ∅;
     dirs := ∅; clock := 0; downloads := 0 |}.

Definition progress (input : Input.t) : list QueueUpdate.t :=
  [ {| QueueUpdate.status := "IN_QUEUE"; QueueUpdate.logs := [ "waiting" ] |};
    {| QueueUpdate.status := "IN_PROGRESS"; QueueUpdate.logs := [ "step 1"; "step 2" ] |} ].

(** A backend that rejects every call with the same error. *)
Definition failing_env (e : Thrown) : Env :=
  {| cwd := "/srv";
     toISOString := fun _ => iso0;
     download := download demo_env;
     subscribe := fun _ => ([], Rejects e);
     queue_submit := fun _ _ => Rejects e;
     queue_status := fun _ _ => Rejects e;
     queue_result := fun _ => Rejects e |}.

(** FAL_KEY is absent or empty. *)
Definition no_key (FAL_KEY : option string) : Prop :=
  FAL_KEY = None \/ FAL_KEY = Some "".

(** A status without response URL and without logs, and a backend that
    reports it. *)
Definition bare_status : QueueStatus.t :=
  {| QueueStatus.status := "IN_QUEUE";
     QueueStatus.response_url := Some "";
     QueueStatus.logs := Some [] |}.

Definition bare_status_env : Env :=
  {| cwd := "/srv";
     toISOString := fun _ => iso0;
     download := download demo_env;
     subscribe := subscribe demo_env;
     queue_submit := queue_submit demo_env;
     queue_status := fun _ _ => Resolves bare_status;
     queue_result := queue_result demo_env |}.

(** ** Vocabulary of the proofs *)

(** Whatever [m] returns satisfies [P]. *)
Definition returns {A} (P : A -> Prop) (m : M A) : Prop :=
  forall w a w', m w = (Ok a, w') -> P a.

(** No call to the fal.ai client between [w] and [w']. *)
Definition same_calls (w w' : World) : Prop := calls w' = calls w.

(** The computation does not come back: the process has died, or the
    promise it awaits never settles. *)
Definition no_answer {A} (o : Outcome A) : Prop :=
  o = Pending \/ exists e, o = Uncaught e.

(** The seed is printed without a decimal point: it is absent, a safe
    integer, NaN, or a number whose printed form has none (2^60, 1e+21). *)
Definition dotless (seed : option Js.number) : bool :=
  match seed with
  | Some (Js.Other text _) => lacks "." text
  | _ => true
  end.

(** * Properties *)

(** ** Sanitization and file names *)

Ltac by_cases_on_char c :=
  destruct c as [[] [] [] [] [] [] [] []]; vm_compute; try reflexivity; try discriminate.

Lemma strip_keeps_safe_or_space (s : string) :
  Js.forall_string (fun c => Js.is_lower c || Js.is_digit c || Js.is_space c)
    (Js.strip_unsafe s) = true.
Proof.
  unfold Js.strip_unsafe.
  induction s as [|c s IH]; simpl; [reflexivity|].
  destruct (Js.is_lower c || Js.is_digit c || Js.is_space c) eqn:E; simpl.
  - rewrite E. exact IH.
  - exact IH.
Qed.

Lemma spaces_to_underscore_permitted (s : string) : forall b,
  Js.forall_string (fun c => Js.is_lower c || Js.is_digit c || Js.is_space c) s = true ->
  Js.forall_string permitted (Js.spaces_to_underscore b s) = true.
Proof.
  induction s as [|c s IH]; intros b H; simpl in *; [reflexivity|].
  apply andb_true_iff in H as [Hc Hs].
  destruct (Js.is_space c) eqn:E.
  - destruct b; simpl; auto.
  - simpl. rewrite orb_false_r in Hc. unfold permitted at 1.
    rewrite Hc. simpl. auto.
Qed.

Lemma substring_forall (p : ascii -> bool) (m : nat) : forall s,
  Js.forall_string p s = true -> Js.forall_string p (String.substring 0 m s) = true.
Proof.
  induction m as [|m IH]; intros s H.
  - destruct s; reflexivity.
  - destruct s as [|c s]; simpl in *; [reflexivity|].
    apply andb_true_iff in H as [Hc Hs]. rewrite Hc. simpl. auto.
Qed.

Lemma substring_length_le (m : nat) : forall s,
  (String.length (String.substring 0 m s) <= m)%nat.
Proof.
  induction m as [|m IH]; intros s.
  - destruct s; simpl; lia.
  - destruct s as [|c s]; simpl; [lia|]. specialize (IH s). lia.
Qed.


Lemma safePrompt_permitted (prompt : string) :
  Js.forall_string permitted (safePrompt prompt) = true.
Proof.
  unfold safePrompt. apply substring_forall.
  apply spaces_to_underscore_permitted, strip_keeps_safe_or_space.
Qed.

Lemma safePrompt_length (prompt : string) :
  (String.length (safePrompt prompt) <= 50)%nat.
Proof. unfold safePrompt. apply substring_length_le. Qed.












Example safePrompt_red_circle : safePrompt "A Red  Circle!" = "a_red_circle".
Proof. vm_compute. reflexivity. Qed.

Example safePrompt_symbols : safePrompt "!!! ???" = "_".
Proof. vm_compute. reflexivity. Qed.

Example filename_red_circle :
  generateImageFilename_at iso0 "A Red  Circle!" 1 (Some (Js.Int 42 eq_refl))
  = "ideogram_v3_a_red_circle_42_1_2024-01-02T03-04-05-678Z.png".
Proof. vm_compute. reflexivity. Qed.



(** ** Runs of the primitives *)

Lemma quiet_refl (w : World) : quiet w w.
Proof. repeat split. Qed.

Lemma quiet_trans (w1 w2 w3 : World) : quiet w1 w2 -> quiet w2 w3 -> quiet w1 w3.
Proof. unfold quiet. intuition congruence. Qed.

Lemma console_error_run (args : list LogArg) (w : World) :
  exists w', console_error args w = (Ok tt, w') /\ quiet w w'.
Proof. eexists. split; [reflexivity|]. repeat split. Qed.

Lemma forEach_console_error_run (array rest : list string) : forall index w,
  exists w', forEach_console_error rest index array w = (Ok tt, w') /\ quiet w w'.
Proof.
  induction rest as [|message rest IH]; intros index w; simpl.
  - exists w. split; [reflexivity|apply quiet_refl].
  - unfold bind. destruct (console_error_run [LogString message; LogNumber index;
                                                 LogArray array] w) as (w1 & -> & Hq1).
    destruct (IH (S index) w1) as (w2 & -> & Hq2). exists w2. split; [reflexivity|].
    eapply quiet_trans; eassumption.
Qed.

Lemma onQueueUpdate_run (update : QueueUpdate.t) (w : World) :
  exists w', onQueueUpdate update w = (Ok tt, w') /\ quiet w w'.
Proof.
  unfold onQueueUpdate. destruct (String.eqb _ _); [apply forEach_console_error_run|].
  exists w. split; [reflexivity|apply quiet_refl].
Qed.

Lemma onQueueUpdates_run (updates : list QueueUpdate.t) : forall w,
  exists w', onQueueUpdates updates w = (Ok tt, w') /\ quiet w w'.
Proof.
  induction updates as [|u updates IH]; intros w; simpl.
  - exists w. split; [reflexivity|apply quiet_refl].
  - unfold bind. destruct (onQueueUpdate_run u w) as (w1 & -> & Hq1).
    destruct (IH w1) as (w2 & -> & Hq2). exists w2. split; [reflexivity|].
    eapply quiet_trans; eassumption.
Qed.

Lemma output_images_ok (output : option IdeogramImageResult.t) (w : World) oi :
  well_formed output = Some oi -> output_images output w = (Ok oi, w).
Proof.
  unfold well_formed, output_images.
  destruct output as [o|]; [|discriminate].
  destruct (IdeogramImageResult.images o); [|discriminate].
  intros [= <-]. reflexivity.
Qed.

Lemma output_images_throws (output : option IdeogramImageResult.t) (w : World) :
  well_formed output = None -> exists e, output_images output w = (Throw e, w).
Proof.
  unfold well_formed, output_images.
  destruct output as [o|]; [|eauto].
  destruct (IdeogramImageResult.images o); [discriminate|eauto].
Qed.

(** ** Relations kept by every run *)

Section Keeps.

Variable R : World -> World -> Prop.
Hypothesis R_refl : forall w, R w w.
Hypothesis R_trans : forall a b c, R a b -> R b c -> R a c.

Lemma keeps_ret {A} (a : A) : keeps R (ret a).
Proof. intros w. apply R_refl. Qed.

Lemma keeps_throw {A} (e : Thrown) : keeps R (@throw A e).
Proof. intros w. apply R_refl. Qed.

Lemma keeps_uncaught {A} (e : Thrown) : keeps R (@uncaught A e).
Proof. intros w. apply R_refl. Qed.

Lemma keeps_pending {A} : keeps R (@pending A).
Proof. intros w. apply R_refl. Qed.

Lemma keeps_await {A} (r : Reply A) : keeps R (await r).
Proof. destruct r; [apply keeps_ret | apply keeps_throw]. Qed.

Lemma keeps_bind {A B} (m : M A) (k : A -> M B) :
  keeps R m -> (forall a, keeps R (k a)) -> keeps R (bind m k).
Proof.
  intros Hm Hk w. unfold bind. specialize (Hm w).
  destruct (m w) as [[a|e|e|] w1]; cbn [snd] in *; try exact Hm.
  eapply R_trans; [exact Hm|]. apply Hk.
Qed.

Lemma keeps_try_catch {A} (m : M A) (h : Thrown -> M A) :
  keeps R m -> (forall e, keeps R (h e)) -> keeps R (try_catch m h).
Proof.
  intros Hm Hh w. unfold try_catch. specialize (Hm w).
  destruct (m w) as [[a|e|e|] w1]; cbn [snd] in *; try exact Hm.
  eapply R_trans; [exact Hm|]. apply Hh.
Qed.

Hypothesis keeps_log : forall args, keeps R (console_error args).
Hypothesis keeps_call : forall c, keeps R (record_call c).

Lemma keeps_forEach_console_error (array rest : list string) :
  forall index, keeps R (forEach_console_error rest index array).
Proof.
  induction rest as [|message rest IH]; intros index; [apply keeps_ret|].
  cbn [forEach_console_error]. apply keeps_bind; [apply keeps_log | intros _; apply IH].
Qed.

Lemma keeps_onQueueUpdates (updates : list QueueUpdate.t) : keeps R (onQueueUpdates updates).
Proof.
  induction updates as [|u updates IH]; [apply keeps_ret|].
  cbn [onQueueUpdates]. apply keeps_bind; [|intros _; exact IH].
  unfold onQueueUpdate.
  destruct (String.eqb _ _); [apply keeps_forEach_console_error | apply keeps_ret].
Qed.

Lemma keeps_output_images (output : option IdeogramImageResult.t) :
  keeps R (output_images output).
Proof.
  unfold output_images. destruct output as [o|]; [|apply keeps_throw].
  destruct (IdeogramImageResult.images o); [apply keeps_ret | apply keeps_throw].
Qed.

Variable env : Env.

Lemma keeps_generate_queue (falConfigured : bool) (args : QueueArgs.t) :
  keeps R (ideogram_v3_generate_queue env falConfigured args).
Proof.
  unfold ideogram_v3_generate_queue. destruct falConfigured; [|apply keeps_ret].
  cbn [negb]. apply keeps_try_catch.
  - destruct (style_conflict _ _); [apply keeps_ret|].
    apply keeps_bind; [apply keeps_log|]. intros _.
    apply keeps_bind; [|intros; apply keeps_ret].
    unfold fal_queue_submit. apply keeps_bind; [apply keeps_call|].
    intros _. apply keeps_await.
  - intros e. apply keeps_bind; [apply keeps_log | intros _; apply keeps_ret].
Qed.

Lemma keeps_queue_status (falConfigured : bool) (args : StatusArgs.t) :
  keeps R (ideogram_v3_queue_status env falConfigured args).
Proof.
  unfold ideogram_v3_queue_status. destruct falConfigured; [|apply keeps_ret].
  cbn [negb]. apply keeps_try_catch.
  - apply keeps_bind; [apply keeps_log|]. intros _.
    apply keeps_bind; [|intros; apply keeps_ret].
    unfold fal_queue_status. apply keeps_bind; [apply keeps_call|].
    intros _. apply keeps_await.
  - intros e. apply keeps_bind; [apply keeps_log | intros _; apply keeps_ret].
Qed.

Hypothesis keeps_now : keeps R (now env).
Hypothesis keeps_download : forall url filename, keeps R (downloadImage env url filename).

Lemma keeps_loop_body (label : string) (seed : option Js.number) (image : Image.t)
    (i : nat) (acc : list Downloaded.t) :
  keeps R (loop_body env label seed image i acc).
Proof.
  unfold loop_body, generateImageFilename.
  apply keeps_bind; [apply keeps_bind; [apply keeps_now | intros; apply keeps_ret]|].
  intros filename. apply keeps_try_catch.
  - apply keeps_bind; [apply keeps_download|]. intros p.
    apply keeps_bind; [apply keeps_log | intros _; apply keeps_ret].
  - intros e. apply keeps_bind; [apply keeps_log | intros _; apply keeps_ret].
Qed.

Lemma keeps_download_loop (label : string) (seed : option Js.number)
    (images : list Image.t) :
  forall (i : nat) (acc : list Downloaded.t),
  keeps R (download_loop env label seed images i acc).
Proof.
  induction images as [|image rest IH]; intros i acc; [apply keeps_ret|].
  cbn [download_loop]. apply keeps_bind; [apply keeps_loop_body|].
  intros pushed. apply IH.
Qed.



End Keeps.

(** ** What a computation can return *)

Section Returns.

Context {A : Type} (P : A -> Prop).

Lemma returns_ret (a : A) : P a -> returns P (ret a).
Proof. intros H w a' w' [= <- _]. exact H. Qed.

Lemma returns_bind {B} (m : M B) (k : B -> M A) :
  (forall b, returns P (k b)) -> returns P (bind m k).
Proof.
  intros Hk w a w'. unfold bind.
  destruct (m w) as [[b|e|e|] w1]; try discriminate. apply Hk.
Qed.

Lemma returns_try_catch (m : M A) (h : Thrown -> M A) :
  returns P m -> (forall e, returns P (h e)) -> returns P (try_catch m h).
Proof.
  intros Hm Hh w a w'. unfold try_catch.
  destruct (m w) as [[b|e|e|] w1] eqn:E; try discriminate.
  - intros [= <- _]. eapply Hm. exact E.
  - apply Hh.
Qed.

End Returns.

(** ** The download loop *)

Section Loop.

Variable env : Env.

Lemma batch_settles_spec (w : World) (n : nat) :
  batch_settles env w n = true
  <-> forall k, (k < n)%nat -> settles (download env (downloads w + k)%nat) = true.
Proof.
  unfold batch_settles. rewrite forallb_forall. split.
  - intros H k Hk. apply H. apply in_seq. lia.
  - intros H x Hx. apply in_seq in Hx.
    replace x with (downloads w + (x - downloads w))%nat by lia. apply H. lia.
Qed.

Lemma batch_settles_same_store (w w0 : World) (n : nat) :
  downloads w0 = downloads w -> batch_settles env w0 n = batch_settles env w n.
Proof. unfold batch_settles. intros ->. reflexivity. Qed.

Lemma downloadImage_spec (url filename : string) (w : World) :
  let d := download env (downloads w) in
  let out := downloadImage env url filename w in
  clock (snd out) = clock w
  /\ downloads (snd out) = S (downloads w)
  /\ calls (snd out) = calls w
  /\ (settles d = true ->
      if download_ok d then fst out = Ok (path_join (imagesDir env) filename)
      else exists e, fst out = Throw e)
  /\ (settles d = false -> no_answer (fst out)).
Proof.
  unfold downloadImage, bind, next_download, no_answer. simpl.
  destruct (download env (downloads w)) as [msg|msg|msg|[msg|msg| |st body [|n msg|n]]];
    simpl; try destruct (st =? 200)%nat; simpl;
    repeat split; try discriminate; eauto.
Qed.

Lemma loop_body_spec (label : string) (seed : option Js.number) (image : Image.t)
    (i : nat) (acc : list Downloaded.t) (w : World) :
  settles (download env (downloads w)) = true ->
  exists w',
    loop_body env label seed image i acc w
    = (Ok (acc ++ [pushed env label seed (clock w) (downloads w) i 0 image])%list, w')
    /\ clock w' = S (clock w)
    /\ downloads w' = S (downloads w)
    /\ calls w' = calls w.
Proof.
  intros Hset. unfold pushed. rewrite !Nat.add_0_r.
  unfold loop_body, generateImageFilename, bind, try_catch, now, ret,
    console_error, modify.
  match goal with |- context [downloadImage env ?u ?f ?w1] =>
    pose proof (downloadImage_spec u f w1) as Hd;
    destruct (downloadImage env u f w1) as [[p|e|e|] w2] end;
  cbv zeta in Hd; cbn [fst snd clock downloads calls] in Hd;
  destruct Hd as (Hc & Hn & Hk & Hr & _); specialize (Hr Hset);
  (destruct (download_ok (download env (downloads w))); [|destruct Hr as [e' Hr]]);
  try discriminate.
  - inversion Hr; subst p. eexists. split; [reflexivity|].
    cbn [clock downloads calls]. auto.
  - eexists. split; [reflexivity|]. cbn [clock downloads calls]. auto.
Qed.

(** A download that does not settle ends the turn, and with it the loop,
    without an answer. *)
Lemma loop_body_unsettled (label : string) (seed : option Js.number) (image : Image.t)
    (i : nat) (acc : list Downloaded.t) (w : World) :
  settles (download env (downloads w)) = false ->
  no_answer (fst (loop_body env label seed image i acc w)).
Proof.
  intros Hset.
  unfold loop_body, generateImageFilename, bind, try_catch, now, ret.
  match goal with |- context [downloadImage env ?u ?f ?w1] =>
    pose proof (downloadImage_spec u f w1) as Hd;
    destruct (downloadImage env u f w1) as [[p|e|e|] w2] end;
  cbv zeta in Hd; cbn [fst snd clock downloads calls] in Hd;
  destruct Hd as (_ & _ & _ & _ & Hr); specialize (Hr Hset);
  destruct Hr as [Hr|[e' Hr]]; try discriminate; cbn [fst].
  - right. eexists. reflexivity.
  - left. reflexivity.
Qed.

Lemma download_loop_spec (label : string) (seed : option Js.number)
    (images : list Image.t) :
  forall (i : nat) (acc : list Downloaded.t) (w : World),
  batch_settles env w (List.length images) = true ->
  exists w',
    download_loop env label seed images i acc w
    = (Ok (acc ++ imap (pushed env label seed (clock w) (downloads w) i) images)%list, w')
    /\ clock w' = (clock w + List.length images)%nat
    /\ downloads w' = (downloads w + List.length images)%nat
    /\ calls w' = calls w.
Proof.
  induction images as [|image rest IH]; intros i acc w Hset.
  - exists w. simpl. rewrite app_nil_r. repeat split; lia.
  - cbn [download_loop]. unfold bind.
    pose proof (proj1 (batch_settles_spec w _) Hset) as Hall.
    destruct (loop_body_spec label seed image i acc w) as (w1 & -> & Hc & Hn & Hk).
    { rewrite <- (Nat.add_0_r (downloads w)). apply Hall. cbn [List.length]. lia. }
    destruct (IH (S i) (acc ++ [pushed env label seed (clock w) (downloads w) i 0 image])%list w1)
      as (w' & -> & Hc' & Hn' & Hk').
    { apply batch_settles_spec. intros k Hk'. rewrite Hn.
      replace (S (downloads w) + k)%nat with (downloads w + S k)%nat by lia.
      apply Hall. cbn [List.length]. lia. }
    exists w'. cbn [List.length]. repeat split; try lia; try congruence.
    f_equal. rewrite <- app_assoc. cbn [imap app]. do 3 f_equal.
    rewrite Hc, Hn. apply imap_ext. intros k x _. unfold pushed, compose.
    replace (clock w + S k)%nat with (S (clock w) + k)%nat by lia.
    replace (downloads w + S k)%nat with (S (downloads w) + k)%nat by lia.
    replace (i + S k)%nat with (S i + k)%nat by lia. reflexivity.
Qed.

(** A download of the batch that does not settle leaves the loop without
    an answer. *)
Lemma download_loop_unsettled (label : string) (seed : option Js.number)
    (images : list Image.t) :
  forall (i : nat) (acc : list Downloaded.t) (w : World),
  batch_settles env w (List.length images) = false ->
  no_answer (fst (download_loop env label seed images i acc w)).
Proof.
  induction images as [|image rest IH]; intros i acc w Hset; [discriminate|].
  cbn [download_loop]. unfold bind.
  destruct (settles (download env (downloads w))) eqn:E.
  - destruct (loop_body_spec label seed image i acc w E) as (w1 & -> & _ & Hn & _).
    apply IH. unfold batch_settles in *. cbn [List.length seq forallb] in Hset.
    rewrite E in Hset. rewrite Hn. exact Hset.
  - pose proof (loop_body_unsettled label seed image i acc w E) as H.
    destruct (loop_body env label seed image i acc w) as [[a|e|e|] w1];
      destruct H as [H|[e' H]]; try discriminate; cbn [fst] in *.
    + right. eexists. reflexivity.
    + left. reflexivity.
Qed.

End Loop.

(** ** Runs of the handlers *)

Section Runs.

Variable env : Env.

Lemma generate_not_configured (args : Input.t) (w : World) :
  ideogram_v3_generate env false args w = (Ok notConfigured, w).
Proof. reflexivity. Qed.

Lemma generate_conflict (args : Input.t) (w : World) :
  style_conflict (Input.style args) (Input.style_codes args) = true ->
  ideogram_v3_generate env true args w = (Ok conflictingParameters, w).
Proof.
  intros H. unfold ideogram_v3_generate, try_catch. cbn [negb]. rewrite H. reflexivity.
Qed.

Ltac start_generate H :=
  unfold ideogram_v3_generate, try_catch; cbn [negb]; rewrite H;
  unfold fal_subscribe, bind, record_call, modify;
  match goal with |- context [console_error ?l ?w0] =>
    destruct (console_error_run l w0) as (w1 & -> & Hq1) end;
  match goal with |- context [onQueueUpdates ?u ?w0] =>
    destruct (onQueueUpdates_run u w0) as (w2 & -> & Hq2) end.

Lemma generate_rejected (args : Input.t) (w : World) (e : Thrown) :
  style_conflict (Input.style args) (Input.style_codes args) = false ->
  snd (subscribe env (generate_input args)) = Rejects e ->
  exists w',
    ideogram_v3_generate env true args w
    = (Ok (error_result (errorMessage generate_failure e)), w')
    /\ calls w' = (calls w ++ [CallSubscribe (generate_input args)])%list
    /\ downloads w' = downloads w.
Proof.
  intros Hs Hr. start_generate Hs. rewrite Hr. cbn [await throw].
  match goal with |- context [console_error ?l ?w0] =>
    destruct (console_error_run l w0) as (w3 & -> & Hq3) end.
  exists w3. split; [reflexivity|].
  destruct Hq1 as (C1 & _ & _ & _ & _ & D1), Hq2 as (C2 & _ & _ & _ & _ & D2),
    Hq3 as (C3 & _ & _ & _ & _ & D3).
  cbn [calls downloads] in *. split; congruence.
Qed.

Lemma generate_malformed (args : Input.t) (w : World) (result : SubscribeResult.t) :
  style_conflict (Input.style args) (Input.style_codes args) = false ->
  snd (subscribe env (generate_input args)) = Resolves result ->
  well_formed (SubscribeResult.data result) = None ->
  exists e w',
    ideogram_v3_generate env true args w
    = (Ok (error_result (errorMessage generate_failure e)), w')
    /\ calls w' = (calls w ++ [CallSubscribe (generate_input args)])%list
    /\ downloads w' = downloads w.
Proof.
  intros Hs Hr Hw. start_generate Hs. rewrite Hr. cbn [await ret].
  match goal with |- context [console_error ?l ?w0] =>
    destruct (console_error_run l w0) as (w3 & -> & Hq3) end.
  destruct (output_images_throws _ w3 Hw) as (e & ->).
  match goal with |- context [console_error ?l ?w0] =>
    destruct (console_error_run l w0) as (w4 & -> & Hq4) end.
  exists e, w4. split; [reflexivity|].
  destruct Hq1 as (C1 & _ & _ & _ & _ & D1), Hq2 as (C2 & _ & _ & _ & _ & D2),
    Hq3 as (C3 & _ & _ & _ & _ & D3), Hq4 as (C4 & _ & _ & _ & _ & D4).
  cbn [calls downloads] in *. split; congruence.
Qed.

(** The backend resolves with a list of images: the handler runs the loop
    from a world [w0] that has the store of [w], and what it does then
    depends on whether every download of the batch settles. *)
Lemma generate_reaches_loop (args : Input.t) (w : World) (result : SubscribeResult.t)
    (o : IdeogramImageResult.t) (images : list Image.t) :
  style_conflict (Input.style args) (Input.style_codes args) = false ->
  snd (subscribe env (generate_input args)) = Resolves result ->
  well_formed (SubscribeResult.data result) = Some (o, images) ->
  exists w0,
    same_store w w0
    /\ calls w0 = (calls w ++ [CallSubscribe (generate_input args)])%list
    /\ ideogram_v3_generate env true args w
       = match download_loop env (Input.prompt args) (IdeogramImageResult.seed o)
                 images 0 [] w0 with
         | (Ok downloadedImages, w') =>
             (Ok (text_result
                    (generate_responseText args (IdeogramImageResult.seed o)
                       (SubscribeResult.requestId result) downloadedImages)), w')
         | (Throw e, w') =>
             (console_error [LogString "Error generating image:"; LogThrown e] ;;;
              ret (error_result (errorMessage generate_failure e))) w'
         | (Uncaught e, w') => (Uncaught e, w')
         | (Pending, w') => (Pending, w')
         end.
Proof.
  intros Hs Hr Hw. start_generate Hs. rewrite Hr. cbn [await ret].
  match goal with |- context [console_error ?l ?w0] =>
    destruct (console_error_run l w0) as (w3 & -> & Hq3) end.
  rewrite (output_images_ok _ w3 _ Hw). cbn [fst snd].
  exists w3. split; [|split].
  - destruct Hq1 as (_ & R1 & F1 & D1 & K1 & N1), Hq2 as (_ & R2 & F2 & D2 & K2 & N2),
      Hq3 as (_ & R3 & F3 & D3 & K3 & N3).
    unfold same_store. cbn [requests files dirs clock downloads] in *.
    repeat split; congruence.
  - destruct Hq1 as (C1 & _), Hq2 as (C2 & _), Hq3 as (C3 & _).
    cbn [calls] in *. congruence.
  - destruct (download_loop _ _ _ _ _ _ w3) as [[d|e|e|] w4]; reflexivity.
Qed.

Lemma generate_resolved (args : Input.t) (w : World) (result : SubscribeResult.t)
    (o : IdeogramImageResult.t) (images : list Image.t) :
  style_conflict (Input.style args) (Input.style_codes args) = false ->
  snd (subscribe env (generate_input args)) = Resolves result ->
  well_formed (SubscribeResult.data result) = Some (o, images) ->
  batch_settles env w (List.length images) = true ->
  exists w0 w',
    same_store w w0
    /\ download_loop env (Input.prompt args) (IdeogramImageResult.seed o) images 0 [] w0
       = (Ok (imap (pushed env (Input.prompt args) (IdeogramImageResult.seed o)
                      (clock w) (downloads w) 0) images), w')
    /\ ideogram_v3_generate env true args w
       = (Ok (text_result
                (generate_responseText args (IdeogramImageResult.seed o)
                   (SubscribeResult.requestId result)
                   (imap (pushed env (Input.prompt args) (IdeogramImageResult.seed o)
                            (clock w) (downloads w) 0) images))), w')
    /\ calls w' = (calls w ++ [CallSubscribe (generate_input args)])%list
    /\ downloads w' = (downloads w + List.length images)%nat.
Proof.
  intros Hs Hr Hw Hset.
  destruct (generate_reaches_loop args w result o images Hs Hr Hw)
    as (w0 & Hst & Hc0 & ->).
  pose proof Hst as (_ & _ & _ & Hk & Hn).
  destruct (download_loop_spec env (Input.prompt args) (IdeogramImageResult.seed o)
              images 0 [] w0) as (w' & E & Hc & Hn' & Hk').
  { rewrite (batch_settles_same_store env w w0) by exact Hn. exact Hset. }
  rewrite E. rewrite Hk, Hn in E. cbn [app] in E.
  exists w0, w'. rewrite Hk, Hn. cbn [app].
  split; [exact Hst|]. split; [exact E|]. split; [reflexivity|].
  split; congruence.
Qed.

Lemma generate_aborted (args : Input.t) (w : World) (result : SubscribeResult.t)
    (o : IdeogramImageResult.t) (images : list Image.t) :
  style_conflict (Input.style args) (Input.style_codes args) = false ->
  snd (subscribe env (generate_input args)) = Resolves result ->
  well_formed (SubscribeResult.data result) = Some (o, images) ->
  batch_settles env w (List.length images) = false ->
  no_answer (fst (ideogram_v3_generate env true args w)).
Proof.
  intros Hs Hr Hw Hset.
  destruct (generate_reaches_loop args w result o images Hs Hr Hw)
    as (w0 & Hst & Hc0 & ->).
  pose proof Hst as (_ & _ & _ & Hk & Hn).
  pose proof (download_loop_unsettled env (Input.prompt args) (IdeogramImageResult.seed o)
                images 0 [] w0) as H.
  rewrite (batch_settles_same_store env w w0) in H by exact Hn. specialize (H Hset).
  destruct (download_loop _ _ _ _ _ _ w0) as [[d|e|e|] w4];
    destruct H as [H|[e' H]]; try discriminate; cbn [fst] in *.
  - right. eexists. reflexivity.
  - left. reflexivity.
Qed.

Lemma queue_not_configured (args : QueueArgs.t) (w : World) :
  ideogram_v3_generate_queue env false args w = (Ok notConfigured, w).
Proof. reflexivity. Qed.

Lemma queue_conflict (args : QueueArgs.t) (w : World) :
  style_conflict (Input.style (QueueArgs.input args))
    (Input.style_codes (QueueArgs.input args)) = true ->
  ideogram_v3_generate_queue env true args w = (Ok conflictingParameters, w).
Proof.
  intros H. unfold ideogram_v3_generate_queue, try_catch. cbn [negb]. rewrite H.
  reflexivity.
Qed.

Lemma queue_submitted (args : QueueArgs.t) (w : World) :
  style_conflict (Input.style (QueueArgs.input args))
    (Input.style_codes (QueueArgs.input args)) = false ->
  exists w',
    ideogram_v3_generate_queue env true args w
    = (Ok (match queue_submit env (QueueArgs.input args) (QueueArgs.webhook_url args) with
           | Resolves request_id =>
               text_result (queue_responseText request_id
                              (Input.prompt (QueueArgs.input args))
                              (QueueArgs.webhook_url args))
           | Rejects e => error_result (errorMessage submit_failure e)
           end), w')
    /\ calls w' = (calls w ++ [CallQueueSubmit (QueueArgs.input args)
                                 (QueueArgs.webhook_url args)])%list
    /\ downloads w' = downloads w.
Proof.
  intros Hs. unfold ideogram_v3_generate_queue, try_catch. cbn [negb]. rewrite Hs.
  unfold fal_queue_submit, bind, record_call, modify.
  match goal with |- context [console_error ?l ?w0] =>
    destruct (console_error_run l w0) as (w1 & -> & Hq1) end.
  destruct Hq1 as (C1 & _ & _ & _ & _ & D1).
  destruct (queue_submit env _ _) as [request_id|e]; cbn [await ret throw].
  - eexists. split; [reflexivity|]. cbn [calls downloads]. split; congruence.
  - match goal with |- context [console_error ?l ?w0] =>
      destruct (console_error_run l w0) as (w2 & -> & Hq2) end.
    destruct Hq2 as (C2 & _ & _ & _ & _ & D2). cbn [calls downloads] in *.
    eexists. split; [reflexivity|]. split; congruence.
Qed.

Lemma status_not_configured (args : StatusArgs.t) (w : World) :
  ideogram_v3_queue_status env false args w = (Ok notConfigured, w).
Proof. reflexivity. Qed.

Lemma status_run (args : StatusArgs.t) (w : World) :
  exists w',
    ideogram_v3_queue_status env true args w
    = (Ok (match queue_status env (StatusArgs.request_id args)
                   (default true (StatusArgs.logs args)) with
           | Resolves status =>
               text_result (status_responseText (StatusArgs.request_id args) status)
           | Rejects e => error_result (errorMessage status_failure e)
           end), w')
    /\ calls w' = (calls w ++ [CallQueueStatus (StatusArgs.request_id args)
                                 (default true (StatusArgs.logs args))])%list
    /\ downloads w' = downloads w.
Proof.
  unfold ideogram_v3_queue_status, try_catch. cbn [negb].
  unfold fal_queue_status, bind, record_call, modify.
  match goal with |- context [console_error ?l ?w0] =>
    destruct (console_error_run l w0) as (w1 & -> & Hq1) end.
  destruct Hq1 as (C1 & _ & _ & _ & _ & D1).
  destruct (queue_status env _ _) as [status|e]; cbn [await ret throw].
  - eexists. split; [reflexivity|]. cbn [calls downloads]. split; congruence.
  - match goal with |- context [console_error ?l ?w0] =>
      destruct (console_error_run l w0) as (w2 & -> & Hq2) end.
    destruct Hq2 as (C2 & _ & _ & _ & _ & D2). cbn [calls downloads] in *.
    eexists. split; [reflexivity|]. split; congruence.
Qed.

Lemma result_not_configured (args : ResultArgs.t) (w : World) :
  ideogram_v3_queue_result env false args w = (Ok notConfigured, w).
Proof. reflexivity. Qed.

Ltac start_result :=
  unfold ideogram_v3_queue_result, try_catch; cbn [negb];
  unfold fal_queue_result, bind, record_call, modify;
  match goal with |- context [console_error ?l ?w0] =>
    destruct (console_error_run l w0) as (w1 & -> & Hq1) end.

Lemma result_rejected (args : ResultArgs.t) (w : World) (e : Thrown) :
  queue_result env (ResultArgs.request_id args) = Rejects e ->
  exists w',
    ideogram_v3_queue_result env true args w
    = (Ok (error_result (errorMessage result_failure e)), w')
    /\ calls w' = (calls w ++ [CallQueueResult (ResultArgs.request_id args)])%list
    /\ downloads w' = downloads w.
Proof.
  intros Hr. start_result. rewrite Hr. cbn [await throw].
  match goal with |- context [console_error ?l ?w0] =>
    destruct (console_error_run l w0) as (w3 & -> & Hq3) end.
  exists w3. split; [reflexivity|].
  destruct Hq1 as (C1 & _ & _ & _ & _ & D1), Hq3 as (C3 & _ & _ & _ & _ & D3).
  cbn [calls downloads] in *. split; congruence.
Qed.

Lemma result_malformed (args : ResultArgs.t) (w : World)
    (output : option IdeogramImageResult.t) :
  queue_result env (ResultArgs.request_id args) = Resolves output ->
  well_formed output = None ->
  exists e w',
    ideogram_v3_queue_result env true args w
    = (Ok (error_result (errorMessage result_failure e)), w')
    /\ calls w' = (calls w ++ [CallQueueResult (ResultArgs.request_id args)])%list
    /\ downloads w' = downloads w.
Proof.
  intros Hr Hw. start_result. rewrite Hr. cbn [await ret].
  match goal with |- context [console_error ?l ?w0] =>
    destruct (console_error_run l w0) as (w3 & -> & Hq3) end.
  destruct (output_images_throws _ w3 Hw) as (e & ->).
  match goal with |- context [console_error ?l ?w0] =>
    destruct (console_error_run l w0) as (w4 & -> & Hq4) end.
  exists e, w4. split; [reflexivity|].
  destruct Hq1 as (C1 & _ & _ & _ & _ & D1),
    Hq3 as (C3 & _ & _ & _ & _ & D3), Hq4 as (C4 & _ & _ & _ & _ & D4).
  cbn [calls downloads] in *. split; congruence.
Qed.

Lemma result_reaches_loop (args : ResultArgs.t) (w : World)
    (output : option IdeogramImageResult.t)
    (o : IdeogramImageResult.t) (images : list Image.t) :
  queue_result env (ResultArgs.request_id args) = Resolves output ->
  well_formed output = Some (o, images) ->
  exists w0,
    same_store w w0
    /\ calls w0 = (calls w ++ [CallQueueResult (ResultArgs.request_id args)])%list
    /\ ideogram_v3_queue_result env true args w
       = match download_loop env ("queue_result_" +:+ ResultArgs.request_id args)
                 (IdeogramImageResult.seed o) images 0 [] w0 with
         | (Ok downloadedImages, w') =>
             (Ok (text_result
                    (result_responseText (ResultArgs.request_id args)
                       (IdeogramImageResult.seed o) downloadedImages)), w')
         | (Throw e, w') =>
             (console_error [LogString "Error getting queue result:"; LogThrown e] ;;;
              ret (error_result (errorMessage result_failure e))) w'
         | (Uncaught e, w') => (Uncaught e, w')
         | (Pending, w') => (Pending, w')
         end.
Proof.
  intros Hr Hw. start_result. rewrite Hr. cbn [await ret].
  match goal with |- context [console_error ?l ?w0] =>
    destruct (console_error_run l w0) as (w3 & -> & Hq3) end.
  rewrite (output_images_ok _ w3 _ Hw). cbn [fst snd].
  exists w3. split; [|split].
  - destruct Hq1 as (_ & R1 & F1 & D1 & K1 & N1), Hq3 as (_ & R3 & F3 & D3 & K3 & N3).
    unfold same_store. cbn [requests files dirs clock downloads] in *.
    repeat split; congruence.
  - destruct Hq1 as (C1 & _), Hq3 as (C3 & _). cbn [calls] in *. congruence.
  - destruct (download_loop _ _ _ _ _ _ w3) as [[d|e|e|] w4]; reflexivity.
Qed.

Lemma result_resolved (args : ResultArgs.t) (w : World)
    (output : option IdeogramImageResult.t)
    (o : IdeogramImageResult.t) (images : list Image.t) :
  queue_result env (ResultArgs.request_id args) = Resolves output ->
  well_formed output = Some (o, images) ->
  batch_settles env w (List.length images) = true ->
  exists w0 w',
    same_store w w0
    /\ download_loop env ("queue_result_" +:+ ResultArgs.request_id args)
         (IdeogramImageResult.seed o) images 0 [] w0
       = (Ok (imap (pushed env ("queue_result_" +:+ ResultArgs.request_id args)
                      (IdeogramImageResult.seed o) (clock w) (downloads w) 0) images), w')
    /\ ideogram_v3_queue_result env true args w
       = (Ok (text_result
                (result_responseText (ResultArgs.request_id args)
                   (IdeogramImageResult.seed o)
                   (imap (pushed env ("queue_result_" +:+ ResultArgs.request_id args)
                            (IdeogramImageResult.seed o) (clock w) (downloads w) 0)
                      images))), w')
    /\ calls w' = (calls w ++ [CallQueueResult (ResultArgs.request_id args)])%list
    /\ downloads w' = (downloads w + List.length images)%nat.
Proof.
  intros Hr Hw Hset.
  destruct (result_reaches_loop args w output o images Hr Hw) as (w0 & Hst & Hc0 & ->).
  pose proof Hst as (_ & _ & _ & Hk & Hn).
  destruct (download_loop_spec env ("queue_result_" +:+ ResultArgs.request_id args)
              (IdeogramImageResult.seed o) images 0 [] w0) as (w' & E & Hc & Hn' & Hk').
  { rewrite (batch_settles_same_store env w w0) by exact Hn. exact Hset. }
  rewrite E. rewrite Hk, Hn in E. cbn [app] in E.
  exists w0, w'. rewrite Hk, Hn. cbn [app].
  split; [exact Hst|]. split; [exact E|]. split; [reflexivity|].
  split; congruence.
Qed.

Lemma result_aborted (args : ResultArgs.t) (w : World)
    (output : option IdeogramImageResult.t)
    (o : IdeogramImageResult.t) (images : list Image.t) :
  queue_result env (ResultArgs.request_id args) = Resolves output ->
  well_formed output = Some (o, images) ->
  batch_settles env w (List.length images) = false ->
  no_answer (fst (ideogram_v3_queue_result env true args w)).
Proof.
  intros Hr Hw Hset.
  destruct (result_reaches_loop args w output o images Hr Hw) as (w0 & Hst & Hc0 & ->).
  pose proof Hst as (_ & _ & _ & Hk & Hn).
  pose proof (download_loop_unsettled env ("queue_result_" +:+ ResultArgs.request_id args)
                (IdeogramImageResult.seed o) images 0 [] w0) as H.
  rewrite (batch_settles_same_store env w w0) in H by exact Hn. specialize (H Hset).
  destruct (download_loop _ _ _ _ _ _ w0) as [[d|e|e|] w4];
    destruct H as [H|[e' H]]; try discriminate; cbn [fst] in *.
  - right. eexists. reflexivity.
  - left. reflexivity.
Qed.

End Runs.

(** ** Calls and answers on every path *)

Lemma same_calls_refl (w : World) : same_calls w w.
Proof. reflexivity. Qed.

Lemma same_calls_trans (a b c : World) : same_calls a b -> same_calls b c -> same_calls a c.
Proof. unfold same_calls. congruence. Qed.

Lemma console_error_same_calls (args : list LogArg) : keeps same_calls (console_error args).
Proof. intros w. reflexivity. Qed.

Lemma now_same_calls (env : Env) : keeps same_calls (now env).
Proof. intros w. reflexivity. Qed.

Lemma downloadImage_same_calls (env : Env) (url filename : string) :
  keeps same_calls (downloadImage env url filename).
Proof. intros w. apply (downloadImage_spec env url filename w). Qed.

Lemma try_catch_calls {A} (m : M A) (h : Thrown -> M A) (w : World) :
  (forall e, keeps same_calls (h e)) ->
  calls (snd (try_catch m h w)) = calls (snd (m w)).
Proof.
  intros Hh. unfold try_catch. destruct (m w) as [[a|e|e|] w1]; cbn [snd]; try reflexivity.
  apply Hh.
Qed.

Lemma bind_log_calls {A} (args : list LogArg) (k : unit -> M A) (w : World) :
  exists w1, calls w1 = calls w /\ bind (console_error args) k w = k tt w1.
Proof. eexists. split; [|reflexivity]. reflexivity. Qed.

(** A computation that opens with one call to the backend and makes no
    other. *)
Lemma bind_call_calls {A B} (c : Call) (m : M A) (k : A -> M B) (w : World) :
  keeps same_calls m -> (forall a, keeps same_calls (k a)) ->
  calls (snd (bind (bind (record_call c) (fun _ => m)) k w)) = (calls w ++ [c])%list.
Proof.
  intros Hm Hk.
  pose proof (keeps_bind same_calls same_calls_trans m k Hm Hk) as H.
  unfold keeps, same_calls in H.
  match goal with |- calls (snd ?run) = _ =>
    change run with
      (bind m k {| stderr := stderr w; calls := (calls w ++ [c])%list;
                   requests := requests w; files := files w; dirs := dirs w;
                   clock := clock w; downloads := downloads w |}) end.
  rewrite H. reflexivity.
Qed.

Ltac keeps_calls :=
  repeat first
    [ apply (keeps_bind same_calls same_calls_trans); [|intros ?]
    | apply (keeps_ret same_calls same_calls_refl)
    | apply (keeps_await same_calls same_calls_refl)
    | apply console_error_same_calls
    | apply (keeps_onQueueUpdates same_calls same_calls_refl same_calls_trans
               console_error_same_calls)
    | apply (keeps_output_images same_calls same_calls_refl)
    | apply (keeps_download_loop same_calls same_calls_refl same_calls_trans
               console_error_same_calls) ;
      [apply now_same_calls | apply downloadImage_same_calls] ].

Lemma generate_calls (env : Env) (args : Input.t) (w : World) :
  style_conflict (Input.style args) (Input.style_codes args) = false ->
  calls (snd (ideogram_v3_generate env true args w))
  = (calls w ++ [CallSubscribe (generate_input args)])%list.
Proof.
  intros Hs. unfold ideogram_v3_generate. cbn [negb]. rewrite Hs.
  rewrite try_catch_calls by (intros e; keeps_calls).
  match goal with |- context [bind (console_error ?l) ?k w] =>
    destruct (bind_log_calls l k w) as (w1 & <- & ->) end.
  unfold fal_subscribe. apply bind_call_calls; [|intros result]; keeps_calls.
Qed.

Lemma result_calls (env : Env) (args : ResultArgs.t) (w : World) :
  calls (snd (ideogram_v3_queue_result env true args w))
  = (calls w ++ [CallQueueResult (ResultArgs.request_id args)])%list.
Proof.
  unfold ideogram_v3_queue_result. cbn [negb].
  rewrite try_catch_calls by (intros e; keeps_calls).
  match goal with |- context [bind (console_error ?l) ?k w] =>
    destruct (bind_log_calls l k w) as (w1 & <- & ->) end.
  unfold fal_queue_result. apply bind_call_calls; [|intros result]; keeps_calls.
Qed.

(** What the handlers can return, once configured: the answer for
    conflicting parameters (when they conflict), a text result, or the
    failure sentence of the tool with the message of what was thrown. *)
Lemma generate_returns (env : Env) (args : Input.t) (P : ToolResult.t -> Prop) :
  (style_conflict (Input.style args) (Input.style_codes args) = true ->
   P conflictingParameters) ->
  (forall text, P (text_result text)) ->
  (forall e, P (error_result (errorMessage generate_failure e))) ->
  returns P (ideogram_v3_generate env true args).
Proof.
  intros Hc Ht He. unfold ideogram_v3_generate. cbn [negb]. apply returns_try_catch.
  - destruct (style_conflict _ _); [apply returns_ret; auto|].
    repeat (apply returns_bind; intros ?). apply returns_ret. apply Ht.
  - intros e. apply returns_bind. intros _. apply returns_ret. apply He.
Qed.

Lemma generate_queue_returns (env : Env) (args : QueueArgs.t) (P : ToolResult.t -> Prop) :
  (style_conflict (Input.style (QueueArgs.input args))
     (Input.style_codes (QueueArgs.input args)) = true ->
   P conflictingParameters) ->
  (forall text, P (text_result text)) ->
  (forall e, P (error_result (errorMessage submit_failure e))) ->
  returns P (ideogram_v3_generate_queue env true args).
Proof.
  intros Hc Ht He. unfold ideogram_v3_generate_queue. cbn [negb]. apply returns_try_catch.
  - destruct (style_conflict _ _); [apply returns_ret; auto|].
    repeat (apply returns_bind; intros ?). apply returns_ret. apply Ht.
  - intros e. apply returns_bind. intros _. apply returns_ret. apply He.
Qed.

Lemma queue_status_returns (env : Env) (args : StatusArgs.t) (P : ToolResult.t -> Prop) :
  (forall text, P (text_result text)) ->
  (forall e, P (error_result (errorMessage status_failure e))) ->
  returns P (ideogram_v3_queue_status env true args).
Proof.
  intros Ht He. unfold ideogram_v3_queue_status. cbn [negb]. apply returns_try_catch.
  - repeat (apply returns_bind; intros ?). apply returns_ret. apply Ht.
  - intros e. apply returns_bind. intros _. apply returns_ret. apply He.
Qed.

Lemma queue_result_returns (env : Env) (args : ResultArgs.t) (P : ToolResult.t -> Prop) :
  (forall text, P (text_result text)) ->
  (forall e, P (error_result (errorMessage result_failure e))) ->
  returns P (ideogram_v3_queue_result env true args).
Proof.
  intros Ht He. unfold ideogram_v3_queue_result. cbn [negb]. apply returns_try_catch.
  - repeat (apply returns_bind; intros ?). apply returns_ret. apply Ht.
  - intros e. apply returns_bind. intros _. apply returns_ret. apply He.
Qed.

(** ** What the loop leaves in [downloadedImages] *)

Lemma count_complement {A} (p : A -> bool) (l : list A) :
  (count p l + count (fun x => negb (p x)) l = List.length l)%nat.
Proof.
  unfold count. induction l as [|x l IH]; simpl; [reflexivity|].
  destruct (p x); simpl; lia.
Qed.

Lemma map_imap_ext {A B C} (g : B -> C) (h : A -> C) (l : list A) :
  forall f : nat -> A -> B,
  (forall k x, g (f k x) = h x) -> List.map g (imap f l) = List.map h l.
Proof.
  induction l as [|x l IH]; intros f H; simpl; [reflexivity|].
  rewrite H. f_equal. apply IH. intros k y. apply H.
Qed.

Lemma map_imap_seq {A B} (g : B -> nat) (l : list A) :
  forall (f : nat -> A -> B) (start : nat),
  (forall k x, g (f k x) = (start + k)%nat) ->
  List.map g (imap f l) = seq start (List.length l).
Proof.
  induction l as [|x l IH]; intros f start H; simpl; [reflexivity|].
  rewrite H, Nat.add_0_r. f_equal. apply IH. intros k y. unfold compose.
  rewrite H. lia.
Qed.

Lemma count_imap_seq {A B} (p : B -> bool) (q : nat -> bool) (l : list A) :
  forall (f : nat -> A -> B) (start : nat),
  (forall k x, p (f k x) = q (start + k)%nat) ->
  count p (imap f l) = count q (seq start (List.length l)).
Proof.
  unfold count.
  induction l as [|x l IH]; intros f start H; simpl; [reflexivity|].
  rewrite H, Nat.add_0_r.
  assert (Hrest : List.length (List.filter p (imap (f ∘ S) l))
                  = List.length (List.filter q (seq (S start) (List.length l)))).
  { apply IH. intros k y. unfold compose. rewrite H. f_equal. lia. }
  destruct (q start); simpl; rewrite Hrest; reflexivity.
Qed.

Lemma pushed_has_local_path (env : Env) label seed c d i k image :
  has_local_path (pushed env label seed c d i k image)
  = download_ok (download env (d + k)%nat).
Proof.
  unfold pushed, has_local_path, entry. cbn [Downloaded.localPath].
  destruct (download_ok _); reflexivity.
Qed.

Lemma imap_pushed_materialized (env : Env) (label : string) (seed : option Js.number)
    (w : World) (images : list Image.t) :
  materialized env w images
    (imap (pushed env label seed (clock w) (downloads w) 0) images).
Proof.
  assert (Hok : count has_local_path
                  (imap (pushed env label seed (clock w) (downloads w) 0) images)
                = count (fun k => download_ok (download env k))
                    (seq (downloads w) (List.length images))).
  { apply count_imap_seq. intros k x. apply pushed_has_local_path. }
  assert (Hko : count (fun a => negb (has_local_path a))
                  (imap (pushed env label seed (clock w) (downloads w) 0) images)
                = failures env w (List.length images)).
  { apply count_imap_seq. intros k x. rewrite pushed_has_local_path. reflexivity. }
  pose proof (count_complement (fun k => download_ok (download env k))
                (seq (downloads w) (List.length images))) as Hsum.
  rewrite length_seq in Hsum.
  split; [apply length_imap|].
  split; [apply map_imap_ext; reflexivity|].
  split; [apply map_imap_seq; intros k x; unfold pushed, entry;
          cbn [Downloaded.index]; lia|].
  split; [|split].
  - intros k a Hk. rewrite list_lookup_imap in Hk.
    destruct (images !! k) as [x|]; [|discriminate].
    injection Hk as <-. unfold pushed, entry.
    cbn [Downloaded.localPath Downloaded.filename].
    destruct (download_ok _); reflexivity.
  - rewrite Hok. unfold failures. lia.
  - exact Hko.
Qed.

(** ** Configuration and validation *)

(** C2: when FAL_KEY is absent at start-up, each of the four tools, on every
    input and in every world, returns the NotConfigured answer with
    [isError] set and leaves the world as it was (nothing logged, validated,
    called or downloaded); start-up itself does not exit the process. *)
Theorem C2_not_configured (env : Env) (g : Input.t) (q : QueueArgs.t)
    (s : StatusArgs.t) (r : ResultArgs.t) (w : World) :
  let falConfigured := Process.falConfigured (startup None) in
  falConfigured = false
  /\ Process.exitCode (startup None) = None
  /\ ToolResult.isError notConfigured = Some true
  /\ ideogram_v3_generate env falConfigured g w = (Ok notConfigured, w)
  /\ ideogram_v3_generate_queue env falConfigured q w = (Ok notConfigured, w)
  /\ ideogram_v3_queue_status env falConfigured s w = (Ok notConfigured, w)
  /\ ideogram_v3_queue_result env falConfigured r w = (Ok notConfigured, w).
Proof. cbv zeta. cbn [startup Js.truthy_opt negb Process.falConfigured]. repeat split. Qed.

Lemma style_conflict_both (args : Input.t) :
  style_conflict (Input.style args) (Input.style_codes args) = true <-> both_styles args.
Proof.
  unfold style_conflict, both_styles, truthy_style, nonempty_array.
  destruct (Input.style args) as [[]|], (Input.style_codes args) as [[|c l]|];
    cbn; split; try discriminate; try reflexivity.
  all: try (intros [[? [=]] _]; fail).
  all: try (intros [_ (? & [=] & ?)]; subst; congruence).
  all: try (intros _; split; [eexists; reflexivity | eexists; split; [reflexivity|discriminate]]).
Qed.

Lemma failure_not_conflict (e : Thrown) :
  error_result (errorMessage generate_failure e) <> conflictingParameters
  /\ error_result (errorMessage submit_failure e) <> conflictingParameters.
Proof. destruct e; split; cbn; discriminate. Qed.

(** Where the two generation tools go after the configuration check. *)
Lemma dispatch (env : Env) (args : Input.t) (webhook_url : option string) (w : World) :
  let qargs := {| QueueArgs.webhook_url := webhook_url; QueueArgs.input := args |} in
  let g := ideogram_v3_generate env true args w in
  let q := ideogram_v3_generate_queue env true qargs w in
  (style_conflict (Input.style args) (Input.style_codes args) = true ->
   g = (Ok conflictingParameters, w) /\ q = (Ok conflictingParameters, w))
  /\ (style_conflict (Input.style args) (Input.style_codes args) = false ->
      fst g <> Ok conflictingParameters
      /\ fst q <> Ok conflictingParameters
      /\ calls (snd g) = (calls w ++ [CallSubscribe (generate_input args)])%list
      /\ calls (snd q) = (calls w ++ [CallQueueSubmit args webhook_url])%list).
Proof.
  cbv zeta. split; intros Hs.
  - split; [apply generate_conflict | apply queue_conflict]; exact Hs.
  - destruct (queue_submitted env {| QueueArgs.webhook_url := webhook_url;
                                     QueueArgs.input := args |} w Hs)
      as (wq & -> & Hcq & _).
    cbn [fst snd QueueArgs.input QueueArgs.webhook_url] in *.
    assert (Hq : Ok (match queue_submit env args webhook_url with
                     | Resolves request_id =>
                         text_result (queue_responseText request_id
                                        (Input.prompt args) webhook_url)
                     | Rejects e => error_result (errorMessage submit_failure e)
                     end) <> Ok conflictingParameters).
    { destruct (queue_submit env args webhook_url) as [id|e].
      - discriminate.
      - intros [= H]. revert H. destruct e; cbn; discriminate. }
    assert (Hg : fst (ideogram_v3_generate env true args w) <> Ok conflictingParameters).
    { destruct (ideogram_v3_generate env true args w) as [[r|e|e|] wg] eqn:E;
        cbn [fst]; try discriminate.
      intros [= ->]. revert E.
      assert (Hret : returns (fun r => r <> conflictingParameters)
                       (ideogram_v3_generate env true args)).
      { apply generate_returns.
        - rewrite Hs. discriminate.
        - discriminate.
        - intros e. apply failure_not_conflict. }
      intros E. apply (Hret w _ wg E). reflexivity. }
    repeat split; try assumption. apply generate_calls. exact Hs.
Qed.

(** C1: with the credential configured, generate and generate_queue answer
    ConflictingParameters exactly when [style] is set and [style_codes] is a
    non-empty list; then the world is untouched (no backend call); in every
    other case validation passes and the backend is called once, with the
    payload of the tool. *)
Theorem C1_conflicting_parameters (env : Env) (args : Input.t)
    (webhook_url : option string) (w : World) :
  let qargs := {| QueueArgs.webhook_url := webhook_url; QueueArgs.input := args |} in
  let g := ideogram_v3_generate env true args w in
  let q := ideogram_v3_generate_queue env true qargs w in
  (fst g = Ok conflictingParameters <-> both_styles args)
  /\ (fst q = Ok conflictingParameters <-> both_styles args)
  /\ (both_styles args -> snd g = w /\ snd q = w)
  /\ (~ both_styles args ->
      calls (snd g) = (calls w ++ [CallSubscribe (generate_input args)])%list
      /\ calls (snd q) = (calls w ++ [CallQueueSubmit args webhook_url])%list).
Proof.
  cbv zeta. rewrite <- style_conflict_both.
  destruct (dispatch env args webhook_url w) as [Hyes Hno]. cbv zeta in Hyes, Hno.
  destruct (style_conflict (Input.style args) (Input.style_codes args)).
  - destruct (Hyes eq_refl) as [-> ->]. cbn [fst snd]. intuition congruence.
  - destruct (Hno eq_refl) as (Hg & Hq & Hcg & Hcq). intuition congruence.
Qed.

(** The scenario with [style] "REALISTIC" and one style code: the answer is
    ConflictingParameters and nothing has happened in the world. *)
Example scenario_conflict :
  ideogram_v3_generate demo_env true both_set initial_world
  = (Ok conflictingParameters, initial_world)
  /\ ideogram_v3_generate_queue demo_env true
       {| QueueArgs.webhook_url := None; QueueArgs.input := both_set |} initial_world
     = (Ok conflictingParameters, initial_world).
Proof. split; reflexivity. Qed.

(** The scenario without credential: a NotConfigured failure, and nothing
    has happened in the world. *)
Example scenario_not_configured :
  ideogram_v3_generate demo_env (Process.falConfigured (startup None)) red_circle
    initial_world
  = (Ok notConfigured, initial_world).
Proof. reflexivity. Qed.

(** ** A download that brings the batch down *)

(** C3: the code at the failing input.  The backend returns two images and
    the file for the first one cannot be opened.  The write stream's 'error'
    finds no listener, so the process dies of the uncaught exception while
    the handler awaits the first download: generate and queue_result give no
    answer, no asset list is built, and the second image is never asked
    for. *)
Theorem C3_open_failure_aborts_batch :
  let g := ideogram_v3_generate unwritable_env true red_circle initial_world in
  let r := ideogram_v3_queue_result unwritable_env true req_1 initial_world in
  fst g = Uncaught (ErrorObj "EACCES: permission denied")
  /\ fst r = Uncaught (ErrorObj "EACCES: permission denied")
  /\ requests (snd g) = [ "https://cdn.example/a.png" ]
  /\ requests (snd r) = [ "https://cdn.example/a.png" ]
  /\ downloads (snd g) = 1%nat
  /\ downloads (snd r) = 1%nat.
Proof. vm_compute. repeat split. Qed.

(** A request that is never answered: the handler stays suspended in the
    loop, with the first image on disk and no answer for the host. *)
Example silent_download_suspends :
  let g := ideogram_v3_generate silent_env true red_circle initial_world in
  fst g = Pending
  /\ requests (snd g) = [ "https://cdn.example/a.png"; "https://cdn.example/b.png" ]
  /\ size (files (snd g)) = 2%nat.
Proof. vm_compute. repeat split. Qed.

(** ** Payloads *)

Lemma truthy_style_Some (s : Style) : truthy_style (Some s) = true.
Proof. destruct s; reflexivity. Qed.

Lemma generate_input_style (args : Input.t) :
  Input.style (generate_input args) = Input.style args.
Proof.
  cbn [generate_input Input.style].
  destruct (Input.style args) as [s|]; [rewrite truthy_style_Some|]; reflexivity.
Qed.

Lemma generate_input_same (args : Input.t) : generate_input args = args <-> explicit args.
Proof.
  split.
  - intros H. unfold explicit.
    repeat split;
      try (match goal with |- is_Some (?f _) =>
             rewrite <- (f_equal f H); eexists; reflexivity end).
    + intros E. apply (f_equal Input.style_codes) in H.
      cbn [generate_input Input.style_codes] in H. rewrite E in H. discriminate.
    + intros E. apply (f_equal Input.image_urls) in H.
      cbn [generate_input Input.image_urls] in H. rewrite E in H. discriminate.
  - pose proof (generate_input_style args) as Hst. revert Hst.
    destruct args as [p np sz rs st sc cp iu ep ni sd sm].
    unfold explicit, generate_input, negative_prompt_of, image_size_of,
      rendering_speed_of, expand_prompt_of, num_images_of, sync_mode_of.
    cbn [Input.prompt Input.negative_prompt Input.image_size Input.rendering_speed
         Input.style Input.style_codes Input.color_palette Input.image_urls
         Input.expand_prompt Input.num_images Input.seed Input.sync_mode].
    intros -> ([? ->] & [? ->] & [? ->] & [? ->] & [? ->] & [? ->] & Hsc & Hiu).
    cbn [default from_option id].
    destruct sc as [[|? ?]|], iu as [[|? ?]|], cp, sd; try congruence; reflexivity.
Qed.

(** C5, as stated, fails: for the request {prompt, image_size, num_images}
    generate sends a payload with the defaults filled in, generate_queue
    sends the request as it came. *)
Lemma C5_payloads_differ :
  calls (snd (ideogram_v3_generate demo_env true red_circle initial_world))
  = [ CallSubscribe (generate_input red_circle) ]
  /\ calls (snd (ideogram_v3_generate_queue demo_env true
                   {| QueueArgs.webhook_url := None; QueueArgs.input := red_circle |}
                   initial_world))
     = [ CallQueueSubmit red_circle None ]
  /\ generate_input red_circle <> red_circle.
Proof. repeat split. vm_compute. discriminate. Qed.

(** C5, amended: generate sends the prompt; the six defaulted keys, each
    with the value of the request or else its default ("", "square_hd",
    "BALANCED", true, 1, true); [style], [color_palette] and [seed] as they
    are in the request; [style_codes] and [image_urls] as they are in the
    request, except that an empty list is left out.  generate_queue has no
    such step and sends the arguments it received, less [webhook_url].  The
    two payloads are the same exactly when the request is [explicit]. *)
Theorem C5_payloads_amended (env : Env) (args : Input.t)
    (webhook_url : option string) (w : World) :
  let qargs := {| QueueArgs.webhook_url := webhook_url; QueueArgs.input := args |} in
  let sent := generate_input args in
  style_conflict (Input.style args) (Input.style_codes args) = false ->
  calls (snd (ideogram_v3_generate env true args w))
  = (calls w ++ [CallSubscribe sent])%list
  /\ calls (snd (ideogram_v3_generate_queue env true qargs w))
     = (calls w ++ [CallQueueSubmit args webhook_url])%list
  /\ Input.prompt sent = Input.prompt args
  /\ Input.negative_prompt sent
     = Some match Input.negative_prompt args with Some text => text | None => "" end
  /\ Input.image_size sent
     = Some match Input.image_size args with
            | Some size => size
            | None => SizePreset square_hd
            end
  /\ Input.rendering_speed sent
     = Some match Input.rendering_speed args with Some speed => speed | None => BALANCED end
  /\ Input.expand_prompt sent
     = Some match Input.expand_prompt args with Some b => b | None => true end
  /\ Input.num_images sent
     = Some match Input.num_images args with Some n => n | None => 1 end
  /\ Input.sync_mode sent
     = Some match Input.sync_mode args with Some b => b | None => true end
  /\ Input.style sent = Input.style args
  /\ Input.color_palette sent = Input.color_palette args
  /\ Input.seed sent = Input.seed args
  /\ Input.style_codes sent
     = match Input.style_codes args with Some [] => None | codes => codes end
  /\ Input.image_urls sent
     = match Input.image_urls args with Some [] => None | urls => urls end
  /\ (sent = args <-> explicit args).
Proof.
  cbv zeta. intros Hs.
  split; [apply generate_calls; exact Hs|].
  split; [apply (dispatch env args webhook_url w); exact Hs|].
  split; [reflexivity|].
  split; [cbn; unfold negative_prompt_of; destruct (Input.negative_prompt args); reflexivity|].
  split; [cbn; unfold image_size_of; destruct (Input.image_size args); reflexivity|].
  split; [cbn; unfold rendering_speed_of; destruct (Input.rendering_speed args);
          reflexivity|].
  split; [cbn; unfold expand_prompt_of; destruct (Input.expand_prompt args); reflexivity|].
  split; [cbn; unfold num_images_of; destruct (Input.num_images args); reflexivity|].
  split; [cbn; unfold sync_mode_of; destruct (Input.sync_mode args); reflexivity|].
  split; [apply generate_input_style|].
  split; [cbn; destruct (Input.color_palette args); reflexivity|].
  split; [cbn; destruct (Input.seed args); reflexivity|].
  split; [cbn; destruct (Input.style_codes args) as [[|? ?]|]; reflexivity|].
  split; [cbn; destruct (Input.image_urls args) as [[|? ?]|]; reflexivity|].
  apply generate_input_same.
Qed.

(** The request {prompt, image_size: "square", num_images: 1}: four
    defaults are filled in, so the payloads differ. *)
Lemma C5_payloads_amended_witness :
  style_conflict (Input.style red_circle) (Input.style_codes red_circle) = false
  /\ generate_input red_circle
     = {| Input.prompt := "a red circle";
          Input.negative_prompt := Some "";
          Input.image_size := Some (SizePreset square);
          Input.rendering_speed := Some BALANCED;
          Input.style := None;
          Input.style_codes := None;
          Input.color_palette := None;
          Input.image_urls := None;
          Input.expand_prompt := Some true;
          Input.num_images := Some 1;
          Input.seed := None;
          Input.sync_mode := Some true |}
  /\ (generate_input red_circle = red_circle <-> explicit red_circle).
Proof.
  split; [reflexivity|]. split; [reflexivity|].
  destruct (C5_payloads_amended demo_env red_circle None initial_world eq_refl)
    as (_ & _ & _ & _ & _ & _ & _ & _ & _ & _ & _ & _ & _ & _ & H).
  exact H.
Defined.

(** ** Files left behind by [downloadImage] *)

(** The one path on which the file is unlinked: an 'error' on the write
    stream after a 200 response. *)
Lemma downloadImage_stream_error (env : Env) (url filename : string) (w : World)
    (body : string) (written : nat) (message : string) :
  download env (downloads w) = Opened (Response 200 body (StreamError written message)) ->
  let run := downloadImage env url filename w in
  fst run = Throw (ErrorObj message)
  /\ files (snd run) !! path_join (imagesDir env) filename = None.
Proof.
  intros H. unfold downloadImage, bind, next_download. cbn beta iota. rewrite H.
  cbn. split; [reflexivity|]. apply lookup_delete_eq.
Qed.

(** On the other paths that reject after the stream was created, the file
    stays, empty. *)
Lemma downloadImage_leaves_file (env : Env) (url filename : string) (w : World)
    (after : AfterOpen) :
  download env (downloads w) = Opened after ->
  after <> NoResponse ->
  (forall body stream, after <> Response 200 body stream) ->
  let run := downloadImage env url filename w in
  (exists e, fst run = Throw e)
  /\ files (snd run) !! path_join (imagesDir env) filename = Some "".
Proof.
  intros H Hanswer Hafter. unfold downloadImage, bind, next_download. cbn beta iota.
  rewrite H. destruct after as [msg|msg| |st body stream]; cbn.
  - split; [eauto|]. apply lookup_insert_eq.
  - split; [eauto|]. apply lookup_insert_eq.
  - congruence.
  - destruct (st =? 200)%nat eqn:E.
    + apply Nat.eqb_eq in E. subst st. destruct (Hafter body stream). reflexivity.
    + cbn. split; [eauto|]. apply lookup_insert_eq.
Qed.

Example stream_error_unlinks :
  let run := downloadImage broken_stream_env "https://cdn.example/a.png" "a.png"
               initial_world in
  fst run = Throw (ErrorObj "ENOSPC")
  /\ files (snd run) !! "/srv/images/a.png" = None.
Proof. vm_compute. split; reflexivity. Qed.

(** C6: the code at the failing input.  A download answered with 404 is
    rejected, and the file that [createWriteStream] made for it is still
    there afterwards, empty. *)
Theorem C6_not_found_leaves_file :
  let run := downloadImage not_found_env "https://cdn.example/a.png" "a.png" initial_world in
  fst run = Throw (ErrorObj "Failed to download image: HTTP 404")
  /\ files (snd run) !! "/srv/images/a.png" = Some "".
Proof. vm_compute. split; reflexivity. Qed.

(** ** The failure flag *)

(** C7, as stated, fails for download errors: in the run below the second
    download fails with HTTP 404; the error is logged and the answer carries
    no failure flag. *)
Lemma C7_download_error_not_flagged :
  let run := ideogram_v3_generate demo_env true red_circle initial_world in
  flag_of run = Some None
  /\ last (stderr (snd run))
     = Some [ LogString "Failed to download image 2:";
              LogThrown (ErrorObj "Failed to download image: HTTP 404") ].
Proof. vm_compute. split; reflexivity. Qed.

(** C7, amended: an invocation in which every download of the batch settles
    (is resolved or rejected) returns a text answer and throws nothing,
    whatever the backend does; generate_queue and queue_status download
    nothing and always do.  The answer has [isError: true] exactly when the
    credential is missing, [style] and [style_codes] conflict, the backend
    call is rejected, or its result has no image list; a rejected download
    does not set it.  Answers without the flag are text results with
    [isError] absent. *)
Theorem C7_answers_amended (env : Env) (falConfigured : bool) (g : Input.t)
    (q : QueueArgs.t) (s : StatusArgs.t) (r : ResultArgs.t) (w : World) :
  let generated :=
    backend_output SubscribeResult.data (snd (subscribe env (generate_input g))) in
  let fetched := backend_output id (queue_result env (ResultArgs.request_id r)) in
  (batch_settles env w (batch_size generated) = true ->
   answered (ideogram_v3_generate env falConfigured g w)
     (falConfigured = true
      /\ style_conflict (Input.style g) (Input.style_codes g) = false
      /\ is_Some generated))
  /\ answered (ideogram_v3_generate_queue env falConfigured q w)
       (falConfigured = true
        /\ style_conflict (Input.style (QueueArgs.input q))
             (Input.style_codes (QueueArgs.input q)) = false
        /\ resolved (queue_submit env (QueueArgs.input q) (QueueArgs.webhook_url q)))
  /\ answered (ideogram_v3_queue_status env falConfigured s w)
       (falConfigured = true
        /\ resolved (queue_status env (StatusArgs.request_id s)
                       (default true (StatusArgs.logs s))))
  /\ (batch_settles env w (batch_size fetched) = true ->
      answered (ideogram_v3_queue_result env falConfigured r w)
        (falConfigured = true /\ is_Some fetched)).
Proof.
  cbv zeta. unfold answered.
  destruct falConfigured.
  2: { repeat split; try intros _; do 2 eexists; right;
       (split; [intros [[=] _]|reflexivity]). }
  split; [|split; [|split]].
  - destruct (style_conflict (Input.style g) (Input.style_codes g)) eqn:Hs.
    { intros _. rewrite (generate_conflict env g w Hs). do 2 eexists. right.
      split; [intros (_ & [=] & _)|reflexivity]. }
    destruct (snd (subscribe env (generate_input g))) as [result|e] eqn:Hr.
    + cbn [backend_output].
      destruct (well_formed (SubscribeResult.data result)) as [[o images]|] eqn:Hw.
      * cbn [batch_size]. intros Hset.
        destruct (generate_resolved env g w result o images Hs Hr Hw Hset)
          as (w0 & w' & _ & _ & -> & _).
        do 2 eexists. left. split; [|reflexivity]. repeat split. eexists; reflexivity.
      * intros _.
        destruct (generate_malformed env g w result Hs Hr Hw) as (e & w' & -> & _).
        do 2 eexists. right. split; [|reflexivity]. intros (_ & _ & [? [=]]).
    + intros _. destruct (generate_rejected env g w e Hs Hr) as (w' & -> & _).
      do 2 eexists. right. split; [|reflexivity]. intros (_ & _ & [? [=]]).
  - destruct (style_conflict (Input.style (QueueArgs.input q))
                (Input.style_codes (QueueArgs.input q))) eqn:Hs.
    { rewrite (queue_conflict env q w Hs). do 2 eexists. right.
      split; [intros (_ & [=] & _)|reflexivity]. }
    destruct (queue_submitted env q w Hs) as (w' & -> & _).
    destruct (queue_submit env _ _) as [request_id|e]; cbn [resolved].
    + do 2 eexists. left. split; [|reflexivity]. repeat split.
    + do 2 eexists. right. split; [|reflexivity]. intros (_ & _ & []).
  - destruct (status_run env s w) as (w' & -> & _).
    destruct (queue_status env _ _) as [status|e]; cbn [resolved].
    + do 2 eexists. left. split; [|reflexivity]. repeat split.
    + do 2 eexists. right. split; [|reflexivity]. intros (_ & []).
  - destruct (queue_result env (ResultArgs.request_id r)) as [output|e] eqn:Hr.
    + cbn [backend_output id].
      destruct (well_formed output) as [[o images]|] eqn:Hw.
      * cbn [batch_size]. intros Hset.
        destruct (result_resolved env r w output o images Hr Hw Hset)
          as (w0 & w' & _ & _ & -> & _).
        do 2 eexists. left. split; [|reflexivity]. repeat split. eexists; reflexivity.
      * intros _.
        destruct (result_malformed env r w output Hr Hw) as (e & w' & -> & _).
        do 2 eexists. right. split; [|reflexivity]. intros (_ & [? [=]]).
    + intros _. destruct (result_rejected env r w e Hr) as (w' & -> & _).
      do 2 eexists. right. split; [|reflexivity]. intros (_ & [? [=]]).
Qed.

(** Two images, the second download rejected with 404: both downloads
    settle, and both tools answer without the flag. *)
Lemma C7_answers_amended_witness :
  batch_settles demo_env initial_world 2 = true
  /\ answered (ideogram_v3_generate demo_env true red_circle initial_world)
       (true = true
        /\ style_conflict (Input.style red_circle) (Input.style_codes red_circle) = false
        /\ is_Some (backend_output SubscribeResult.data
                      (snd (subscribe demo_env (generate_input red_circle)))))
  /\ answered (ideogram_v3_queue_result demo_env true req_1 initial_world)
       (true = true
        /\ is_Some (backend_output id (queue_result demo_env (ResultArgs.request_id req_1)))).
Proof.
  split; [reflexivity|].
  destruct (C7_answers_amended demo_env true red_circle
              {| QueueArgs.webhook_url := None; QueueArgs.input := red_circle |}
              {| StatusArgs.request_id := "req-1"; StatusArgs.logs := None |}
              req_1 initial_world) as (Hg & _ & _ & Hr).
  split; [apply Hg | apply Hr]; reflexivity.
Defined.

(** ** Seeds and empty results *)

(** The layout of a file name: label, sanitized text, seed segment, index,
    timestamp, extension.  The seed segment is there for every seed but 0
    and NaN. *)
Lemma filename_structure (iso text : string) (index : nat) (seed : option Js.number) :
  generateImageFilename_at iso text index seed
  = "ideogram_v3" +:+ "_" +:+ safePrompt text +:+
    match seed with
    | Some (Js.Int n _) => if n =? 0 then "" else "_" +:+ pretty n
    | Some (Js.Other printed _) => "_" +:+ printed
    | Some Js.NaN | None => ""
    end +:+
    "_" +:+ Js.nat_to_string index +:+ "_" +:+ Js.dash_colon_dot iso +:+ ".png".
Proof.
  unfold generateImageFilename_at, seedStr, Js.truthy_number, Js.number_to_string.
  destruct seed as [[n ?|printed ?|]|]; [destruct (n =? 0)| | |]; reflexivity.
Qed.

(** The label used by queue_result, for the request id "req-1". *)
Example safePrompt_queue_label : safePrompt ("queue_result_" +:+ "req-1") = "queueresultreq1".
Proof. vm_compute. reflexivity. Qed.

(** A seed with a fraction, and a seed of 10^21 or more, are printed the way
    JavaScript prints them: the model takes their printed form as given. *)
Example filename_other_seeds :
  generateImageFilename_at iso0 "a red circle" 1 (Some (Js.Other "1.5" eq_refl))
  = "ideogram_v3_a_red_circle_1.5_1_2024-01-02T03-04-05-678Z.png"
  /\ generateImageFilename_at iso0 "a red circle" 1 (Some (Js.Other "1.5e+21" eq_refl))
     = "ideogram_v3_a_red_circle_1.5e+21_1_2024-01-02T03-04-05-678Z.png".
Proof. vm_compute. split; reflexivity. Qed.

(** C8: the code at the failing input.  With the seed 0 present the file
    name has no seed segment, while the seed 7 gets one. *)
Theorem C8_seed_zero_no_segment :
  generateImageFilename_at iso0 "a red circle" 1 (Some (Js.Int 0 eq_refl))
  = "ideogram_v3_a_red_circle_1_2024-01-02T03-04-05-678Z.png"
  /\ generateImageFilename_at iso0 "a red circle" 1 (Some (Js.Int 7 eq_refl))
     = "ideogram_v3_a_red_circle_7_1_2024-01-02T03-04-05-678Z.png".
Proof. vm_compute. split; reflexivity. Qed.

Lemma seed_zero_absent (iso text : string) (index : nat) :
  generateImageFilename_at iso text index (Some (Js.Int 0 eq_refl))
  = generateImageFilename_at iso text index None
  /\ seed_line (Some (Js.Int 0 eq_refl)) = "Seed: Auto-generated".
Proof. split; reflexivity. Qed.






Example seed_zero_demo :
  fst (ideogram_v3_queue_result demo_env true req_1 initial_world)
  = fst (ideogram_v3_queue_result (with_seed None demo_env) true req_1 initial_world).
Proof. vm_compute. reflexivity. Qed.

Lemma append_assoc (a b c : string) : (a +:+ b) +:+ c = a +:+ b +:+ c.
Proof.
  induction a as [|x a IH]; [reflexivity|].
  change (String x ((a +:+ b) +:+ c) = String x (a +:+ b +:+ c)).
  rewrite IH. reflexivity.
Qed.

Lemma includes_skip (a t s : string) : includes t s -> includes (a +:+ t) s.
Proof.
  intros (before & rest & ->). exists (a +:+ before), rest.
  rewrite append_assoc. reflexivity.
Qed.

Lemma ends_with_skip (a t s : string) : ends_with t s -> ends_with (a +:+ t) s.
Proof.
  intros (before & ->). exists (a +:+ before). rewrite append_assoc. reflexivity.
Qed.

Lemma ends_with_refl (s : string) : ends_with s s.
Proof. exists "". reflexivity. Qed.

Lemma download_note_nil :
  download_note [] = "Note: Local download failed, but original URLs are available.".
Proof. reflexivity. Qed.

(** The two summaries for an empty list of images. *)
Lemma generate_text_nil (args : Input.t) (seed : option Js.number) (requestId : string) :
  let text := generate_responseText args seed requestId [] in
  starts_with text "Successfully generated 0 image(s)"
  /\ ends_with text "Note: Local download failed, but original URLs are available.".
Proof.
  cbv zeta. unfold generate_responseText. cbn [Js.join List.length imageDetails map].
  split.
  - eexists. reflexivity.
  - rewrite download_note_nil. repeat apply ends_with_skip. apply ends_with_refl.
Qed.

Lemma result_text_nil (request_id : string) (seed : option Js.number) :
  let text := result_responseText request_id seed [] in
  includes text "Generated 0 image(s)"
  /\ ends_with text "Note: Local download failed, but original URLs are available.".
Proof.
  cbv zeta. unfold result_responseText. cbn [Js.join List.length imageDetails map].
  split.
  - do 4 apply includes_skip.
    exists "Successfully completed! ". eexists. reflexivity.
  - rewrite download_note_nil. repeat apply ends_with_skip. apply ends_with_refl.
Qed.

(** C9: when the backend's result has an empty image list, generate answers
    without [isError], with a text that reports 0 images and ends with the
    note that the local download failed, although the download counter has
    not moved: no download was attempted.  So does queue_result. *)
Theorem C9_empty_image_list (env : Env) (w : World) :
  (forall (args : Input.t) (result : SubscribeResult.t) (o : IdeogramImageResult.t),
     style_conflict (Input.style args) (Input.style_codes args) = false ->
     snd (subscribe env (generate_input args)) = Resolves result ->
     well_formed (SubscribeResult.data result) = Some (o, []) ->
     exists text w',
       ideogram_v3_generate env true args w = (Ok (text_result text), w')
       /\ ToolResult.isError (text_result text) = None
       /\ starts_with text "Successfully generated 0 image(s)"
       /\ ends_with text "Note: Local download failed, but original URLs are available."
       /\ downloads w' = downloads w)
  /\ (forall (rargs : ResultArgs.t) (output : option IdeogramImageResult.t)
        (o : IdeogramImageResult.t),
        queue_result env (ResultArgs.request_id rargs) = Resolves output ->
        well_formed output = Some (o, []) ->
        exists text w',
          ideogram_v3_queue_result env true rargs w = (Ok (text_result text), w')
          /\ ToolResult.isError (text_result text) = None
          /\ includes text "Generated 0 image(s)"
          /\ ends_with text "Note: Local download failed, but original URLs are available."
          /\ downloads w' = downloads w).
Proof.
  split.
  - intros args result o Hs Hr Hw.
    destruct (generate_resolved env args w result o [] Hs Hr Hw eq_refl)
      as (w0 & w' & _ & _ & -> & _ & Hd).
    do 2 eexists. split; [reflexivity|]. split; [reflexivity|].
    cbn [imap List.length] in *.
    split; [apply generate_text_nil|]. split; [apply generate_text_nil|]. lia.
  - intros rargs output o Hr Hw.
    destruct (result_resolved env rargs w output o [] Hr Hw eq_refl)
      as (w0 & w' & _ & _ & -> & _ & Hd).
    do 2 eexists. split; [reflexivity|]. split; [reflexivity|].
    cbn [imap List.length] in *.
    split; [apply result_text_nil|]. split; [apply result_text_nil|]. lia.
Qed.

Lemma C9_empty_image_list_witness :
  (exists text w',
     ideogram_v3_generate empty_env true red_circle initial_world
     = (Ok (text_result text), w')
     /\ ToolResult.isError (text_result text) = None
     /\ starts_with text "Successfully generated 0 image(s)"
     /\ ends_with text "Note: Local download failed, but original URLs are available."
     /\ downloads w' = downloads initial_world)
  /\ (exists text w',
        ideogram_v3_queue_result empty_env true req_1 initial_world
        = (Ok (text_result text), w')
        /\ ToolResult.isError (text_result text) = None
        /\ includes text "Generated 0 image(s)"
        /\ ends_with text "Note: Local download failed, but original URLs are available."
        /\ downloads w' = downloads initial_world).
Proof.
  destruct (C9_empty_image_list empty_env initial_world) as [Hg Hr]. split.
  - apply (Hg red_circle
             {| SubscribeResult.data := Some no_images;
                SubscribeResult.requestId := "req-2" |} no_images); reflexivity.
  - apply (Hr req_1 (Some no_images) no_images); reflexivity.
Defined.
(** * Further properties *)

(** ** Strings *)

Lemma forall_string_app (p : ascii -> bool) (a b : string) :
  Js.forall_string p (a +:+ b) = Js.forall_string p a && Js.forall_string p b.
Proof.
  induction a as [|c a IH]; [reflexivity|].
  change (p c && Js.forall_string p (a +:+ b)
          = p c && Js.forall_string p a && Js.forall_string p b).
  rewrite IH, andb_assoc. reflexivity.
Qed.

Lemma forall_string_impl (p q : ascii -> bool) (s : string) :
  (forall c, p c = true -> q c = true) ->
  Js.forall_string p s = true -> Js.forall_string q s = true.
Proof.
  intros Hpq. induction s as [|c s IH]; simpl; [reflexivity|].
  intros H. apply andb_true_iff in H as [Hc Hs]. rewrite (Hpq c Hc). simpl. auto.
Qed.

Lemma length_app (a b : string) :
  String.length (a +:+ b) = (String.length a + String.length b)%nat.
Proof.
  induction a as [|c a IH]; [reflexivity|].
  change (S (String.length (a +:+ b)) = S (String.length a + String.length b)).
  rewrite IH. reflexivity.
Qed.

Lemma app_inv_head_string (a x y : string) : a +:+ x = a +:+ y -> x = y.
Proof.
  induction a as [|c a IH]; [trivial|].
  change (String c (a +:+ x) = String c (a +:+ y) -> x = y).
  intros [= H]. auto.
Qed.

(** Decimal numerals. *)
Lemma pretty_N_char_digit (x : N) : Js.is_digit (pretty_N_char x) = true.
Proof. unfold pretty_N_char. repeat case_match; reflexivity. Qed.

Lemma pretty_N_go_digits (x : N) : forall s,
  Js.forall_string Js.is_digit s = true ->
  Js.forall_string Js.is_digit (pretty_N_go x s) = true.
Proof.
  induction (N.lt_wf_0 x) as [x _ IH]; intros s Hs.
  destruct (decide (x = 0)%N) as [->|Hx].
  - rewrite pretty_N_go_0. exact Hs.
  - rewrite pretty_N_go_step by lia. apply IH.
    + apply N.div_lt; lia.
    + simpl. rewrite pretty_N_char_digit. exact Hs.
Qed.

Lemma pretty_N_digits (x : N) : Js.forall_string Js.is_digit (pretty x) = true.
Proof.
  unfold pretty, pretty_N. case_decide; [reflexivity|].
  apply pretty_N_go_digits. reflexivity.
Qed.

Lemma nat_to_string_digits (n : nat) :
  Js.forall_string Js.is_digit (Js.nat_to_string n) = true.
Proof. apply pretty_N_digits. Qed.

Lemma pretty_Z_chars (n : Z) :
  Js.forall_string (fun c => Js.is_digit c || Ascii.eqb c "-") (pretty n) = true.
Proof.
  assert (Hd : forall x : N,
             Js.forall_string (fun c => Js.is_digit c || Ascii.eqb c "-") (pretty x) = true).
  { intros x. eapply forall_string_impl; [|apply pretty_N_digits].
    intros c ->. reflexivity. }
  unfold pretty, pretty_Z. destruct n as [|p|p].
  - reflexivity.
  - apply Hd.
  - change (Js.forall_string (fun c => Js.is_digit c || Ascii.eqb c "-")
              (pretty (N.pos p)) = true). apply Hd.
Qed.

Lemma number_char_digit_or_dash (c : ascii) :
  Js.is_digit c || Ascii.eqb c "-" = true -> Js.number_char c = true.
Proof. by_cases_on_char c. Qed.

(** What a number is printed as consists of the characters of numerals. *)
Lemma number_to_string_chars (x : Js.number) :
  Js.forall_string Js.number_char (Js.number_to_string x) = true.
Proof.
  destruct x as [n safe|text printed|]; cbn [Js.number_to_string].
  - eapply forall_string_impl; [apply number_char_digit_or_dash | apply pretty_Z_chars].
  - exact printed.
  - reflexivity.
Qed.

(** A numeral followed by an underscore is delimited by it. *)
Lemma digits_delimited (u v x y : string) :
  Js.forall_string Js.is_digit u = true ->
  Js.forall_string Js.is_digit v = true ->
  u +:+ "_" +:+ x = v +:+ "_" +:+ y -> u = v.
Proof.
  revert v. induction u as [|a u IH]; intros [|b v] Hu Hv H.
  - reflexivity.
  - change (String "_" x = String b (v +:+ "_" +:+ y)) in H.
    injection H as <- _. simpl in Hv. discriminate.
  - change (String a (u +:+ "_" +:+ x) = String "_" y) in H.
    injection H as -> _. simpl in Hu. discriminate.
  - change (String a (u +:+ "_" +:+ x) = String b (v +:+ "_" +:+ y)) in H.
    injection H as -> H. simpl in Hu, Hv.
    apply andb_true_iff in Hu as [_ Hu]. apply andb_true_iff in Hv as [_ Hv].
    f_equal. eapply IH; eassumption.
Qed.

(** ** More on sanitization and file names *)

Lemma no_double_underscore_tail (c : ascii) (s : string) :
  no_double_underscore (String c s) = true -> no_double_underscore s = true.
Proof. simpl. intros H. apply andb_true_iff in H as [_ H]. exact H. Qed.

Lemma no_double_underscore_includes (s : string) :
  no_double_underscore s = true -> ~ includes s "__".
Proof.
  intros H (before & rest & E). revert s H E.
  induction before as [|c before IH]; intros s H E.
  - subst s. discriminate.
  - change (s = String c (before +:+ "__" +:+ rest)) in E. subst s.
    eapply IH; [|reflexivity]. eapply no_double_underscore_tail. exact H.
Qed.

Lemma not_underscore (c : ascii) :
  Js.is_lower c || Js.is_digit c || false = true -> Js.is_underscore c = false.
Proof. by_cases_on_char c. Qed.

Lemma cons_no_double_underscore (c : ascii) (s : string) :
  Js.is_underscore c && starts_underscore s = false ->
  no_double_underscore s = true ->
  no_double_underscore (String c s) = true.
Proof.
  intros Hc Hs. simpl. rewrite Hs, andb_true_r.
  destruct s as [|b s]; [reflexivity|]. simpl in Hc. rewrite Hc. reflexivity.
Qed.

Lemma spaces_to_underscore_single (s : string) : forall b,
  Js.forall_string (fun c => Js.is_lower c || Js.is_digit c || Js.is_space c) s = true ->
  no_double_underscore (Js.spaces_to_underscore b s) = true
  /\ (b = true -> starts_underscore (Js.spaces_to_underscore b s) = false).
Proof.
  induction s as [|c s IH]; intros b H.
  - split; reflexivity.
  - simpl in H. apply andb_true_iff in H as [Hc Hs]. cbn [Js.spaces_to_underscore].
    destruct (Js.is_space c) eqn:E.
    + destruct (IH true Hs) as [Hn Hst]. destruct b.
      * split; [exact Hn|]. intros _. apply Hst. reflexivity.
      * split; [|discriminate].
        apply cons_no_double_underscore; [|exact Hn].
        rewrite (Hst eq_refl). apply andb_false_r.
    + destruct (IH false Hs) as [Hn _].
      pose proof (not_underscore c Hc) as Hu. split.
      * apply cons_no_double_underscore; [|exact Hn]. rewrite Hu. reflexivity.
      * intros _. simpl. exact Hu.
Qed.

Lemma substring_no_double_underscore (m : nat) : forall s,
  no_double_underscore s = true -> no_double_underscore (String.substring 0 m s) = true.
Proof.
  induction m as [|m IH]; intros s H.
  - destruct s; reflexivity.
  - destruct s as [|c s]; [reflexivity|].
    change (no_double_underscore (String c (String.substring 0 m s)) = true).
    pose proof (IH s (no_double_underscore_tail c s H)) as Ht.
    apply cons_no_double_underscore; [|exact Ht].
    destruct m as [|m]; [destruct s; apply andb_false_r|].
    destruct s as [|b s]; [apply andb_false_r|].
    simpl in H. apply andb_true_iff in H as [H _].
    simpl. apply negb_true_iff in H. exact H.
Qed.

(** Runs of white space collapse to one underscore and the prompt's own
    underscores are removed, so the sanitized prompt never has two
    underscores in a row; and upper and lower case give the same result. *)
Theorem safePrompt_single_underscores (prompt : string) :
  ~ includes (safePrompt prompt) "__"
  /\ safePrompt (Js.toLowerCase prompt) = safePrompt prompt.
Proof.
  split.
  - apply no_double_underscore_includes. unfold safePrompt.
    apply substring_no_double_underscore.
    apply spaces_to_underscore_single, strip_keeps_safe_or_space.
  - unfold safePrompt. do 3 f_equal. unfold Js.toLowerCase.
    induction prompt as [|c s IH]; [reflexivity|]. simpl. rewrite IH. f_equal.
    clear. by_cases_on_char c.
Qed.

Example safePrompt_runs : safePrompt "a _ b__c" = "a_bc".
Proof. vm_compute. reflexivity. Qed.

Lemma permitted_safe_char (c : ascii) :
  permitted c = true -> negb (Ascii.eqb c "/") = true /\ negb (Ascii.eqb c ".") = true.
Proof. by_cases_on_char c; split; reflexivity. Qed.

Lemma digit_or_dash_safe_char (c : ascii) :
  Js.is_digit c || Ascii.eqb c "-" = true ->
  negb (Ascii.eqb c "/") = true /\ negb (Ascii.eqb c ".") = true.
Proof. by_cases_on_char c; split; reflexivity. Qed.

Lemma dash_colon_dot_no_dot (s : string) : lacks "." (Js.dash_colon_dot s) = true.
Proof.
  unfold lacks, Js.dash_colon_dot.
  induction s as [|c s IH]; [reflexivity|]. simpl. rewrite IH, andb_true_r.
  clear. by_cases_on_char c.
Qed.

Lemma dash_colon_dot_no_slash (s : string) :
  lacks "/" s = true -> lacks "/" (Js.dash_colon_dot s) = true.
Proof.
  unfold lacks, Js.dash_colon_dot.
  induction s as [|c s IH]; [reflexivity|]. simpl. intros H.
  apply andb_true_iff in H as [Hc Hs]. rewrite (IH Hs), andb_true_r.
  revert Hc. clear. by_cases_on_char c.
Qed.

Lemma number_char_no_slash (c : ascii) :
  Js.number_char c = true -> negb (Ascii.eqb c "/") = true.
Proof. by_cases_on_char c. Qed.

(** No number is printed with a '/'. *)
Lemma seedStr_no_slash (seed : option Js.number) : lacks "/" (seedStr seed) = true.
Proof.
  unfold seedStr. destruct seed as [n|]; [|reflexivity].
  destruct (Js.truthy_number n); [|reflexivity].
  unfold lacks. rewrite forall_string_app. apply andb_true_iff. split; [reflexivity|].
  eapply forall_string_impl; [apply number_char_no_slash | apply number_to_string_chars].
Qed.

(** A safe integer is printed without a decimal point. *)
Lemma seedStr_no_dot (seed : option Js.number) :
  dotless seed = true -> lacks "." (seedStr seed) = true.
Proof.
  unfold seedStr, dotless. destruct seed as [[n safe|text printed|]|]; try reflexivity.
  - intros _. destruct (Js.truthy_number _); [|reflexivity].
    unfold lacks. rewrite forall_string_app. apply andb_true_iff. split; [reflexivity|].
    eapply forall_string_impl; [|apply pretty_Z_chars].
    intros c Hc. apply (digit_or_dash_safe_char c Hc).
  - intros H. cbn. exact H.
Qed.

Lemma safePrompt_safe (text : string) :
  lacks "/" (safePrompt text) = true /\ lacks "." (safePrompt text) = true.
Proof.
  split; (eapply forall_string_impl; [|apply safePrompt_permitted]);
    intros c Hc; apply (permitted_safe_char c Hc).
Qed.

Lemma nat_to_string_safe (n : nat) :
  lacks "/" (Js.nat_to_string n) = true /\ lacks "." (Js.nat_to_string n) = true.
Proof.
  split; (eapply forall_string_impl; [|apply nat_to_string_digits]);
    intros c Hc; apply (digit_or_dash_safe_char c); rewrite Hc; reflexivity.
Qed.

(** Whatever the prompt (or request id), the index and the seed, a file
    name made at a clock reading without '/' has no '/' in it: it names a
    file directly inside the images directory.  When the seed is printed
    without a decimal point (it is absent, a safe integer, or a number
    such as 1e+21), the only dot of the name is the one of the
    extension. *)
Theorem filename_path_safe (iso text : string) (index : nat) (seed : option Js.number) :
  lacks "/" iso = true ->
  lacks "/" (generateImageFilename_at iso text index seed) = true
  /\ (dotless seed = true ->
      exists stem,
        generateImageFilename_at iso text index seed = stem +:+ ".png"
        /\ lacks "." stem = true).
Proof.
  intros Hiso.
  destruct (safePrompt_safe text) as [Hs1 Hs2], (nat_to_string_safe index) as [Hn1 Hn2].
  pose proof (seedStr_no_slash seed) as Hd1.
  pose proof (dash_colon_dot_no_slash iso Hiso) as Ht1.
  pose proof (dash_colon_dot_no_dot iso) as Ht2.
  unfold generateImageFilename_at. cbv zeta. split.
  - unfold lacks in *. rewrite !forall_string_app, Hs1, Hd1, Hn1, Ht1. reflexivity.
  - intros Hdot. pose proof (seedStr_no_dot seed Hdot) as Hd2.
    exists ("ideogram_v3_" +:+ safePrompt text +:+ seedStr seed +:+ "_" +:+
            Js.nat_to_string index +:+ "_" +:+ Js.dash_colon_dot iso).
    split.
    + rewrite !append_assoc. reflexivity.
    + unfold lacks in *. rewrite !forall_string_app, Hs2, Hd2, Hn2, Ht2. reflexivity.
Qed.

Lemma filename_path_safe_witness :
  lacks "/" iso0 = true
  /\ dotless (Some (Js.Int (-3) eq_refl)) = true
  /\ lacks "/" (generateImageFilename_at iso0 "../../etc/passwd" 1
                  (Some (Js.Int (-3) eq_refl))) = true
  /\ exists stem,
       generateImageFilename_at iso0 "../../etc/passwd" 1 (Some (Js.Int (-3) eq_refl))
       = stem +:+ ".png"
       /\ lacks "." stem = true.
Proof.
  split; [reflexivity|]. split; [reflexivity|].
  destruct (filename_path_safe iso0 "../../etc/passwd" 1 (Some (Js.Int (-3) eq_refl))
              eq_refl) as [Hslash Hdot].
  split; [exact Hslash | apply Hdot; reflexivity].
Defined.

(** A seed with a fraction puts a second dot into the name. *)
Example fraction_seed_dot :
  lacks "." "ideogram_v3_a_red_circle_1.5_1_2024-01-02T03-04-05-678Z" = false
  /\ generateImageFilename_at iso0 "a red circle" 1 (Some (Js.Other "1.5" eq_refl))
     = "ideogram_v3_a_red_circle_1.5_1_2024-01-02T03-04-05-678Z" +:+ ".png".
Proof. vm_compute. split; reflexivity. Qed.

(** For one label and one seed, two file names are equal only if their
    indices are: within a batch no two images get the same name, even when
    the clock is read at different instants or does not advance. *)
Theorem filename_index_inj (iso1 iso2 text : string) (i j : nat) (seed : option Js.number) :
  generateImageFilename_at iso1 text i seed = generateImageFilename_at iso2 text j seed ->
  i = j.
Proof.
  unfold generateImageFilename_at. cbv zeta. intros H.
  do 4 apply app_inv_head_string in H.
  apply digits_delimited in H; try apply nat_to_string_digits.
  apply (inj pretty) in H. exact H.
Qed.

(** Two readings of the clock that give the same timestamp. *)
Lemma filename_index_inj_witness :
  generateImageFilename_at iso0 "a red circle" 2 (Some (Js.Int 7 eq_refl))
  = generateImageFilename_at "2024-01-02T03-04-05-678Z" "a red circle" 2
      (Some (Js.Int 7 eq_refl))
  /\ 2%nat = 2%nat.
Proof.
  split; [reflexivity|].
  apply (filename_index_inj iso0 "2024-01-02T03-04-05-678Z" "a red circle" 2 2
           (Some (Js.Int 7 eq_refl))).
  reflexivity.
Defined.

(** The prompt contributes at most 50 characters to the file name: its
    length is 18 plus the lengths of the sanitized prompt, the seed segment,
    the index and the timestamp, hence at most 68 plus the last three. *)
Theorem filename_length (iso text : string) (index : nat) (seed : option Js.number) :
  let n := String.length (generateImageFilename_at iso text index seed) in
  n = (18 + String.length (safePrompt text) + String.length (seedStr seed)
       + String.length (Js.nat_to_string index) + String.length iso)%nat
  /\ (n <= 68 + String.length (seedStr seed)
          + String.length (Js.nat_to_string index) + String.length iso)%nat.
Proof.
  cbv zeta.
  assert (Hts : String.length (Js.dash_colon_dot iso) = String.length iso).
  { unfold Js.dash_colon_dot. induction iso as [|c s IH]; simpl; [reflexivity|].
    rewrite IH. reflexivity. }
  pose proof (safePrompt_length text) as Hs.
  unfold generateImageFilename_at. cbv zeta. rewrite !length_app, Hts. simpl. lia.
Qed.


(** ** Effects of [downloadImage] *)

Lemma path_join_inj (d a b : string) : path_join d a = path_join d b -> a = b.
Proof.
  unfold path_join. intros H. do 2 apply app_inv_head_string in H. exact H.
Qed.

Ltac by_cases_on_download d st E :=
  destruct d as [?msg|?msg|?msg|[?msg|?msg| |st ?body [|?n ?msg|?n]]];
  try (destruct (st =? 200)%nat eqn:E; [apply Nat.eqb_eq in E; subst st|]).

Lemma downloadImage_store (env : Env) (url filename : string) (w : World) :
  let d := download env (downloads w) in
  let target := path_join (imagesDir env) filename in
  let run := downloadImage env url filename w in
  (forall q, q <> target -> files (snd run) !! q = files w !! q)
  /\ files (snd run) !! target = file_after d (files w !! target)
  /\ requests (snd run)
     = (requests w ++ if reaches_network d then [url] else [])%list.
Proof.
  cbv zeta. unfold downloadImage, bind, next_download. cbn beta iota.
  by_cases_on_download (download env (downloads w)) st E;
    cbn [file_after reaches_network]; rewrite ?E, ?Nat.eqb_refl;
    cbn; repeat split;
    first
      [ reflexivity
      | rewrite app_nil_r; reflexivity
      | apply lookup_insert_eq
      | apply lookup_delete_eq
      | intros q Hq; rewrite ?lookup_delete_ne, ?lookup_insert_ne by congruence;
        reflexivity ].
Qed.


(** ** Effects of the download loop *)

Section LoopStore.

Variable env : Env.
Variable label : string.
Variable seed : option Js.number.

Lemma loop_body_store (image : Image.t) (i : nat) (acc : list Downloaded.t) (w : World) :
  let d := download env (downloads w) in
  let target :=
    path_join (imagesDir env)
      (generateImageFilename_at (toISOString env (clock w)) label (i + 1) seed) in
  let w' := snd (loop_body env label seed image i acc w) in
  (forall q, q <> target -> files w' !! q = files w !! q)
  /\ files w' !! target = file_after d (files w !! target)
  /\ requests w'
     = (requests w ++ if reaches_network d then [Image.url image] else [])%list.
Proof.
  cbv zeta.
  unfold loop_body, generateImageFilename, bind, try_catch, now, ret,
    console_error, modify.
  match goal with |- context [downloadImage env ?u ?f ?w1] =>
    pose proof (downloadImage_store env u f w1) as Hd;
    destruct (downloadImage env u f w1) as [[p|e|e|] w2] end;
  cbv zeta in Hd; cbn [fst snd clock downloads files requests] in Hd |- *;
  destruct Hd as (Hq & Ht & Hr); auto.
Qed.

Lemma filename_other_index (iso1 iso2 : string) (i j : nat) :
  i <> j ->
  path_join (imagesDir env) (generateImageFilename_at iso1 label i seed)
  <> path_join (imagesDir env) (generateImageFilename_at iso2 label j seed).
Proof.
  intros Hij H. apply Hij. apply path_join_inj in H.
  unfold generateImageFilename_at in H. cbv zeta in H.
  do 4 apply app_inv_head_string in H.
  apply digits_delimited in H; try apply nat_to_string_digits.
  apply (inj pretty) in H. exact H.
Qed.

(** The requests of the loop, whether or not it gets to its end. *)
Lemma download_loop_requests (images : list Image.t) :
  forall (i : nat) (acc : list Downloaded.t) (w : World),
  requests (snd (download_loop env label seed images i acc w))
  = (requests w ++ network_urls env (downloads w) images)%list.
Proof.
  induction images as [|image rest IH]; intros i acc w.
  - cbn. rewrite app_nil_r. reflexivity.
  - cbn [download_loop network_urls]. unfold bind.
    pose proof (loop_body_store image i acc w) as Hb. cbv zeta in Hb.
    destruct Hb as (_ & _ & Hr1).
    destruct (settles (download env (downloads w))) eqn:E.
    + destruct (loop_body_spec env label seed image i acc w E) as (w1 & Eq & _ & Hn & _).
      rewrite Eq in Hr1 |- *. cbn [snd] in Hr1.
      rewrite IH, Hr1, Hn, <- app_assoc. reflexivity.
    + pose proof (loop_body_unsettled env label seed image i acc w E) as H.
      destruct (loop_body env label seed image i acc w) as [[a|e|e|] w1];
        destruct H as [H|[e' H]]; try discriminate; cbn [snd fst] in *;
        rewrite Hr1, app_nil_r; reflexivity.
Qed.

(** The loop from counter [i] in world [w], when every download settles:
    the image at position [k] is stored under the name made from the clock
    reading [clock w + k] and the index [i + k + 1]. *)
Lemma download_loop_store (images : list Image.t) :
  forall (i : nat) (acc : list Downloaded.t) (w : World),
  batch_settles env w (List.length images) = true ->
  let target k :=
    path_join (imagesDir env)
      (generateImageFilename_at (toISOString env (clock w + k)%nat) label
         (i + k + 1)%nat seed) in
  let w' := snd (download_loop env label seed images i acc w) in
  (forall q, (forall k, (k < List.length images)%nat -> q <> target k) ->
     files w' !! q = files w !! q)
  /\ (forall k, (k < List.length images)%nat ->
        files w' !! target k
        = file_after (download env (downloads w + k)%nat) (files w !! target k)).
Proof.
  induction images as [|image rest IH]; intros i acc w Hset; cbv zeta.
  - cbn. split; [reflexivity | intros; lia].
  - cbn [download_loop List.length]. unfold bind.
    pose proof (proj1 (batch_settles_spec env w _) Hset) as Hall.
    destruct (loop_body_spec env label seed image i acc w) as (w1 & E & Hc & Hn & _).
    { rewrite <- (Nat.add_0_r (downloads w)). apply Hall. cbn [List.length]. lia. }
    pose proof (loop_body_store image i acc w) as Hb. cbv zeta in Hb.
    rewrite E in Hb |- *. cbn [snd] in Hb. destruct Hb as (Hq1 & Ht1 & Hr1).
    specialize (IH (S i) (acc ++ [pushed env label seed (clock w) (downloads w) i 0 image])%list w1).
    cbv zeta in IH. destruct IH as (Hq & Ht).
    { apply batch_settles_spec. intros k Hk. rewrite Hn.
      replace (S (downloads w) + k)%nat with (downloads w + S k)%nat by lia.
      apply Hall. cbn [List.length]. lia. }
    rewrite Hc, Hn in *.
    set (w' := snd (download_loop env label seed rest (S i) _ w1)) in *.
    assert (Hshift : forall k,
              generateImageFilename_at (toISOString env (S (clock w) + k)%nat) label
                (S i + k + 1)%nat seed
              = generateImageFilename_at (toISOString env (clock w + S k)%nat) label
                  (i + S k + 1)%nat seed).
    { intros k. replace (S (clock w) + k)%nat with (clock w + S k)%nat by lia.
      replace (S i + k + 1)%nat with (i + S k + 1)%nat by lia. reflexivity. }
    assert (Hzero : generateImageFilename_at (toISOString env (clock w + 0)%nat) label
                      (i + 0 + 1)%nat seed
                    = generateImageFilename_at (toISOString env (clock w)) label
                        (i + 1)%nat seed).
    { rewrite !Nat.add_0_r. reflexivity. }
    split.
    + intros q Hne. rewrite Hq.
      * apply Hq1. specialize (Hne 0%nat ltac:(lia)). rewrite Hzero in Hne. exact Hne.
      * intros k Hk. rewrite Hshift. apply Hne. lia.
    + intros [|k] Hk.
      * rewrite Hzero, Nat.add_0_r. rewrite Hq; [exact Ht1|].
        intros k' _. apply filename_other_index. lia.
      * rewrite <- Hshift. rewrite Ht by lia.
        replace (S (downloads w) + k)%nat with (downloads w + S k)%nat by lia.
        f_equal. apply Hq1. apply filename_other_index. lia.
Qed.

End LoopStore.

(** ** Where the loop starts inside the handlers *)

Lemma quiet_same_store (w w' : World) : quiet w w' -> same_store w w'.
Proof. unfold quiet, same_store. tauto. Qed.

Lemma same_store_trans (w1 w2 w3 : World) :
  same_store w1 w2 -> same_store w2 w3 -> same_store w1 w3.
Proof. unfold same_store. intuition congruence. Qed.

Section Worlds.

Variable env : Env.

(** The files after a loop that starts from the store of [w]. *)
Lemma loop_store_from (label : string) (seed : option Js.number) (images : list Image.t)
    (w w0 : World) :
  same_store w w0 ->
  batch_settles env w (List.length images) = true ->
  let target k := path_join (imagesDir env) (filename_at env label seed (clock w) k) in
  let w' := snd (download_loop env label seed images 0 [] w0) in
  (forall q, (forall k, (k < List.length images)%nat -> q <> target k) ->
     files w' !! q = files w !! q)
  /\ (forall k, (k < List.length images)%nat ->
        files w' !! target k
        = file_after (download env (downloads w + k)%nat) (files w !! target k)).
Proof.
  intros (Hr & Hf & _ & Hc & Hd) Hset. cbv zeta.
  pose proof (download_loop_store env label seed images 0 [] w0) as H.
  rewrite (batch_settles_same_store env w w0) in H by exact Hd.
  specialize (H Hset). cbv zeta in H. rewrite Hf, Hc, Hd in H. exact H.
Qed.

(** The requests of generate and of queue_result, once the backend has
    resolved with a list of images. *)
Lemma generate_requests (args : Input.t) (w : World) (result : SubscribeResult.t)
    (o : IdeogramImageResult.t) (images : list Image.t) :
  style_conflict (Input.style args) (Input.style_codes args) = false ->
  snd (subscribe env (generate_input args)) = Resolves result ->
  well_formed (SubscribeResult.data result) = Some (o, images) ->
  requests (snd (ideogram_v3_generate env true args w))
  = (requests w ++ network_urls env (downloads w) images)%list.
Proof.
  intros Hs Hr Hw.
  destruct (generate_reaches_loop env args w result o images Hs Hr Hw)
    as (w0 & (Hq & _ & _ & _ & Hn) & _ & ->).
  pose proof (download_loop_requests env (Input.prompt args) (IdeogramImageResult.seed o)
                images 0 [] w0) as H.
  rewrite Hq, Hn in H.
  destruct (download_loop _ _ _ _ _ _ w0) as [[d|e|e|] w4]; exact H.
Qed.

Lemma result_requests (args : ResultArgs.t) (w : World)
    (output : option IdeogramImageResult.t)
    (o : IdeogramImageResult.t) (images : list Image.t) :
  queue_result env (ResultArgs.request_id args) = Resolves output ->
  well_formed output = Some (o, images) ->
  requests (snd (ideogram_v3_queue_result env true args w))
  = (requests w ++ network_urls env (downloads w) images)%list.
Proof.
  intros Hr Hw.
  destruct (result_reaches_loop env args w output o images Hr Hw)
    as (w0 & (Hq & _ & _ & _ & Hn) & _ & ->).
  pose proof (download_loop_requests env ("queue_result_" +:+ ResultArgs.request_id args)
                (IdeogramImageResult.seed o) images 0 [] w0) as H.
  rewrite Hq, Hn in H.
  destruct (download_loop _ _ _ _ _ _ w0) as [[d|e|e|] w4]; exact H.
Qed.

(** A local path in the report is the target of its image, whose download
    was complete. *)
Lemma pushed_local_path (label : string) (seed : option Js.number) (w : World) (k : nat)
    (image : Image.t) (path : string) :
  Downloaded.localPath (pushed env label seed (clock w) (downloads w) 0 k image)
  = Some path ->
  path = path_join (imagesDir env) (filename_at env label seed (clock w) k)
  /\ Downloaded.filename (pushed env label seed (clock w) (downloads w) 0 k image)
     = filename_at env label seed (clock w) k
  /\ exists body, download env (downloads w + k)%nat = Opened (Response 200 body Finish).
Proof.
  unfold pushed, entry, filename_at. cbn [Downloaded.localPath Downloaded.filename].
  destruct (download env (downloads w + k)%nat) as [?|?|?|[?|?| |st body [|? ?|?]]];
    cbn [download_ok]; try discriminate.
  destruct (st =? 200)%nat eqn:E; [|discriminate]. apply Nat.eqb_eq in E. subst st.
  intros [= <-]. repeat split. eexists. reflexivity.
Qed.

End Worlds.

(** ** Reported files *)

Lemma imap_pushed_on_disk (env : Env) (label : string) (seed : option Js.number)
    (images : list Image.t) (w w0 : World) :
  same_store w w0 ->
  batch_settles env w (List.length images) = true ->
  on_disk env w (snd (download_loop env label seed images 0 [] w0))
    (imap (pushed env label seed (clock w) (downloads w) 0) images).
Proof.
  intros Hst Hset k a path Hk Hp.
  rewrite list_lookup_imap in Hk.
  destruct (images !! k) as [image|] eqn:Ei; [|discriminate].
  injection Hk as <-.
  destruct (pushed_local_path env label seed w k image path Hp) as (-> & Hf & body & Hd).
  rewrite Hf. split; [reflexivity|]. exists body. split; [exact Hd|].
  destruct (loop_store_from env label seed images w w0 Hst Hset) as (_ & Ht).
  rewrite Ht.
  - rewrite Hd. reflexivity.
  - apply lookup_lt_Some in Ei. exact Ei.
Qed.

(** When every download of the batch settles, generate answers with the
    summary of the list that its loop has built, and every local path in
    that list names a file that exists and holds exactly the body received
    for that image: a later download of the batch never overwrites or
    removes it.  So does queue_result. *)
Theorem reported_files_on_disk (env : Env) (w : World) :
  (forall (args : Input.t) (result : SubscribeResult.t) (o : IdeogramImageResult.t)
     (images : list Image.t),
     style_conflict (Input.style args) (Input.style_codes args) = false ->
     snd (subscribe env (generate_input args)) = Resolves result ->
     well_formed (SubscribeResult.data result) = Some (o, images) ->
     batch_settles env w (List.length images) = true ->
     exists w0 assets w',
       same_store w w0
       /\ download_loop env (Input.prompt args) (IdeogramImageResult.seed o) images 0 [] w0
          = (Ok assets, w')
       /\ ideogram_v3_generate env true args w
          = (Ok (text_result (generate_responseText args (IdeogramImageResult.seed o)
                                (SubscribeResult.requestId result) assets)), w')
       /\ on_disk env w w' assets)
  /\ (forall (rargs : ResultArgs.t) (output : option IdeogramImageResult.t)
        (o : IdeogramImageResult.t) (images : list Image.t),
        queue_result env (ResultArgs.request_id rargs) = Resolves output ->
        well_formed output = Some (o, images) ->
        batch_settles env w (List.length images) = true ->
        exists w0 assets w',
          same_store w w0
          /\ download_loop env ("queue_result_" +:+ ResultArgs.request_id rargs)
               (IdeogramImageResult.seed o) images 0 [] w0
             = (Ok assets, w')
          /\ ideogram_v3_queue_result env true rargs w
             = (Ok (text_result (result_responseText (ResultArgs.request_id rargs)
                                   (IdeogramImageResult.seed o) assets)), w')
          /\ on_disk env w w' assets).
Proof.
  split.
  - intros args result o images Hs Hr Hw Hset.
    destruct (generate_resolved env args w result o images Hs Hr Hw Hset)
      as (w0 & w' & Hst & El & E & _).
    exists w0. do 2 eexists. split; [exact Hst|]. split; [exact El|]. split; [exact E|].
    replace w' with (snd (download_loop env (Input.prompt args)
                            (IdeogramImageResult.seed o) images 0 [] w0))
      by (rewrite El; reflexivity).
    apply imap_pushed_on_disk; assumption.
  - intros rargs output o images Hr Hw Hset.
    destruct (result_resolved env rargs w output o images Hr Hw Hset)
      as (w0 & w' & Hst & El & E & _).
    exists w0. do 2 eexists. split; [exact Hst|]. split; [exact El|]. split; [exact E|].
    replace w' with (snd (download_loop env ("queue_result_" +:+ ResultArgs.request_id rargs)
                            (IdeogramImageResult.seed o) images 0 [] w0))
      by (rewrite El; reflexivity).
    apply imap_pushed_on_disk; assumption.
Qed.

Lemma reported_files_on_disk_witness :
  (exists w0 assets w',
     same_store initial_world w0
     /\ download_loop demo_env "a red circle" (Some (Js.Int 0 eq_refl))
          [ image_at "https://cdn.example/a.png"; image_at "https://cdn.example/b.png" ]
          0 [] w0
        = (Ok assets, w')
     /\ ideogram_v3_generate demo_env true red_circle initial_world
        = (Ok (text_result (generate_responseText red_circle (Some (Js.Int 0 eq_refl))
                              "req-1" assets)), w')
     /\ on_disk demo_env initial_world w' assets)
  /\ (exists w0 assets w',
        same_store initial_world w0
        /\ download_loop demo_env "queue_result_req-1" (Some (Js.Int 0 eq_refl))
             [ image_at "https://cdn.example/a.png"; image_at "https://cdn.example/b.png" ]
             0 [] w0
           = (Ok assets, w')
        /\ ideogram_v3_queue_result demo_env true req_1 initial_world
           = (Ok (text_result (result_responseText "req-1" (Some (Js.Int 0 eq_refl))
                                 assets)), w')
        /\ on_disk demo_env initial_world w' assets).
Proof.
  destruct (reported_files_on_disk demo_env initial_world) as [Hg Hr]. split.
  - apply (Hg red_circle
             {| SubscribeResult.data := Some two_images;
                SubscribeResult.requestId := "req-1" |} two_images
             [ image_at "https://cdn.example/a.png"; image_at "https://cdn.example/b.png" ]);
      reflexivity.
  - apply (Hr req_1 (Some two_images) two_images
             [ image_at "https://cdn.example/a.png"; image_at "https://cdn.example/b.png" ]);
      reflexivity.
Defined.

(** The HTTP requests of a batch: generate requests the image URLs in the
    order of the result, one request for each image whose download gets as
    far as the network, up to and including the first download that does
    not settle, and nothing else.  So does queue_result. *)
Theorem batch_requests (env : Env) (w : World) :
  (forall (args : Input.t) (result : SubscribeResult.t) (o : IdeogramImageResult.t)
     (images : list Image.t),
     style_conflict (Input.style args) (Input.style_codes args) = false ->
     snd (subscribe env (generate_input args)) = Resolves result ->
     well_formed (SubscribeResult.data result) = Some (o, images) ->
     requests (snd (ideogram_v3_generate env true args w))
     = (requests w ++ network_urls env (downloads w) images)%list)
  /\ (forall (rargs : ResultArgs.t) (output : option IdeogramImageResult.t)
        (o : IdeogramImageResult.t) (images : list Image.t),
        queue_result env (ResultArgs.request_id rargs) = Resolves output ->
        well_formed output = Some (o, images) ->
        requests (snd (ideogram_v3_queue_result env true rargs w))
        = (requests w ++ network_urls env (downloads w) images)%list).
Proof.
  split.
  - intros args result o images Hs Hr Hw.
    apply (generate_requests env args w result o images Hs Hr Hw).
  - intros rargs output o images Hr Hw.
    apply (result_requests env rargs w output o images Hr Hw).
Qed.

Lemma batch_requests_witness :
  requests (snd (ideogram_v3_generate demo_env true red_circle initial_world))
  = [ "https://cdn.example/a.png"; "https://cdn.example/b.png" ]
  /\ requests (snd (ideogram_v3_queue_result silent_env true req_1 initial_world))
     = [ "https://cdn.example/a.png"; "https://cdn.example/b.png" ]
  /\ requests (snd (ideogram_v3_queue_result unwritable_env true req_1 initial_world))
     = [ "https://cdn.example/a.png" ].
Proof.
  split; [|split].
  - apply (proj1 (batch_requests demo_env initial_world) red_circle
             {| SubscribeResult.data := Some two_images;
                SubscribeResult.requestId := "req-1" |} two_images
             [ image_at "https://cdn.example/a.png"; image_at "https://cdn.example/b.png" ]);
      reflexivity.
  - apply (proj2 (batch_requests silent_env initial_world) req_1 (Some two_images)
             two_images
             [ image_at "https://cdn.example/a.png"; image_at "https://cdn.example/b.png" ]);
      reflexivity.
  - apply (proj2 (batch_requests unwritable_env initial_world) req_1 (Some two_images)
             two_images
             [ image_at "https://cdn.example/a.png"; image_at "https://cdn.example/b.png" ]);
      reflexivity.
Defined.

(** ** The asset list of a batch *)

(** When every download of the batch settles, generate answers, without
    [isError], with the summary of the list that its loop has built, and
    that list has one entry for each image of the backend's result, in the
    order of the result (same URLs, indices 1..N); the entry of an image
    has the local path <images directory>/<file name> when its download is
    complete and a null local path when it is rejected, so that of N
    entries with M rejected downloads N-M have a local path and M have
    none.  So does queue_result. *)
Theorem settled_batch_materialized (env : Env) (w : World) :
  (forall (args : Input.t) (result : SubscribeResult.t) (o : IdeogramImageResult.t)
     (images : list Image.t),
     style_conflict (Input.style args) (Input.style_codes args) = false ->
     snd (subscribe env (generate_input args)) = Resolves result ->
     well_formed (SubscribeResult.data result) = Some (o, images) ->
     batch_settles env w (List.length images) = true ->
     exists w0 assets w',
       same_store w w0
       /\ download_loop env (Input.prompt args) (IdeogramImageResult.seed o) images 0 [] w0
          = (Ok assets, w')
       /\ ideogram_v3_generate env true args w
          = (Ok {| ToolResult.content :=
                     [ {| Content.type := "text";
                          Content.text :=
                            generate_responseText args (IdeogramImageResult.seed o)
                              (SubscribeResult.requestId result) assets |} ];
                   ToolResult.isError := None |}, w')
       /\ materialized env w images assets)
  /\ (forall (rargs : ResultArgs.t) (output : option IdeogramImageResult.t)
        (o : IdeogramImageResult.t) (images : list Image.t),
        queue_result env (ResultArgs.request_id rargs) = Resolves output ->
        well_formed output = Some (o, images) ->
        batch_settles env w (List.length images) = true ->
        exists w0 assets w',
          same_store w w0
          /\ download_loop env ("queue_result_" +:+ ResultArgs.request_id rargs)
               (IdeogramImageResult.seed o) images 0 [] w0
             = (Ok assets, w')
          /\ ideogram_v3_queue_result env true rargs w
             = (Ok {| ToolResult.content :=
                        [ {| Content.type := "text";
                             Content.text :=
                               result_responseText (ResultArgs.request_id rargs)
                                 (IdeogramImageResult.seed o) assets |} ];
                      ToolResult.isError := None |}, w')
          /\ materialized env w images assets).
Proof.
  split.
  - intros args result o images Hs Hr Hw Hset.
    destruct (generate_resolved env args w result o images Hs Hr Hw Hset)
      as (w0 & w' & Hst & El & E & _).
    exists w0. do 2 eexists. split; [exact Hst|]. split; [exact El|]. split; [exact E|].
    apply imap_pushed_materialized.
  - intros rargs output o images Hr Hw Hset.
    destruct (result_resolved env rargs w output o images Hr Hw Hset)
      as (w0 & w' & Hst & El & E & _).
    exists w0. do 2 eexists. split; [exact Hst|]. split; [exact El|]. split; [exact E|].
    apply imap_pushed_materialized.
Qed.

(** The scenario of the specification: two images, the second download is
    answered with 404. *)
Lemma settled_batch_materialized_witness :
  exists w0 assets w',
    same_store initial_world w0
    /\ download_loop demo_env "a red circle" (Some (Js.Int 0 eq_refl))
         [ image_at "https://cdn.example/a.png"; image_at "https://cdn.example/b.png" ]
         0 [] w0
       = (Ok assets, w')
    /\ ideogram_v3_generate demo_env true red_circle initial_world
       = (Ok {| ToolResult.content :=
                  [ {| Content.type := "text";
                       Content.text :=
                         generate_responseText red_circle (Some (Js.Int 0 eq_refl))
                           "req-1" assets |} ];
                ToolResult.isError := None |}, w')
    /\ materialized demo_env initial_world
         [ image_at "https://cdn.example/a.png"; image_at "https://cdn.example/b.png" ]
         assets.
Proof.
  apply (proj1 (settled_batch_materialized demo_env initial_world) red_circle
           {| SubscribeResult.data := Some two_images;
              SubscribeResult.requestId := "req-1" |} two_images
           [ image_at "https://cdn.example/a.png"; image_at "https://cdn.example/b.png" ]);
    reflexivity.
Defined.

Example failures_demo : failures demo_env initial_world 2 = 1%nat.
Proof. reflexivity. Qed.

(** The asset list of the scenario. *)
Example scenario_partial_failure :
  exists w',
    download_loop demo_env "a red circle" (Some (Js.Int 0 eq_refl))
      [ image_at "https://cdn.example/a.png"; image_at "https://cdn.example/b.png" ]
      0 [] initial_world
    = (Ok [ {| Downloaded.url := "https://cdn.example/a.png";
               Downloaded.localPath :=
                 Some "/srv/images/ideogram_v3_a_red_circle_1_2024-01-02T03-04-05-678Z.png";
               Downloaded.index := 1;
               Downloaded.content_type := "image/png";
               Downloaded.file_name :=
                 "ideogram_v3_a_red_circle_1_2024-01-02T03-04-05-678Z.png";
               Downloaded.file_size := None;
               Downloaded.filename :=
                 "ideogram_v3_a_red_circle_1_2024-01-02T03-04-05-678Z.png" |};
            {| Downloaded.url := "https://cdn.example/b.png";
               Downloaded.localPath := None;
               Downloaded.index := 2;
               Downloaded.content_type := "image/png";
               Downloaded.file_name :=
                 "ideogram_v3_a_red_circle_2_2024-01-02T03-04-05-678Z.png";
               Downloaded.file_size := None;
               Downloaded.filename :=
                 "ideogram_v3_a_red_circle_2_2024-01-02T03-04-05-678Z.png" |} ], w').
Proof. eexists. vm_compute. reflexivity. Qed.

(** When a download of the batch does not settle, generate gives no answer:
    the process has died of a write stream's 'error', or the handler stays
    suspended at the download.  So does queue_result. *)
Theorem unsettled_batch_no_answer (env : Env) (w : World) :
  (forall (args : Input.t) (result : SubscribeResult.t) (o : IdeogramImageResult.t)
     (images : list Image.t),
     style_conflict (Input.style args) (Input.style_codes args) = false ->
     snd (subscribe env (generate_input args)) = Resolves result ->
     well_formed (SubscribeResult.data result) = Some (o, images) ->
     batch_settles env w (List.length images) = false ->
     fst (ideogram_v3_generate env true args w) = Pending
     \/ exists e, fst (ideogram_v3_generate env true args w) = Uncaught e)
  /\ (forall (rargs : ResultArgs.t) (output : option IdeogramImageResult.t)
        (o : IdeogramImageResult.t) (images : list Image.t),
        queue_result env (ResultArgs.request_id rargs) = Resolves output ->
        well_formed output = Some (o, images) ->
        batch_settles env w (List.length images) = false ->
        fst (ideogram_v3_queue_result env true rargs w) = Pending
        \/ exists e, fst (ideogram_v3_queue_result env true rargs w) = Uncaught e).
Proof.
  split.
  - intros args result o images Hs Hr Hw Hset.
    apply (generate_aborted env args w result o images Hs Hr Hw Hset).
  - intros rargs output o images Hr Hw Hset.
    apply (result_aborted env rargs w output o images Hr Hw Hset).
Qed.

Lemma unsettled_batch_no_answer_witness :
  (fst (ideogram_v3_generate silent_env true red_circle initial_world) = Pending
   \/ exists e, fst (ideogram_v3_generate silent_env true red_circle initial_world)
                = Uncaught e)
  /\ (fst (ideogram_v3_queue_result unwritable_env true req_1 initial_world) = Pending
      \/ exists e, fst (ideogram_v3_queue_result unwritable_env true req_1 initial_world)
                   = Uncaught e).
Proof.
  split.
  - apply (proj1 (unsettled_batch_no_answer silent_env initial_world) red_circle
             {| SubscribeResult.data := Some two_images;
                SubscribeResult.requestId := "req-1" |} two_images
             [ image_at "https://cdn.example/a.png"; image_at "https://cdn.example/b.png" ]);
      reflexivity.
  - apply (proj2 (unsettled_batch_no_answer unwritable_env initial_world) req_1
             (Some two_images) two_images
             [ image_at "https://cdn.example/a.png"; image_at "https://cdn.example/b.png" ]);
      reflexivity.
Defined.

(** ** What the tools leave alone *)

Lemma same_store_refl (w : World) : same_store w w.
Proof. repeat split. Qed.






(** generate_queue and queue_status, on every path and whatever the backend
    answers, leave the files, the directories, the HTTP requests, the clock
    and the download counter as they found them. *)
Theorem queue_tools_leave_store (env : Env) (falConfigured : bool)
    (q : QueueArgs.t) (s : StatusArgs.t) (w : World) :
  same_store w (snd (ideogram_v3_generate_queue env falConfigured q w))
  /\ same_store w (snd (ideogram_v3_queue_status env falConfigured s w)).
Proof.
  split.
  - apply (keeps_generate_queue same_store same_store_refl same_store_trans);
      intros ? ?; repeat split.
  - apply (keeps_queue_status same_store same_store_refl same_store_trans);
      intros ? ?; repeat split.
Qed.


(** No retry: on every path each tool calls the backend at most once. *)
Theorem tools_call_once (env : Env) (falConfigured : bool) (g : Input.t)
    (q : QueueArgs.t) (s : StatusArgs.t) (r : ResultArgs.t) (w : World) :
  at_most_one_call w (snd (ideogram_v3_generate env falConfigured g w))
  /\ at_most_one_call w (snd (ideogram_v3_generate_queue env falConfigured q w))
  /\ at_most_one_call w (snd (ideogram_v3_queue_status env falConfigured s w))
  /\ at_most_one_call w (snd (ideogram_v3_queue_result env falConfigured r w)).
Proof.
  unfold at_most_one_call.
  destruct falConfigured; [|repeat split; left; reflexivity].
  repeat split.
  - destruct (style_conflict (Input.style g) (Input.style_codes g)) eqn:Hs.
    { rewrite (generate_conflict env g w Hs). left. reflexivity. }
    right. eexists. apply generate_calls. exact Hs.
  - destruct (style_conflict (Input.style (QueueArgs.input q))
                (Input.style_codes (QueueArgs.input q))) eqn:Hs.
    { rewrite (queue_conflict env q w Hs). left. reflexivity. }
    destruct (queue_submitted env q w Hs) as (w' & -> & Hc & _).
    right. eexists. exact Hc.
  - destruct (status_run env s w) as (w' & -> & Hc & _). right. eexists. exact Hc.
  - right. eexists. apply result_calls.
Qed.

(** ** What the summaries say *)

Lemma append_empty_r (s : string) : s +:+ "" = s.
Proof.
  induction s as [|c s IH]; [reflexivity|].
  change (String c (s +:+ "") = String c s). f_equal. exact IH.
Qed.

Lemma includes_refl (s : string) : includes s s.
Proof. exists "", "". rewrite append_empty_r. reflexivity. Qed.

Lemma includes_app_l (t b s : string) : includes t s -> includes (t +:+ b) s.
Proof.
  intros (before & rest & ->). exists before, (rest +:+ b).
  rewrite !append_assoc. reflexivity.
Qed.

Lemma includes_trans (t s u : string) : includes t s -> includes s u -> includes t u.
Proof.
  intros (b1 & r1 & ->) (b2 & r2 & ->). exists (b1 +:+ b2), (r2 +:+ r1).
  rewrite !append_assoc. reflexivity.
Qed.

Lemma includes_join (sep x : string) (l : list string) :
  In x l -> includes (Js.join sep l) x.
Proof.
  induction l as [|y rest IH]; [intros []|].
  intros [->|Hin].
  - destruct rest; [apply includes_refl|]. cbn [Js.join].
    apply includes_app_l, includes_refl.
  - destruct rest as [|z rest]; [destruct Hin|]. cbn [Js.join].
    do 2 apply includes_skip. apply IH. exact Hin.
Qed.

Lemma details_includes_url (a : Downloaded.t) :
  includes (details a) ("  Original URL: " +:+ Downloaded.url a).
Proof.
  unfold details. do 4 apply includes_skip.
  exists Js.nl. eexists. rewrite !append_assoc. reflexivity.
Qed.

Lemma summaries_include_details (args : Input.t) (seed : option Js.number)
    (requestId request_id : string) (assets : list Downloaded.t) :
  includes (generate_responseText args seed requestId assets) (imageDetails assets)
  /\ includes (result_responseText request_id seed assets) (imageDetails assets)
  /\ ends_with (generate_responseText args seed requestId assets) (download_note assets)
  /\ ends_with (result_responseText request_id seed assets) (download_note assets).
Proof.
  unfold generate_responseText, result_responseText. cbn [Js.join].
  repeat split.
  - do 30 apply includes_skip. apply includes_app_l, includes_refl.
  - do 14 apply includes_skip. apply includes_app_l, includes_refl.
  - repeat apply ends_with_skip. apply ends_with_refl.
  - repeat apply ends_with_skip. apply ends_with_refl.
Qed.

Lemma url_listed (images : list Image.t) (assets : list Downloaded.t) (image : Image.t) :
  List.map Downloaded.url assets = List.map Image.url images ->
  In image images ->
  includes (imageDetails assets) ("  Original URL: " +:+ Image.url image).
Proof.
  intros Hmap Hin.
  apply (in_map Image.url) in Hin. rewrite <- Hmap in Hin.
  apply in_map_iff in Hin as (a & <- & Ha).
  eapply includes_trans; [|apply details_includes_url].
  unfold imageDetails. apply includes_join. apply in_map. exact Ha.
Qed.

(** When every download of the batch settles, every image URL of the
    backend's result is listed in the summary of generate, on a line
    "Original URL: ...", whether its download was complete or rejected.
    The same holds for queue_result. *)
Theorem every_url_listed (env : Env) (w : World) :
  (forall (args : Input.t) (result : SubscribeResult.t) (o : IdeogramImageResult.t)
     (images : list Image.t),
     style_conflict (Input.style args) (Input.style_codes args) = false ->
     snd (subscribe env (generate_input args)) = Resolves result ->
     well_formed (SubscribeResult.data result) = Some (o, images) ->
     batch_settles env w (List.length images) = true ->
     exists text w',
       ideogram_v3_generate env true args w = (Ok (text_result text), w')
       /\ forall image, In image images ->
            includes text ("  Original URL: " +:+ Image.url image))
  /\ (forall (rargs : ResultArgs.t) (output : option IdeogramImageResult.t)
        (o : IdeogramImageResult.t) (images : list Image.t),
        queue_result env (ResultArgs.request_id rargs) = Resolves output ->
        well_formed output = Some (o, images) ->
        batch_settles env w (List.length images) = true ->
        exists text w',
          ideogram_v3_queue_result env true rargs w = (Ok (text_result text), w')
          /\ forall image, In image images ->
               includes text ("  Original URL: " +:+ Image.url image)).
Proof.
  split.
  - intros args result o images Hs Hr Hw Hset.
    destruct (generate_resolved env args w result o images Hs Hr Hw Hset)
      as (w0 & w' & _ & _ & -> & _).
    do 2 eexists. split; [reflexivity|]. intros image Hin.
    eapply includes_trans; [apply summaries_include_details; exact ""|].
    eapply url_listed; [|exact Hin]. apply imap_pushed_materialized.
  - intros rargs output o images Hr Hw Hset.
    destruct (result_resolved env rargs w output o images Hr Hw Hset)
      as (w0 & w' & _ & _ & -> & _).
    do 2 eexists. split; [reflexivity|]. intros image Hin.
    eapply includes_trans;
      [apply (summaries_include_details red_circle _ "" _ _)|].
    eapply url_listed; [|exact Hin]. apply imap_pushed_materialized.
Qed.

Lemma every_url_listed_witness :
  (exists text w',
     ideogram_v3_generate demo_env true red_circle initial_world
     = (Ok (text_result text), w')
     /\ forall image,
          In image [ image_at "https://cdn.example/a.png"; image_at "https://cdn.example/b.png" ] ->
          includes text ("  Original URL: " +:+ Image.url image))
  /\ (exists text w',
        ideogram_v3_queue_result demo_env true req_1 initial_world
        = (Ok (text_result text), w')
        /\ forall image,
             In image [ image_at "https://cdn.example/a.png"; image_at "https://cdn.example/b.png" ] ->
             includes text ("  Original URL: " +:+ Image.url image)).
Proof.
  destruct (every_url_listed demo_env initial_world) as [Hg Hr]. split.
  - apply (Hg red_circle
             {| SubscribeResult.data := Some two_images;
                SubscribeResult.requestId := "req-1" |} two_images
             [ image_at "https://cdn.example/a.png"; image_at "https://cdn.example/b.png" ]);
      reflexivity.
  - apply (Hr req_1 (Some two_images) two_images
             [ image_at "https://cdn.example/a.png"; image_at "https://cdn.example/b.png" ]);
      reflexivity.
Defined.

Lemma path_join_truthy (d n : string) : Js.truthy_string (path_join d n) = true.
Proof. unfold path_join. destruct d; reflexivity. Qed.

Lemma existsb_imap_count {A B} (p q : B -> bool) (l : list A) :
  forall f : nat -> A -> B,
  (forall k x, p (f k x) = q (f k x)) ->
  existsb p (imap f l) = (0 <? count q (imap f l))%nat.
Proof.
  unfold count. induction l as [|x l IH]; intros f H; [reflexivity|].
  cbn [imap existsb List.filter]. rewrite H.
  destruct (q (f 0%nat x)); [reflexivity|]. cbn [orb]. apply IH. intros k y. apply H.
Qed.

Lemma download_note_pushed (env : Env) (label : string) (seed : option Js.number)
    (w : World) (images : list Image.t) :
  download_note (imap (pushed env label seed (clock w) (downloads w) 0) images)
  = if (failures env w (List.length images) <? List.length images)%nat
    then downloaded_note else failed_note.
Proof.
  unfold download_note.
  rewrite (existsb_imap_count _ has_local_path).
  - destruct (imap_pushed_materialized env label seed w images)
      as (_ & _ & _ & _ & Hok & Hko).
    pose proof (count_complement has_local_path
                  (imap (pushed env label seed (clock w) (downloads w) 0) images)) as Hsum.
    rewrite length_imap in Hsum. rewrite Hok.
    destruct (0 <? _)%nat eqn:E1, (failures env w _ <? _)%nat eqn:E2;
      try reflexivity;
      [apply Nat.ltb_lt in E1; apply Nat.ltb_ge in E2
      |apply Nat.ltb_ge in E1; apply Nat.ltb_lt in E2]; lia.
  - intros k x. unfold pushed, entry, has_local_path. cbn [Downloaded.localPath].
    destruct (download_ok _); [|reflexivity]. apply path_join_truthy.
Qed.

(** When every download of the batch settles, the closing sentence of the
    summary of generate says that images were downloaded as soon as one
    download of the batch was complete; the note about a failed local
    download closes the summary only when none was.  A partly failed batch
    is not announced as such.  The same holds for queue_result. *)
Theorem summary_closing_sentence (env : Env) (w : World) :
  (forall (args : Input.t) (result : SubscribeResult.t) (o : IdeogramImageResult.t)
     (images : list Image.t),
     style_conflict (Input.style args) (Input.style_codes args) = false ->
     snd (subscribe env (generate_input args)) = Resolves result ->
     well_formed (SubscribeResult.data result) = Some (o, images) ->
     batch_settles env w (List.length images) = true ->
     exists text w',
       ideogram_v3_generate env true args w = (Ok (text_result text), w')
       /\ ends_with text
            (if (failures env w (List.length images) <? List.length images)%nat
             then downloaded_note else failed_note))
  /\ (forall (rargs : ResultArgs.t) (output : option IdeogramImageResult.t)
        (o : IdeogramImageResult.t) (images : list Image.t),
        queue_result env (ResultArgs.request_id rargs) = Resolves output ->
        well_formed output = Some (o, images) ->
        batch_settles env w (List.length images) = true ->
        exists text w',
          ideogram_v3_queue_result env true rargs w = (Ok (text_result text), w')
          /\ ends_with text
               (if (failures env w (List.length images) <? List.length images)%nat
                then downloaded_note else failed_note)).
Proof.
  split.
  - intros args result o images Hs Hr Hw Hset.
    destruct (generate_resolved env args w result o images Hs Hr Hw Hset)
      as (w0 & w' & _ & _ & -> & _).
    do 2 eexists. split; [reflexivity|].
    rewrite <- (download_note_pushed env (Input.prompt args) (IdeogramImageResult.seed o)).
    apply summaries_include_details. exact "".
  - intros rargs output o images Hr Hw Hset.
    destruct (result_resolved env rargs w output o images Hr Hw Hset)
      as (w0 & w' & _ & _ & -> & _).
    do 2 eexists. split; [reflexivity|].
    rewrite <- (download_note_pushed env ("queue_result_" +:+ ResultArgs.request_id rargs)
                  (IdeogramImageResult.seed o)).
    apply (summaries_include_details red_circle _ "" _ _).
Qed.

(** Two images, the second download fails: the summary closes with the
    sentence about downloaded images. *)
Lemma summary_closing_sentence_witness :
  (exists text w',
     ideogram_v3_generate demo_env true red_circle initial_world
     = (Ok (text_result text), w')
     /\ ends_with text downloaded_note)
  /\ (exists text w',
        ideogram_v3_queue_result demo_env true req_1 initial_world
        = (Ok (text_result text), w')
        /\ ends_with text downloaded_note).
Proof.
  destruct (summary_closing_sentence demo_env initial_world) as [Hg Hr]. split.
  - apply (Hg red_circle
             {| SubscribeResult.data := Some two_images;
                SubscribeResult.requestId := "req-1" |} two_images
             [ image_at "https://cdn.example/a.png"; image_at "https://cdn.example/b.png" ]);
      reflexivity.
  - apply (Hr req_1 (Some two_images) two_images
             [ image_at "https://cdn.example/a.png"; image_at "https://cdn.example/b.png" ]);
      reflexivity.
Defined.
(** ** The log does not interfere *)

Lemma agree_ret {A} (a : A) : agree (ret a) (ret a).
Proof. intros w1 w2 H. split; [reflexivity|exact H]. Qed.

Lemma agree_throw {A} (e : Thrown) : agree (@throw A e) (throw e).
Proof. intros w1 w2 H. split; [reflexivity|exact H]. Qed.

Lemma agree_uncaught {A} (e : Thrown) : agree (@uncaught A e) (uncaught e).
Proof. intros w1 w2 H. split; [reflexivity|exact H]. Qed.

Lemma agree_pending {A} : agree (@pending A) pending.
Proof. intros w1 w2 H. split; [reflexivity|exact H]. Qed.

Lemma agree_await {A} (r : Reply A) : agree (await r) (await r).
Proof. destruct r; [apply agree_ret | apply agree_throw]. Qed.

Lemma agree_bind {A B} (m1 m2 : M A) (k1 k2 : A -> M B) :
  agree m1 m2 -> (forall a, agree (k1 a) (k2 a)) -> agree (bind m1 k1) (bind m2 k2).
Proof.
  intros Hm Hk w1 w2 H. unfold bind. destruct (Hm w1 w2 H) as [Hf Hq].
  destruct (m1 w1) as [[a1|e1|e1|] w1'], (m2 w2) as [[a2|e2|e2|] w2'];
    cbn [fst snd] in *; try discriminate.
  - injection Hf as <-. apply Hk. exact Hq.
  - injection Hf as <-. split; [reflexivity|exact Hq].
  - injection Hf as <-. split; [reflexivity|exact Hq].
  - split; [reflexivity|exact Hq].
Qed.

Lemma agree_try_catch {A} (m1 m2 : M A) (h1 h2 : Thrown -> M A) :
  agree m1 m2 -> (forall e, agree (h1 e) (h2 e)) ->
  agree (try_catch m1 h1) (try_catch m2 h2).
Proof.
  intros Hm Hh w1 w2 H. unfold try_catch. destruct (Hm w1 w2 H) as [Hf Hq].
  destruct (m1 w1) as [[a1|e1|e1|] w1'], (m2 w2) as [[a2|e2|e2|] w2'];
    cbn [fst snd] in *; try discriminate.
  - split; assumption.
  - injection Hf as <-. apply Hh. exact Hq.
  - split; assumption.
  - split; assumption.
Qed.

(** Whatever is logged. *)
Lemma agree_console_error (l1 l2 : list LogArg) :
  agree (console_error l1) (console_error l2).
Proof. intros w1 w2 H. split; [reflexivity|exact H]. Qed.

Lemma agree_log_nothing (args : list LogArg) : agree (console_error args) (ret tt).
Proof. intros w1 w2 H. split; [reflexivity|exact H]. Qed.

Lemma agree_unit_skip (m1 m2 : M unit) :
  agree m1 (ret tt) -> agree (ret tt) m2 -> agree m1 m2.
Proof.
  intros H1 H2 w1 w2 H. destruct (H1 w1 w1 (quiet_refl w1)) as [Hf1 Hq1].
  destruct (H2 w1 w2 H) as [Hf2 Hq2]. cbn [ret fst snd] in *.
  split; [congruence|].
  unfold quiet in *. intuition congruence.
Qed.

Lemma agree_bind_left (m : M unit) (k : unit -> M unit) :
  agree m (ret tt) -> agree (k tt) (ret tt) -> agree (bind m k) (ret tt).
Proof.
  intros Hm Hk w1 w2 H. unfold bind. destruct (Hm w1 w2 H) as [Hf Hq].
  destruct (m w1) as [[[]|e|e|] w1']; cbn [ret fst snd] in *; try discriminate.
  apply Hk. exact Hq.
Qed.

Lemma agree_forEach_left (array rest : list string) :
  forall index, agree (forEach_console_error rest index array) (ret tt).
Proof.
  induction rest as [|message rest IH]; intros index; [apply agree_ret|].
  cbn [forEach_console_error]. apply agree_bind_left; [apply agree_log_nothing | apply IH].
Qed.

Lemma agree_updates_left (updates : list QueueUpdate.t) :
  agree (onQueueUpdates updates) (ret tt).
Proof.
  induction updates as [|u updates IH]; [apply agree_ret|].
  cbn [onQueueUpdates]. apply agree_bind_left; [|exact IH].
  unfold onQueueUpdate.
  destruct (String.eqb _ _); [apply agree_forEach_left | apply agree_ret].
Qed.

Lemma agree_sym_unit (m : M unit) : agree m (ret tt) -> agree (ret tt) m.
Proof.
  intros Hm w1 w2 H. destruct (Hm w2 w2 (quiet_refl w2)) as [Hf Hq].
  cbn [ret fst snd] in *. split; [congruence|].
  unfold quiet in *. intuition congruence.
Qed.

Lemma agree_updates (u1 u2 : list QueueUpdate.t) :
  agree (onQueueUpdates u1) (onQueueUpdates u2).
Proof.
  apply agree_unit_skip; [apply agree_updates_left|].
  apply agree_sym_unit, agree_updates_left.
Qed.

Lemma agree_modify (f : World -> World) :
  (forall w1 w2, quiet w1 w2 -> quiet (f w1) (f w2)) -> agree (modify f) (modify f).
Proof. intros Hf w1 w2 H. split; [reflexivity|]. apply Hf. exact H. Qed.

Lemma agree_record_call (c : Call) : agree (record_call c) (record_call c).
Proof.
  apply agree_modify. unfold quiet. intros w1 w2 H. cbn. intuition congruence.
Qed.

Lemma agree_record_request (url : string) : agree (record_request url) (record_request url).
Proof.
  apply agree_modify. unfold quiet. intros w1 w2 H. cbn. intuition congruence.
Qed.

Lemma agree_set_files (f : gmap string string -> gmap string string) :
  agree (set_files f) (set_files f).
Proof.
  apply agree_modify. unfold quiet. intros w1 w2 H. cbn. intuition congruence.
Qed.

Lemma agree_ensure_dir (d : string) : agree (ensure_dir d) (ensure_dir d).
Proof.
  apply agree_modify. unfold quiet. intros w1 w2 H. cbn. intuition congruence.
Qed.

Section Agree.

Variable env : Env.

Lemma agree_now : agree (now env) (now env).
Proof.
  intros w1 w2 H. unfold now, quiet in *. cbn. intuition congruence.
Qed.

Lemma agree_next_download : agree (next_download env) (next_download env).
Proof.
  intros w1 w2 H. unfold next_download, quiet in *. cbn. intuition congruence.
Qed.

Lemma agree_downloadImage (url filename : string) :
  agree (downloadImage env url filename) (downloadImage env url filename).
Proof.
  unfold downloadImage. apply agree_bind; [apply agree_next_download|].
  intros [msg|msg|msg|after]; try apply agree_throw.
  { apply agree_bind; [apply agree_ensure_dir|]. intros _.
    apply agree_bind; [apply agree_record_request | intros _; apply agree_uncaught]. }
  apply agree_bind; [apply agree_ensure_dir|]. intros _.
  apply agree_bind; [apply agree_set_files|]. intros _.
  destruct after as [msg|msg| |st body stream].
  - apply agree_throw.
  - apply agree_bind; [apply agree_record_request | intros _; apply agree_throw].
  - apply agree_bind; [apply agree_record_request | intros _; apply agree_pending].
  - apply agree_bind; [apply agree_record_request|]. intros _.
    destruct (negb (st =? 200)%nat); [apply agree_throw|].
    destruct stream.
    + apply agree_bind; [apply agree_set_files | intros _; apply agree_ret].
    + apply agree_bind; [apply agree_set_files|]. intros _.
      apply agree_bind; [apply agree_set_files | intros _; apply agree_throw].
    + apply agree_bind; [apply agree_set_files | intros _; apply agree_pending].
Qed.

Lemma agree_download_loop (label : string) (seed : option Js.number) (images : list Image.t) :
  forall (i : nat) (acc : list Downloaded.t),
  agree (download_loop env label seed images i acc)
        (download_loop env label seed images i acc).
Proof.
  induction images as [|image rest IH]; intros i acc; [apply agree_ret|].
  cbn [download_loop]. apply agree_bind; [|intros; apply IH].
  unfold loop_body, generateImageFilename.
  apply agree_bind; [apply agree_bind; [apply agree_now | intros; apply agree_ret]|].
  intros filename. apply agree_try_catch.
  - apply agree_bind; [apply agree_downloadImage|]. intros p.
    apply agree_bind; [apply agree_console_error | intros _; apply agree_ret].
  - intros e. apply agree_bind; [apply agree_console_error | intros _; apply agree_ret].
Qed.

Lemma agree_output_images (output : option IdeogramImageResult.t) :
  agree (output_images output) (output_images output).
Proof.
  unfold output_images. destruct output as [o|]; [|apply agree_throw].
  destruct (IdeogramImageResult.images o); [apply agree_ret | apply agree_throw].
Qed.

Lemma agree_generate (updates : Input.t -> list QueueUpdate.t) (falConfigured : bool)
    (args : Input.t) :
  agree (ideogram_v3_generate (with_updates updates env) falConfigured args)
        (ideogram_v3_generate env falConfigured args).
Proof.
  unfold ideogram_v3_generate. destruct falConfigured; [|apply agree_ret].
  cbn [negb]. apply agree_try_catch.
  - destruct (style_conflict _ _); [apply agree_ret|].
    apply agree_bind; [apply agree_console_error|]. intros _.
    apply agree_bind.
    { unfold fal_subscribe. apply agree_bind; [apply agree_record_call|]. intros _.
      apply agree_bind; [apply agree_updates|]. intros _. apply agree_await. }
    intros result. apply agree_bind; [apply agree_console_error|]. intros _.
    apply agree_bind; [apply agree_output_images|]. intros oi.
    apply agree_bind; [apply agree_download_loop | intros; apply agree_ret].
  - intros e. apply agree_bind; [apply agree_console_error | intros _; apply agree_ret].
Qed.

Lemma agree_generate_queue (falConfigured : bool) (args : QueueArgs.t) :
  agree (ideogram_v3_generate_queue env falConfigured args)
        (ideogram_v3_generate_queue env falConfigured args).
Proof.
  unfold ideogram_v3_generate_queue. destruct falConfigured; [|apply agree_ret].
  cbn [negb]. apply agree_try_catch.
  - destruct (style_conflict _ _); [apply agree_ret|].
    apply agree_bind; [apply agree_console_error|]. intros _.
    apply agree_bind; [|intros; apply agree_ret].
    unfold fal_queue_submit. apply agree_bind; [apply agree_record_call|].
    intros _. apply agree_await.
  - intros e. apply agree_bind; [apply agree_console_error | intros _; apply agree_ret].
Qed.

Lemma agree_queue_status (falConfigured : bool) (args : StatusArgs.t) :
  agree (ideogram_v3_queue_status env falConfigured args)
        (ideogram_v3_queue_status env falConfigured args).
Proof.
  unfold ideogram_v3_queue_status. destruct falConfigured; [|apply agree_ret].
  cbn [negb]. apply agree_try_catch.
  - apply agree_bind; [apply agree_console_error|]. intros _.
    apply agree_bind; [|intros; apply agree_ret].
    unfold fal_queue_status. apply agree_bind; [apply agree_record_call|].
    intros _. apply agree_await.
  - intros e. apply agree_bind; [apply agree_console_error | intros _; apply agree_ret].
Qed.

Lemma agree_queue_result (falConfigured : bool) (args : ResultArgs.t) :
  agree (ideogram_v3_queue_result env falConfigured args)
        (ideogram_v3_queue_result env falConfigured args).
Proof.
  unfold ideogram_v3_queue_result. destruct falConfigured; [|apply agree_ret].
  cbn [negb]. apply agree_try_catch.
  - apply agree_bind; [apply agree_console_error|]. intros _.
    apply agree_bind.
    { unfold fal_queue_result. apply agree_bind; [apply agree_record_call|]. intros _.
      apply agree_await. }
    intros output. apply agree_bind; [apply agree_console_error|]. intros _.
    apply agree_bind; [apply agree_output_images|]. intros oi.
    apply agree_bind; [apply agree_download_loop | intros; apply agree_ret].
  - intros e. apply agree_bind; [apply agree_console_error | intros _; apply agree_ret].
Qed.

End Agree.

(** The log is write-only, and progress updates only reach the log: started
    in two worlds that differ in the log at most, a tool returns the same
    answer and leaves the same calls, requests, files, directories, clock
    and download counter; for generate this holds whatever progress updates
    the backend reports while it waits. *)
Theorem log_does_not_interfere (env : Env) (updates : Input.t -> list QueueUpdate.t)
    (falConfigured : bool) (g : Input.t) (q : QueueArgs.t) (s : StatusArgs.t)
    (r : ResultArgs.t) (w1 w2 : World) :
  quiet w1 w2 ->
  (fst (ideogram_v3_generate (with_updates updates env) falConfigured g w1)
   = fst (ideogram_v3_generate env falConfigured g w2)
   /\ quiet (snd (ideogram_v3_generate (with_updates updates env) falConfigured g w1))
        (snd (ideogram_v3_generate env falConfigured g w2)))
  /\ (fst (ideogram_v3_generate_queue env falConfigured q w1)
      = fst (ideogram_v3_generate_queue env falConfigured q w2)
      /\ quiet (snd (ideogram_v3_generate_queue env falConfigured q w1))
           (snd (ideogram_v3_generate_queue env falConfigured q w2)))
  /\ (fst (ideogram_v3_queue_status env falConfigured s w1)
      = fst (ideogram_v3_queue_status env falConfigured s w2)
      /\ quiet (snd (ideogram_v3_queue_status env falConfigured s w1))
           (snd (ideogram_v3_queue_status env falConfigured s w2)))
  /\ (fst (ideogram_v3_queue_result env falConfigured r w1)
      = fst (ideogram_v3_queue_result env falConfigured r w2)
      /\ quiet (snd (ideogram_v3_queue_result env falConfigured r w1))
           (snd (ideogram_v3_queue_result env falConfigured r w2))).
Proof.
  intros H. split; [|split; [|split]].
  - apply agree_generate. exact H.
  - apply agree_generate_queue. exact H.
  - apply agree_queue_status. exact H.
  - apply agree_queue_result. exact H.
Qed.

Lemma log_does_not_interfere_witness :
  fst (ideogram_v3_generate (with_updates progress demo_env) true red_circle logged_world)
  = fst (ideogram_v3_generate demo_env true red_circle initial_world)
  /\ quiet (snd (ideogram_v3_generate (with_updates progress demo_env) true red_circle
                   logged_world))
       (snd (ideogram_v3_generate demo_env true red_circle initial_world)).
Proof.
  apply (log_does_not_interfere demo_env progress true red_circle
           {| QueueArgs.webhook_url := None; QueueArgs.input := red_circle |}
           {| StatusArgs.request_id := "req-1"; StatusArgs.logs := None |}
           req_1 logged_world initial_world).
  repeat split.
Defined.

(** What [forEach(console.error)] writes for the second message of an
    update in progress: the message, its index and the array of messages. *)
Example progress_is_logged :
  stderr (snd (ideogram_v3_generate (with_updates progress demo_env) true both_set
                 logged_world))
  = [ [LogString "earlier output"] ]
  /\ stderr (snd (ideogram_v3_generate (with_updates progress demo_env) true
                    red_circle logged_world)) !! 3%nat
     = Some [ LogString "step 2"; LogNumber 1; LogArray [ "step 1"; "step 2" ] ]
  /\ List.length (stderr (snd (ideogram_v3_generate (with_updates progress demo_env) true
                                 red_circle logged_world))) = 7%nat.
Proof. vm_compute. repeat split. Qed.

(** ** The credential gate *)

Lemma startup_no_key (key : option string) :
  Process.falConfigured (startup key) = false <-> no_key key.
Proof.
  unfold no_key, startup. destruct key as [[|c k]|]; cbn; split; auto;
    try discriminate; intros [H|H]; discriminate.
Qed.

Lemma failure_not_notConfigured (prefix : string) (e : Thrown) :
  (exists rest, prefix = String "F" rest) ->
  errorMessage prefix e
  <> "Error: FAL_KEY environment variable is not set. Please configure your fal.ai API key.".
Proof. intros [rest ->]. destruct e; cbn; discriminate. Qed.

(** Each tool answers NotConfigured exactly when FAL_KEY was absent or empty
    at start-up: an empty key counts as no key, and with a non-empty key
    no path of a tool produces that answer. *)
Theorem credential_gate (key : option string) (env : Env) (g : Input.t)
    (q : QueueArgs.t) (s : StatusArgs.t) (r : ResultArgs.t) (w : World) :
  let falConfigured := Process.falConfigured (startup key) in
  (fst (ideogram_v3_generate env falConfigured g w) = Ok notConfigured <-> no_key key)
  /\ (fst (ideogram_v3_generate_queue env falConfigured q w) = Ok notConfigured
      <-> no_key key)
  /\ (fst (ideogram_v3_queue_status env falConfigured s w) = Ok notConfigured
      <-> no_key key)
  /\ (fst (ideogram_v3_queue_result env falConfigured r w) = Ok notConfigured
      <-> no_key key).
Proof.
  cbv zeta. rewrite <- startup_no_key.
  destruct (Process.falConfigured (startup key)).
  2: { repeat split; reflexivity. }
  assert (Htext : forall text, text_result text <> notConfigured) by discriminate.
  assert (Hfail : forall prefix e,
            (exists rest, prefix = String "F" rest) ->
            error_result (errorMessage prefix e) <> notConfigured).
  { intros prefix e Hp [= H]. revert H. apply failure_not_notConfigured. exact Hp. }
  split; [|split; [|split]]; (split; [|discriminate]); intros H; exfalso.
  - destruct (ideogram_v3_generate env true g w) as [[a|e|e|] w'] eqn:E;
      try discriminate. injection H as ->. revert E.
    assert (Hret : returns (fun a => a <> notConfigured) (ideogram_v3_generate env true g)).
    { apply generate_returns; [discriminate | exact Htext |].
      intros e. apply Hfail. eexists. reflexivity. }
    intros E. apply (Hret w _ w' E). reflexivity.
  - destruct (ideogram_v3_generate_queue env true q w) as [[a|e|e|] w'] eqn:E;
      try discriminate. injection H as ->. revert E.
    assert (Hret : returns (fun a => a <> notConfigured)
                     (ideogram_v3_generate_queue env true q)).
    { apply generate_queue_returns; [discriminate | exact Htext |].
      intros e. apply Hfail. eexists. reflexivity. }
    intros E. apply (Hret w _ w' E). reflexivity.
  - destruct (ideogram_v3_queue_status env true s w) as [[a|e|e|] w'] eqn:E;
      try discriminate. injection H as ->. revert E.
    assert (Hret : returns (fun a => a <> notConfigured)
                     (ideogram_v3_queue_status env true s)).
    { apply queue_status_returns; [exact Htext|].
      intros e. apply Hfail. eexists. reflexivity. }
    intros E. apply (Hret w _ w' E). reflexivity.
  - destruct (ideogram_v3_queue_result env true r w) as [[a|e|e|] w'] eqn:E;
      try discriminate. injection H as ->. revert E.
    assert (Hret : returns (fun a => a <> notConfigured)
                     (ideogram_v3_queue_result env true r)).
    { apply queue_result_returns; [exact Htext|].
      intros e. apply Hfail. eexists. reflexivity. }
    intros E. apply (Hret w _ w' E). reflexivity.
Qed.

Example empty_key_not_configured :
  ideogram_v3_queue_status demo_env (Process.falConfigured (startup (Some "")))
    {| StatusArgs.request_id := "req-1"; StatusArgs.logs := None |} initial_world
  = (Ok notConfigured, initial_world).
Proof. reflexivity. Qed.

(** ** Failures of the backend *)

(** When the backend rejects the call of a tool, the tool's answer is its
    failure sentence followed by " Error: " and the backend's message, or
    the sentence alone when what was thrown is not an Error; [isError] is
    set, and generate and queue_result attempt no download. *)
Theorem backend_error_surfaced (env : Env) (w : World) :
  let surfaced prefix e :=
    {| ToolResult.content :=
         [ {| Content.type := "text";
              Content.text := match e with
                              | ErrorObj message => prefix +:+ " Error: " +:+ message
                              | OtherValue => prefix
                              end |} ];
       ToolResult.isError := Some true |} in
  (forall (g : Input.t) (e : Thrown),
     style_conflict (Input.style g) (Input.style_codes g) = false ->
     snd (subscribe env (generate_input g)) = Rejects e ->
     fst (ideogram_v3_generate env true g w)
     = Ok (surfaced "Failed to generate image with fal-ai/ideogram/v3." e)
     /\ downloads (snd (ideogram_v3_generate env true g w)) = downloads w)
  /\ (forall (q : QueueArgs.t) (e : Thrown),
        style_conflict (Input.style (QueueArgs.input q))
          (Input.style_codes (QueueArgs.input q)) = false ->
        queue_submit env (QueueArgs.input q) (QueueArgs.webhook_url q) = Rejects e ->
        fst (ideogram_v3_generate_queue env true q w)
        = Ok (surfaced "Failed to submit queue request for fal-ai/ideogram/v3." e))
  /\ (forall (s : StatusArgs.t) (e : Thrown),
        queue_status env (StatusArgs.request_id s) (default true (StatusArgs.logs s))
        = Rejects e ->
        fst (ideogram_v3_queue_status env true s w)
        = Ok (surfaced "Failed to check queue status." e))
  /\ (forall (r : ResultArgs.t) (e : Thrown),
        queue_result env (ResultArgs.request_id r) = Rejects e ->
        fst (ideogram_v3_queue_result env true r w)
        = Ok (surfaced "Failed to get queue result." e)
        /\ downloads (snd (ideogram_v3_queue_result env true r w)) = downloads w).
Proof.
  cbv zeta. split; [|split; [|split]].
  - intros g e Hs Hr.
    destruct (generate_rejected env g w e Hs Hr) as (w' & -> & _ & Hd).
    split; [reflexivity | exact Hd].
  - intros q e Hs Hr.
    destruct (queue_submitted env q w Hs) as (w' & -> & _). rewrite Hr. reflexivity.
  - intros s e Hr.
    destruct (status_run env s w) as (w' & -> & _). rewrite Hr. reflexivity.
  - intros r e Hr.
    destruct (result_rejected env r w e Hr) as (w' & -> & _ & Hd).
    split; [reflexivity | exact Hd].
Qed.

Lemma backend_error_surfaced_witness :
  fst (ideogram_v3_generate (failing_env (ErrorObj "quota exceeded")) true red_circle
         initial_world)
  = Ok (error_result
          "Failed to generate image with fal-ai/ideogram/v3. Error: quota exceeded")
  /\ fst (ideogram_v3_generate_queue (failing_env OtherValue) true
            {| QueueArgs.webhook_url := None; QueueArgs.input := red_circle |}
            initial_world)
     = Ok (error_result "Failed to submit queue request for fal-ai/ideogram/v3.")
  /\ fst (ideogram_v3_queue_status (failing_env (ErrorObj "not found")) true
            {| StatusArgs.request_id := "req-1"; StatusArgs.logs := None |} initial_world)
     = Ok (error_result "Failed to check queue status. Error: not found")
  /\ fst (ideogram_v3_queue_result (failing_env (ErrorObj "not ready")) true req_1
            initial_world)
     = Ok (error_result "Failed to get queue result. Error: not ready").
Proof.
  split; [|split; [|split]].
  - apply (proj1 (backend_error_surfaced (failing_env (ErrorObj "quota exceeded"))
                    initial_world) red_circle (ErrorObj "quota exceeded"));
      reflexivity.
  - apply (proj1 (proj2 (backend_error_surfaced (failing_env OtherValue) initial_world))
             {| QueueArgs.webhook_url := None; QueueArgs.input := red_circle |}
             OtherValue); reflexivity.
  - apply (proj1 (proj2 (proj2 (backend_error_surfaced (failing_env (ErrorObj "not found"))
                                  initial_world)))
             {| StatusArgs.request_id := "req-1"; StatusArgs.logs := None |}
             (ErrorObj "not found")); reflexivity.
  - apply (proj2 (proj2 (proj2 (backend_error_surfaced (failing_env (ErrorObj "not ready"))
                                  initial_world)))
             req_1 (ErrorObj "not ready")); reflexivity.
Defined.

(** ** More on payloads *)

Lemma generate_input_no_conflict (args : Input.t) :
  style_conflict (Input.style (generate_input args))
    (Input.style_codes (generate_input args))
  = style_conflict (Input.style args) (Input.style_codes args).
Proof.
  rewrite generate_input_style. cbn [generate_input Input.style_codes].
  unfold style_conflict. destruct (Input.style_codes args) as [[|c l]|]; reflexivity.
Qed.

(** The backend never receives a generation request that uses a style
    together with style codes: whenever generate or generate_queue call the
    backend, the payload of that one call has [style] unset or [style_codes]
    missing or empty. *)
Theorem no_conflicting_payload (env : Env) (falConfigured : bool) (g : Input.t)
    (q : QueueArgs.t) (w : World) :
  (calls (snd (ideogram_v3_generate env falConfigured g w)) = calls w
   \/ (calls (snd (ideogram_v3_generate env falConfigured g w))
       = (calls w ++ [CallSubscribe (generate_input g)])%list
       /\ ~ both_styles (generate_input g)))
  /\ (calls (snd (ideogram_v3_generate_queue env falConfigured q w)) = calls w
      \/ (calls (snd (ideogram_v3_generate_queue env falConfigured q w))
          = (calls w ++ [CallQueueSubmit (QueueArgs.input q) (QueueArgs.webhook_url q)])%list
          /\ ~ both_styles (QueueArgs.input q))).
Proof.
  destruct falConfigured; [|split; left; reflexivity].
  destruct q as [webhook input]. cbn [QueueArgs.input QueueArgs.webhook_url].
  split.
  - destruct (dispatch env g None w) as [Hyes Hno]. cbv zeta in Hyes, Hno.
    destruct (style_conflict (Input.style g) (Input.style_codes g)) eqn:Hs.
    + destruct (Hyes eq_refl) as [-> _]. left. reflexivity.
    + destruct (Hno eq_refl) as (_ & _ & Hc & _). right. split; [exact Hc|].
      rewrite <- style_conflict_both, generate_input_no_conflict, Hs. discriminate.
  - destruct (dispatch env input webhook w) as [Hyes Hno]. cbv zeta in Hyes, Hno.
    destruct (style_conflict (Input.style input) (Input.style_codes input)) eqn:Hs.
    + destruct (Hyes eq_refl) as [_ ->]. left. reflexivity.
    + destruct (Hno eq_refl) as (_ & _ & _ & Hc). right. split; [exact Hc|].
      rewrite <- style_conflict_both, Hs. discriminate.
Qed.

(** The payload generate builds is already complete: building a payload
    from it changes nothing, so generate_queue called with it forwards
    exactly what generate sends. *)
Theorem generate_input_idempotent (args : Input.t) :
  generate_input (generate_input args) = generate_input args
  /\ explicit (generate_input args).
Proof.
  assert (H : explicit (generate_input args)).
  { unfold explicit. cbn [generate_input Input.negative_prompt Input.image_size
      Input.rendering_speed Input.expand_prompt Input.num_images Input.sync_mode
      Input.style_codes Input.image_urls].
    repeat split; try (eexists; reflexivity).
    - destruct (Input.style_codes args) as [[|? ?]|]; cbn; discriminate.
    - destruct (Input.image_urls args) as [[|? ?]|]; cbn; discriminate. }
  split; [|exact H]. apply generate_input_same. exact H.
Qed.

(** ** The queue tools *)

(** When the backend accepts the submission, generate_queue answers with a
    text that gives the request id and says which webhook is in use; a
    webhook URL that is the empty string is passed on to the backend as it
    is, yet reported as no webhook. *)
Theorem queue_submit_answer (env : Env) (w : World) (q : QueueArgs.t) (request_id : string) :
  style_conflict (Input.style (QueueArgs.input q))
    (Input.style_codes (QueueArgs.input q)) = false ->
  queue_submit env (QueueArgs.input q) (QueueArgs.webhook_url q) = Resolves request_id ->
  exists text w',
    ideogram_v3_generate_queue env true q w = (Ok (text_result text), w')
    /\ calls w' = (calls w ++ [CallQueueSubmit (QueueArgs.input q)
                                 (QueueArgs.webhook_url q)])%list
    /\ starts_with text "Successfully submitted image generation request to queue."
    /\ includes text (Js.nl +:+ "Request ID: " +:+ request_id +:+ Js.nl)
    /\ includes text
         (Js.nl +:+
          match QueueArgs.webhook_url q with
          | None | Some "" => "No webhook configured"
          | Some url => "Webhook URL: " +:+ url
          end +:+ Js.nl).
Proof.
  intros Hs Hr. destruct (queue_submitted env q w Hs) as (w' & -> & Hc & _).
  rewrite Hr. do 2 eexists. split; [reflexivity|]. split; [exact Hc|].
  unfold queue_responseText. cbn [Js.join]. repeat split.
  - eexists. reflexivity.
  - do 3 apply includes_skip. exists "". eexists. cbn.
    rewrite !append_assoc. reflexivity.
  - do 7 apply includes_skip. exists "". eexists.
    destruct (QueueArgs.webhook_url q) as [[|c url]|]; cbn;
      rewrite ?append_assoc; reflexivity.
Qed.

Lemma queue_submit_answer_witness :
  exists text w',
    ideogram_v3_generate_queue demo_env true
      {| QueueArgs.webhook_url := Some ""; QueueArgs.input := red_circle |} initial_world
    = (Ok (text_result text), w')
    /\ calls w' = [ CallQueueSubmit red_circle (Some "") ]
    /\ starts_with text "Successfully submitted image generation request to queue."
    /\ includes text (Js.nl +:+ "Request ID: " +:+ "req-1" +:+ Js.nl)
    /\ includes text (Js.nl +:+ "No webhook configured" +:+ Js.nl).
Proof.
  apply (queue_submit_answer demo_env initial_world
           {| QueueArgs.webhook_url := Some ""; QueueArgs.input := red_circle |} "req-1");
    reflexivity.
Defined.

(** queue_status asks the backend for logs unless the caller passes
    [logs: false]; when the backend answers, the text opens with the request
    id and the status, and it is nothing more than that when the status has
    no (or an empty) response URL and no (or an empty) list of logs. *)
Theorem queue_status_answer (env : Env) (w : World) (s : StatusArgs.t)
    (status : QueueStatus.t) :
  let logs := match StatusArgs.logs s with Some false => false | _ => true end in
  let opening :=
    "Queue Status for Request ID: " +:+ StatusArgs.request_id s +:+ Js.nl +:+ Js.nl +:+
    "Status: " +:+ QueueStatus.status status in
  queue_status env (StatusArgs.request_id s) logs = Resolves status ->
  exists text w',
    ideogram_v3_queue_status env true s w = (Ok (text_result text), w')
    /\ calls w' = (calls w ++ [CallQueueStatus (StatusArgs.request_id s) logs])%list
    /\ starts_with text opening
    /\ (Js.truthy_opt Js.truthy_string (QueueStatus.response_url status) = false ->
        nonempty_array (QueueStatus.logs status) = false ->
        text = opening).
Proof.
  cbv zeta. intros Hr.
  assert (Hl : match StatusArgs.logs s with Some false => false | _ => true end
               = default true (StatusArgs.logs s)).
  { destruct (StatusArgs.logs s) as [[|]|]; reflexivity. }
  rewrite Hl in *.
  destruct (status_run env s w) as (w' & -> & Hc & _). rewrite Hr.
  do 2 eexists. split; [reflexivity|]. split; [exact Hc|].
  unfold status_responseText. split.
  - eexists. rewrite !append_assoc. reflexivity.
  - intros -> ->. change ("" +:+ "") with "". rewrite append_empty_r. reflexivity.
Qed.

Lemma queue_status_answer_witness :
  exists text w',
    ideogram_v3_queue_status bare_status_env true
      {| StatusArgs.request_id := "req-1"; StatusArgs.logs := None |} initial_world
    = (Ok (text_result text), w')
    /\ calls w' = [ CallQueueStatus "req-1" true ]
    /\ starts_with text
         ("Queue Status for Request ID: " +:+ "req-1" +:+ Js.nl +:+ Js.nl +:+
          "Status: " +:+ "IN_QUEUE")
    /\ (Js.truthy_opt Js.truthy_string (Some "") = false ->
        nonempty_array (Some (@nil Log.t)) = false ->
        text = "Queue Status for Request ID: " +:+ "req-1" +:+ Js.nl +:+ Js.nl +:+
               "Status: " +:+ "IN_QUEUE").
Proof.
  apply (queue_status_answer bare_status_env initial_world
           {| StatusArgs.request_id := "req-1"; StatusArgs.logs := None |} bare_status).
  reflexivity.
Defined.

(** ** The label of queue_result *)

Lemma map_string_app (f : ascii -> ascii) (a b : string) :
  Js.map_string f (a +:+ b) = Js.map_string f a +:+ Js.map_string f b.
Proof.
  induction a as [|c a IH]; [reflexivity|].
  change (String (f c) (Js.map_string f (a +:+ b))
          = String (f c) (Js.map_string f a +:+ Js.map_string f b)).
  rewrite IH. reflexivity.
Qed.

Lemma filter_string_app (p : ascii -> bool) (a b : string) :
  Js.filter_string p (a +:+ b) = Js.filter_string p a +:+ Js.filter_string p b.
Proof.
  induction a as [|c a IH]; [reflexivity|].
  change (Js.filter_string p (String c (a +:+ b))
          = Js.filter_string p (String c a) +:+ Js.filter_string p b).
  cbn [Js.filter_string]. rewrite IH. destruct (p c); reflexivity.
Qed.

(** The text part of every file name of queue_result: the label loses its
    underscores, and of the sanitized request id the first 39 characters
    are kept. *)
Theorem queue_result_label (request_id : string) :
  safePrompt ("queue_result_" +:+ request_id)
  = "queueresult" +:+
    String.substring 0 39
      (Js.spaces_to_underscore false (Js.strip_unsafe (Js.toLowerCase request_id))).
Proof.
  unfold safePrompt, Js.toLowerCase, Js.strip_unsafe.
  rewrite map_string_app, filter_string_app. reflexivity.
Qed.
